(** * session-intel: ingestion, classification and signal extraction

    A shallow embedding of [src/adapters/claude_code.py] (pattern tables,
    message classification, session aggregation, the ingestion driver) and
    of [src/strategies/extract.py] (the four signal extractors), with the
    properties the specification states about them (C1 to C10) and further
    properties read off the code (X1 to X22).

    Conventions of the model.
    - Text is ASCII: a Python [str] is a [string]; [lower], [strip], [\s],
      [\w] and [\b] act on the ASCII range.
    - Python integers are [Z]; the struggle score, a Python number that may
      be a multiple of 0.25, is an exact rational [Q] (such values are exact
      in binary floating point for every counter below 2^50).
    - A log line is given by the outcome of [json.loads] on it; JSON numbers
      are integers.
    - An exception raised inside a [try] is modelled by an outcome that
      carries the state mutated so far.
    - [process_session] and [ingest] give what the functions return and
      store. The exceptions that the content of a session file can raise
      outside the [try] are in [process_session_outcome] and
      [ingest_outcome]: the one of [sorted] after the loop, when the tool
      names collected are not of one kind, and the one of [db.execute] on
      a timestamp that cannot be bound. Neither occurs when the tool names
      are texts and the timestamps are texts or absent.
    - The list of lines of a file is what the file iterator yields: a
      failure of the decoder appears in it where the iterator raises,
      which for a block of bytes is before the lines of that block.
    - The fields of a session row that describe the file itself (size,
      creation time, duration) are not carried. *)

From Stdlib Require Import List String Ascii ZArith QArith Bool Lia Arith.
From Stdlib Require Import DecimalString Sorted Permutation.
Import ListNotations.

Local Open Scope string_scope.
Local Open Scope Z_scope.

Set Implicit Arguments.

(* ================================================================== *)
(** * Python string operations *)

Module PyStr.

Definition code (c : ascii) : N := N_of_ascii c.

Definition is_upper (c : ascii) : bool := (65 <=? code c)%N && (code c <=? 90)%N.
Definition is_lower (c : ascii) : bool := (97 <=? code c)%N && (code c <=? 122)%N.
Definition is_digit (c : ascii) : bool := (48 <=? code c)%N && (code c <=? 57)%N.

(** [str.isspace] on the ASCII range: tab, LF, VT, FF, CR, the four
    separators 0x1c..0x1f and the blank. *)
Definition is_space (c : ascii) : bool :=
  ((9 <=? code c)%N && (code c <=? 13)%N)
  || ((28 <=? code c)%N && (code c <=? 32)%N).

(** The class [\w]. *)
Definition is_word (c : ascii) : bool :=
  is_upper c || is_lower c || is_digit c || (code c =? 95)%N.

Definition lower_char (c : ascii) : ascii :=
  if is_upper c then ascii_of_N (code c + 32) else c.

Fixpoint lower (s : string) : string :=
  match s with
  | EmptyString => EmptyString
  | String c s' => String (lower_char c) (lower s')
  end.

Fixpoint lstrip (s : string) : string :=
  match s with
  | EmptyString => EmptyString
  | String c s' => if is_space c then lstrip s' else s
  end.

Fixpoint rstrip (s : string) : string :=
  match s with
  | EmptyString => EmptyString
  | String c s' =>
      match rstrip s' with
      | EmptyString => if is_space c then EmptyString else String c EmptyString
      | r => String c r
      end
  end.

Definition strip (s : string) : string := rstrip (lstrip s).

Definition startswith (s p : string) : bool := String.prefix p s.

Fixpoint contains (s p : string) : bool :=
  String.prefix p s
  || match s with
     | EmptyString => false
     | String _ s' => contains s' p
     end.

Definition endswith (s p : string) : bool :=
  let n := String.length s in
  let m := String.length p in
  (m <=? n)%nat && String.eqb (String.substring (n - m) m s) p.

(** [s[:n]]. *)
Definition take (n : nat) (s : string) : string := String.substring 0 n s.

Fixpoint drop (n : nat) (s : string) : string :=
  match n, s with
  | O, _ => s
  | S n', String _ s' => drop n' s'
  | S _, EmptyString => EmptyString
  end.

(** [s.split(sep)] for a one-character separator. *)
Fixpoint split (sep : ascii) (s : string) : list string :=
  match s with
  | EmptyString => [EmptyString]
  | String c s' =>
      if Ascii.eqb c sep then EmptyString :: split sep s'
      else match split sep s' with
           | [] => [String c EmptyString]
           | w :: ws => String c w :: ws
           end
  end.

(** [sep.join(parts)]. *)
Fixpoint join (sep : string) (parts : list string) : string :=
  match parts with
  | [] => EmptyString
  | [p] => p
  | p :: ps => p ++ sep ++ join sep ps
  end.

(** [s.replace(old, "")] for a non-empty [old]: every occurrence, left to
    right, without overlap. *)
Fixpoint remove_all_fuel (fuel : nat) (old s : string) : string :=
  match fuel with
  | O => s
  | S fuel' =>
      if String.prefix old s
      then remove_all_fuel fuel' old (drop (String.length old) s)
      else match s with
           | EmptyString => EmptyString
           | String c s' => String c (remove_all_fuel fuel' old s')
           end
  end.

Definition remove_all (old s : string) : string :=
  remove_all_fuel (S (String.length s)) old s.

End PyStr.

(* ================================================================== *)
(** * Regular expressions: the fragment of Python's [re] the tables use *)

Module Regex.

Inductive cls_item : Type :=
| CChar (c : ascii)
| CSpace
| CWord.

Inductive regex : Type :=
| Eps
| Chr (c : ascii)
| Dot
| Cls (items : list cls_item)
| Bol
| WordB
| Cat (r1 r2 : regex)
| Alt (r1 r2 : regex)
| Star (r : regex).

(** ** Parsing the pattern text *)

Definition is_postfix (c : ascii) : bool :=
  Ascii.eqb c "*" || Ascii.eqb c "+" || Ascii.eqb c "?".

Definition unsupported (c : ascii) : bool :=
  Ascii.eqb c "{" || Ascii.eqb c "}" || Ascii.eqb c "$" || Ascii.eqb c "]"
  || is_postfix c.

(** An escape outside a class. Escaped letters and digits other than
    [s], [w], [b] are not in the fragment. *)
Definition escape (c : ascii) : option regex :=
  if Ascii.eqb c "s" then Some (Cls [CSpace])
  else if Ascii.eqb c "w" then Some (Cls [CWord])
  else if Ascii.eqb c "b" then Some WordB
  else if PyStr.is_word c then None
  else Some (Chr c).

Fixpoint parse_class (s : list ascii) (acc : list cls_item)
  : option (list cls_item * list ascii) :=
  match s with
  | [] => None
  | c :: s' =>
      if Ascii.eqb c "]" then Some (rev acc, s')
      else if Ascii.eqb c "^" || Ascii.eqb c "-" || Ascii.eqb c "[" then None
      else if Ascii.eqb c "\" then
        match s' with
        | [] => None
        | e :: s'' =>
            if Ascii.eqb e "s" then parse_class s'' (CSpace :: acc)
            else if Ascii.eqb e "w" then parse_class s'' (CWord :: acc)
            else if PyStr.is_word e then None
            else parse_class s'' (CChar e :: acc)
        end
      else parse_class s' (CChar c :: acc)
  end.

Definition apply_postfix (r : regex) (s : list ascii) : option (regex * list ascii) :=
  match s with
  | c :: s' =>
      if is_postfix c then
        match s' with
        | d :: _ => if is_postfix d then None
                    else Some ((if Ascii.eqb c "*" then Star r
                                else if Ascii.eqb c "+" then Cat r (Star r)
                                else Alt r Eps), s')
        | [] => Some ((if Ascii.eqb c "*" then Star r
                       else if Ascii.eqb c "+" then Cat r (Star r)
                       else Alt r Eps), s')
        end
      else Some (r, s)
  | [] => Some (r, s)
  end.

Definition cat (r1 r2 : regex) : regex :=
  match r2 with
  | Eps => r1
  | _ => Cat r1 r2
  end.

Fixpoint parse_alt (fuel : nat) (s : list ascii) : option (regex * list ascii) :=
  match fuel with
  | O => None
  | S fuel' =>
      match parse_seq fuel' s with
      | Some (r1, c :: s') =>
          if Ascii.eqb c "|" then
            match parse_alt fuel' s' with
            | Some (r2, s'') => Some (Alt r1 r2, s'')
            | None => None
            end
          else Some (r1, c :: s')
      | other => other
      end
  end
with parse_seq (fuel : nat) (s : list ascii) : option (regex * list ascii) :=
  match fuel with
  | O => None
  | S fuel' =>
      match s with
      | [] => Some (Eps, [])
      | c :: s' =>
          if Ascii.eqb c "|" || Ascii.eqb c ")" then Some (Eps, s)
          else
            match parse_atom fuel' s with
            | Some (a, s1) =>
                match apply_postfix a s1 with
                | Some (a', s2) =>
                    match parse_seq fuel' s2 with
                    | Some (r, s3) => Some (cat a' r, s3)
                    | None => None
                    end
                | None => None
                end
            | None => None
            end
      end
  end
with parse_atom (fuel : nat) (s : list ascii) : option (regex * list ascii) :=
  match fuel with
  | O => None
  | S fuel' =>
      match s with
      | [] => None
      | c :: s' =>
          if Ascii.eqb c "(" then
            match parse_alt fuel' s' with
            | Some (r, d :: s'') => if Ascii.eqb d ")" then Some (r, s'') else None
            | _ => None
            end
          else if Ascii.eqb c "[" then
            match parse_class s' [] with
            | Some (items, s'') => Some (Cls items, s'')
            | None => None
            end
          else if Ascii.eqb c "\" then
            match s' with
            | e :: s'' =>
                match escape e with
                | Some r => Some (r, s'')
                | None => None
                end
            | [] => None
            end
          else if Ascii.eqb c "." then Some (Dot, s')
          else if Ascii.eqb c "^" then Some (Bol, s')
          else if unsupported c then None
          else Some (Chr c, s')
      end
  end.

(** [re.compile]: [None] when the pattern is outside the fragment. *)
Definition compile (p : string) : option regex :=
  let cs := list_ascii_of_string p in
  match parse_alt (3 * (S (List.length cs))) cs with
  | Some (r, []) => Some r
  | _ => None
  end.

(** ** Matching *)

Definition chr_eq (icase : bool) (c t : ascii) : bool :=
  if icase then Ascii.eqb (PyStr.lower_char c) (PyStr.lower_char t)
  else Ascii.eqb c t.

Definition item_match (icase : bool) (t : ascii) (i : cls_item) : bool :=
  match i with
  | CChar c => chr_eq icase c t
  | CSpace => PyStr.is_space t
  | CWord => PyStr.is_word t
  end.

Definition is_word_opt (o : option ascii) : bool :=
  match o with
  | Some c => PyStr.is_word c
  | None => false
  end.

Definition or_else {A} (x : option A) (y : option A) : option A :=
  match x with
  | Some _ => x
  | None => y
  end.

(** The backtracking matcher, in continuation-passing style. [prev] is the
    character before the current position ([None] at the start of the
    text), [s] the rest of the text; the alternatives are tried in the
    order of Python's engine (left branch first, greedy repetition), and
    the result is the text left after the first match found. *)
Fixpoint run (A : Type) (icase : bool) (r : regex) (prev : option ascii) (s : list ascii)
  (k : option ascii -> list ascii -> option A) {struct r} : option A :=
  match r with
  | Eps => k prev s
  | Chr c =>
      match s with
      | t :: s' => if chr_eq icase c t then k (Some t) s' else None
      | [] => None
      end
  | Dot =>
      match s with
      | t :: s' => if Ascii.eqb t "010" then None else k (Some t) s'
      | [] => None
      end
  | Cls items =>
      match s with
      | t :: s' => if existsb (item_match icase t) items then k (Some t) s' else None
      | [] => None
      end
  | Bol => match prev with None => k prev s | Some _ => None end
  | WordB =>
      if xorb (is_word_opt prev) (is_word_opt (hd_error s)) then k prev s else None
  | Cat r1 r2 => run icase r1 prev s (fun p' s' => run icase r2 p' s' k)
  | Alt r1 r2 => or_else (run icase r1 prev s k) (run icase r2 prev s k)
  | Star r1 =>
      (fix loop (n : nat) (prev : option ascii) (s : list ascii) {struct n} : option A :=
         match n with
         | O => k prev s
         | S n' =>
             or_else
               (run icase r1 prev s
                  (fun p' s' =>
                     if (List.length s' <? List.length s)%nat then loop n' p' s' else None))
               (k prev s)
         end) (List.length s) prev s
  end.

(** The first match that starts at the current position. *)
Definition match_here (icase : bool) (r : regex) (prev : option ascii) (s : list ascii)
  : option (list ascii) :=
  run icase r prev s (fun _ rest => Some rest).

(** [re.search(r, text) is not None]. *)
Fixpoint search_from (icase : bool) (r : regex) (prev : option ascii) (s : list ascii) : bool :=
  match match_here icase r prev s with
  | Some _ => true
  | None =>
      match s with
      | [] => false
      | c :: s' => search_from icase r (Some c) s'
      end
  end.

Definition search (icase : bool) (r : regex) (text : string) : bool :=
  search_from icase r None (list_ascii_of_string text).

(** [len(re.findall(r, text))]: matches are taken left to right and do not
    overlap; after an empty match the scan moves one character on. *)
Fixpoint count_from (fuel : nat) (icase : bool) (r : regex) (prev : option ascii)
  (s : list ascii) : Z :=
  match fuel with
  | O => 0
  | S fuel' =>
      match match_here icase r prev s with
      | Some rest =>
          let used := (List.length s - List.length rest)%nat in
          match used, s with
          | O, [] => 1
          | O, c :: s' => 1 + count_from fuel' icase r (Some c) s'
          | S u, _ => 1 + count_from fuel' icase r (nth_error s u) rest
          end
      | None =>
          match s with
          | [] => 0
          | c :: s' => count_from fuel' icase r (Some c) s'
          end
      end
  end.

Definition findall_count (icase : bool) (r : regex) (text : string) : Z :=
  let cs := list_ascii_of_string text in
  count_from (S (List.length cs)) icase r None cs.

(** [re.search(p, text)] on the pattern text: a pattern outside the
    fragment matches nothing (the tables below all compile, see
    [tables_compile]). *)
Definition re_search (icase : bool) (p text : string) : bool :=
  match compile p with
  | Some r => search icase r text
  | None => false
  end.

Definition re_findall_count (p text : string) : Z :=
  match compile p with
  | Some r => findall_count false r text
  | None => 0
  end.

End Regex.

(* ================================================================== *)
(** * The pattern library ([claude_code.py], module level) *)

Definition ERROR_PATTERNS : list string :=
  [ "error[:\s]";
    "failed";
    "failure";
    "not found";
    "doesn\'t exist";
    "invalid";
    "cannot\b";
    "unable to" ].

Definition RETRY_PATTERNS : list string :=
  [ "let me try";
    "let me check";
    "let me fix";
    "let me look";
    "that didn\'t work";
    "try a different";
    "try another";
    "instead,?\s+(let|I\'ll)";
    "actually,?\s+(the|let|I)";
    "the issue is";
    "the problem is";
    "I see the issue" ].

Definition CORRECTION_PATTERNS : list string :=
  [ "^no[,.\s]";
    "^wrong";
    "^that\'s wrong";
    "^actually[,\s]";
    "you can\'t";
    "that\'s not";
    "that won\'t work";
    "that doesn\'t";
    "not what I";
    "I said\b";
    "I meant\b" ].

Definition DISCOVERY_PATTERNS : list string :=
  [ "I see[\s!]";
    "I found";
    "the (issue|problem|root cause|reason) (is|was)";
    "now I understand";
    "that\'s because";
    "the fix is";
    "resolved";
    "working now";
    "successfully" ].

(** [INTENT_PATTERNS]: a dict, iterated in insertion order. *)
Definition INTENT_PATTERNS : list (string * list string) :=
  [ ("execution",
      [ "implement";
        "\bbuild\b";
        "\bdeploy\b";
        "\bfix\b";
        "\bcreate\b";
        "\bupdate\b";
        "\badd\b";
        "\bmodify\b";
        "\brefactor\b";
        "\bmigrate\b";
        "resume work";
        "continue.*work";
        "executing.?plan";
        "execute.?plan";
        "subagent.driven";
        "<command-message>fix</command-message>" ]);
    ("planning",
      [ "\bplan\b";
        "brainstorm";
        "discuss";
        "what if";
        "how should";
        "let\'s think";
        "strategy";
        "approach";
        "writing.?plan";
        "<command-message>superpowers:brainstorm";
        "<command-message>superpowers:writing" ]);
    ("debug",
      [ "not working";
        "broken";
        "failing";
        "\berror\b";
        "bug";
        "crash";
        "stuck";
        "still failing";
        "why (is|does|isn)";
        "<command-message>fix" ]);
    ("config",
      [ "\bconnect\b";
        "\binstall\b";
        "\bconfigure\b";
        "set.?up";
        "api.?key";
        "auth";
        "credential";
        "mcp";
        "\.env\b";
        "salesforce-connect" ]);
    ("research",
      [ "research";
        "figure out";
        "how does";
        "what is";
        "investigate";
        "explore";
        "look into";
        "can we use";
        "understand" ]);
    ("review",
      [ "\breview\b";
        "look at";
        "check.*status";
        "what.*(state|progress)";
        "where.*left off";
        "audit";
        "CLAUDE\.MD";
        "CLAUDE\.md" ]) ].

Definition DOMAIN_PATTERNS : list (string * list string) :=
  [ ("ui/design",
      [ "\bcomponent\b"; "\bpage\b"; "\bcss\b"; "\blayout\b"; "\bflexipage\b";
        "\blwc\b"; "\breact\b"; "\bhtml\b"; "\bmodal\b"; "\bbutton\b";
        "\bstyle\b"; "\btheme\b"; "\brender\b"; "\bfrontend\b"; "\bui\b";
        "\btailwind\b"; "\bdesign\b"; "\bresponsive\b"; "\bnavigation\b";
        "\bsidebar\b"; "\bheader\b"; "\btab\b"; "\bcard\b"; "\bicon\b";
        "\bcolor\b"; "\bfont\b"; "\bgrid\b"; "\bflex\b"; "\bpadding\b";
        "\bmargin\b"; "\bwidth\b"; "\bheight\b"; "\btsx\b"; "\bjsx\b";
        "\bvite\b"; "\bhmr\b"; "\bscreenshot\b"; "\bvisual\b" ]);
    ("data",
      [ "\bsoql\b"; "\bsql\b"; "\bdatabase\b"; "\bmigrat\w*\b"; "\bschema\b";
        "\brecord\b"; "\bquery\b"; "\.db\b"; "\bdml\b"; "\btable\b";
        "\bcolumn\b"; "\bfield\b"; "\bsqlite\b"; "\binsert\b"; "\bselect\b";
        "\bjoin\b"; "\bindex\b"; "\bcrud\b"; "\bdata\s?source\b";
        "\bsync\b"; "\bingest\b"; "\betl\b"; "\bjson\b"; "\bcsv\b";
        "\bparse\b"; "\bscrape\b"; "\bfetch\b" ]);
    ("workflow/automation",
      [ "\bflow\b"; "\btrigger\b"; "\bprocess\b"; "\bautomati\w*\b";
        "\bcron\b"; "\bschedul\w*\b"; "\bemail\s?trigger\b"; "\bworkflow\b";
        "\brule\b"; "\baction\b"; "\bprompt\b"; "\bscreen\s?flow\b";
        "\brecord.?trigger\b"; "\bvalidation\b"; "\bapproval\b";
        "\bnotif\w*\b"; "\balert\b"; "\bhook\b"; "\bwebhook\b" ]);
    ("architecture",
      [ "\brefactor\b"; "\bmodule\b"; "\bpattern\b"; "\bstructure\b";
        "\bdirectory\b"; "\bextract\b"; "\babstract\w*\b"; "\borganiz\w*\b";
        "\barchitect\w*\b"; "\bseparati\w*\b"; "\bdecouple\b"; "\blayer\b";
        "\bplugin\b"; "\bsystem\b"; "\bframework\b"; "\bpattern\b" ]);
    ("api",
      [ "\bendpoint\b"; "\bapi\b"; "\brest\b"; "\broute\b"; "\brequest\b";
        "\bresponse\b"; "\bintegration\b"; "\bhttp\b"; "\bfetch\b";
        "\bpost\b"; "\bget\b"; "\bput\b"; "\bwebsocket\b"; "\boauth\b";
        "\btoken\b"; "\bauth\w*\b" ]);
    ("infra/deploy",
      [ "\bdeploy\b"; "\bci\b"; "\bbuild\b"; "\bpackage\b"; "\bmanifest\b";
        "\bsandbox\b"; "\bproduction\b"; "\bgit\b"; "\bbranch\b";
        "\bmerge\b"; "\bcommit\b"; "\brelease\b"; "\bpipeline\b";
        "\bdocker\b"; "\bserver\b"; "\bhost\b"; "\binstall\b" ]);
    ("config/auth",
      [ "\boauth\b"; "\btoken\b"; "\bapi.?key\b"; "\bcredential\b";
        "\bmcp\b"; "\benv\b"; "\bsettings\b"; "\bconfig\w*\b";
        "\bonboard\b"; "\bsetup\b"; "\bpermission\b"; "\baccess\b" ]);
    ("metadata",
      [ "\bdescri\w+\b"; "\blabel\b"; "\bhelp.?text\b"; "\benrich\b";
        "\bdocument\b"; "\bannotat\w*\b"; "\bobject.?manager\b" ]);
    ("test/qa",
      [ "\btest\b"; "\bcoverage\b"; "\bassert\b"; "\bvalidat\w*\b";
        "\bverif\w*\b"; "\bqa\b"; "\bregression\b"; "\bsanity\b";
        "\bapex\s?test\b"; "\bedge\s?case\b" ]) ].

Definition compiles (p : string) : bool :=
  match Regex.compile p with
  | Some _ => true
  | None => false
  end.

(* ================================================================== *)
(** * Intent, struggle score, domain *)

(** The scoring loop of [detect_intent]: one point per pattern of the
    label that [re.search] finds (with [re.IGNORECASE]). *)
Definition intent_score (patterns : list string) (text : string) : Z :=
  fold_left (fun score p => if Regex.re_search true p text then score + 1 else score)
    patterns 0.

(** The dict [scores]: the labels with a positive score, in the order of
    [INTENT_PATTERNS]. *)
Definition intent_scores (table : list (string * list string)) (text : string)
  : list (string * Z) :=
  flat_map (fun e => let score := intent_score (snd e) text in
                     if 0 <? score then [(fst e, score)] else [])
    table.

(** [max(scores, key=scores.get)]: the first key whose value is maximal. *)
Fixpoint max_by_value (best : string * Z) (rest : list (string * Z)) : string :=
  match rest with
  | [] => fst best
  | e :: rest' => max_by_value (if snd best <? snd e then e else best) rest'
  end.

Definition special_intent (text : string) : option string :=
  if existsb (String.eqb text) ["warmup"; "say hello"; "tui"; "think high"]
  then Some "startup"
  else if PyStr.startswith text "# soul" then Some "startup"
  else if PyStr.startswith text "<command-name>/clear" then Some "continuation"
  else if PyStr.startswith text "<command-message>resume" then Some "execution"
  else if PyStr.startswith text "<command-message>tickets" then Some "review"
  else if PyStr.startswith text "<command-message>plugin" then Some "config"
  else if PyStr.contains text "read the latest session"
          || PyStr.contains text "read the latest_session"
  then Some "startup"
  else None.

(** The tail of [detect_intent]: "unknown" when the dict is empty, its
    highest-scoring label otherwise. *)
Definition scored_intent (table : list (string * list string)) (text : string) : string :=
  match intent_scores table text with
  | [] => "unknown"
  | e :: rest => max_by_value e rest
  end.

Definition detect_intent (first_message : string) : string :=
  if String.eqb first_message "" then "unknown"
  else
    let text := PyStr.strip (PyStr.lower first_message) in
    match special_intent text with
    | Some label => label
    | None => scored_intent INTENT_PATTERNS text
    end.

Definition compute_struggle_score (intent : string) (errors retries corrections : Z) : Q :=
  if String.eqb intent "execution" then
    inject_Z (errors * 2 + retries * 2 + corrections * 3)
  else if String.eqb intent "planning" then
    (inject_Z (corrections * 3) + inject_Z retries * (1 # 4))%Q
  else if String.eqb intent "debug" then
    inject_Z (retries * 1 + corrections * 3)
  else if String.eqb intent "config" then
    inject_Z (retries * 2 + errors * 1)
  else if String.eqb intent "research" then
    inject_Z (corrections * 3)
  else if String.eqb intent "review" then
    (inject_Z (corrections * 2) + inject_Z retries * (1 # 2))%Q
  else if String.eqb intent "startup" then
    0%Q
  else if String.eqb intent "continuation" then
    inject_Z (errors * 2 + retries * 2 + corrections * 3)
  else
    inject_Z (errors + retries + corrections * 2).

Definition check_patterns (text : string) (patterns : list string) : bool :=
  let text_lower := PyStr.lower text in
  existsb (fun p => Regex.re_search false p text_lower) patterns.

(** [detect_domain]: per label, the number of occurrences ([re.findall])
    of its patterns over the lower-cased previews of all messages; the
    first label with the highest count, or "general" when every count is
    zero. *)
Definition domain_score (patterns : list string) (previews : list string) : Z :=
  fold_left
    (fun total preview =>
       let text := PyStr.lower preview in
       if String.eqb text "" then total
       else fold_left (fun acc p => acc + Regex.re_findall_count p text) patterns total)
    previews 0.

Definition detect_domain (previews : list string) : string :=
  let domain_scores := map (fun e => (fst e, domain_score (snd e) previews)) DOMAIN_PATTERNS in
  if forallb (fun e => snd e =? 0) domain_scores then "general"
  else match domain_scores with
       | [] => "general"
       | e :: rest => max_by_value e rest
       end.

(* ================================================================== *)
(** * Decoded JSON and the message classifier *)

#[warnings="-register-all"]
Inductive json : Type :=
| JNull
| JBool (b : bool)
| JNum (z : Z)
| JStr (s : string)
| JArr (items : list json)
| JObj (fields : list (string * json)).

(** [d.get(key)] on a decoded object: of two fields with one key,
    [json.loads] keeps the later. *)
Fixpoint dict_get (fields : list (string * json)) (key : string) : option json :=
  match fields with
  | [] => None
  | (k, v) :: rest =>
      match dict_get rest key with
      | Some v' => Some v'
      | None => if String.eqb k key then Some v else None
      end
  end.

Definition get_default (fields : list (string * json)) (key : string) (default : json) : json :=
  match dict_get fields key with
  | Some v => v
  | None => default
  end.

Definition is_str (j : json) (s : string) : bool :=
  match j with
  | JStr t => String.eqb t s
  | _ => false
  end.

(** The values a Python set can hold among decoded JSON: everything but
    lists and dicts. *)
Inductive scalar : Type :=
| SNull
| SBool (b : bool)
| SNum (z : Z)
| SStr (s : string).

Definition to_scalar (j : json) : option scalar :=
  match j with
  | JNull => Some SNull
  | JBool b => Some (SBool b)
  | JNum z => Some (SNum z)
  | JStr s => Some (SStr s)
  | JArr _ | JObj _ => None
  end.

Fixpoint to_scalars (names : list json) : option (list scalar) :=
  match names with
  | [] => Some []
  | j :: rest =>
      match to_scalar j, to_scalars rest with
      | Some x, Some xs => Some (x :: xs)
      | _, _ => None
      end
  end.

(** Python's [==] on such values: [True == 1] and [False == 0]. *)
Definition scalar_num (x : scalar) : option Z :=
  match x with
  | SBool b => Some (if b then 1 else 0)
  | SNum z => Some z
  | _ => None
  end.

Definition scalar_eqb (x y : scalar) : bool :=
  match x, y with
  | SNull, SNull => true
  | SStr s, SStr t => String.eqb s t
  | _, _ =>
      match scalar_num x, scalar_num y with
      | Some a, Some b => a =? b
      | _, _ => false
      end
  end.

(** ** [str()] of a decoded value *)

Module PyRepr.

Definition hex_digit (n : N) : ascii :=
  if (n <? 10)%N then ascii_of_N (48 + n) else ascii_of_N (87 + n).

Definition escape_char (quote : ascii) (c : ascii) : string :=
  if Ascii.eqb c "\" then "\\"
  else if Ascii.eqb c quote then String "\" (String c "")
  else if Ascii.eqb c "009" then "\t"
  else if Ascii.eqb c "010" then "\n"
  else if Ascii.eqb c "013" then "\r"
  else if (PyStr.code c <? 32)%N || (PyStr.code c =? 127)%N then
    String "\" (String "x" (String (hex_digit (PyStr.code c / 16))
                             (String (hex_digit (PyStr.code c mod 16)) "")))
  else String c "".

Fixpoint escape_all (quote : ascii) (s : string) : string :=
  match s with
  | EmptyString => EmptyString
  | String c s' => escape_char quote c ++ escape_all quote s'
  end.

(** The double quote, character 34. *)
Definition dquote : ascii := "034".

Definition repr_str (s : string) : string :=
  let quote : ascii :=
    if PyStr.contains s "'" && negb (PyStr.contains s (String dquote EmptyString))
    then dquote else "'"%char in
  String quote (escape_all quote s ++ String quote EmptyString).

Definition repr_int (z : Z) : string :=
  DecimalString.NilEmpty.string_of_int (Z.to_int z).

(** The items of the decoded dict: a repeated key keeps its first
    position and its last value. *)
Fixpoint dict_items (A : Type) (seen : list string) (fields : list (string * A))
  : list (string * A) :=
  match fields with
  | [] => []
  | (k, v) :: rest =>
      if existsb (String.eqb k) seen then dict_items seen rest
      else
        let v' := match find (fun e => String.eqb (fst e) k) (rev rest) with
                  | Some e => snd e
                  | None => v
                  end in
        (k, v') :: dict_items (k :: seen) rest
  end.

Fixpoint py_repr (j : json) : string :=
  match j with
  | JNull => "None"
  | JBool true => "True"
  | JBool false => "False"
  | JNum z => repr_int z
  | JStr s => repr_str s
  | JArr items => "[" ++ PyStr.join ", " (map py_repr items) ++ "]"
  | JObj fields =>
      let rendered := map (fun kv => (fst kv, py_repr (snd kv))) fields in
      "{" ++ PyStr.join ", "
               (map (fun kv => repr_str (fst kv) ++ ": " ++ snd kv)
                  (dict_items [] rendered)) ++ "}"
  end.

(** [str(x)]: the text itself for a string, the [repr] otherwise. *)
Definition py_str (j : json) : string :=
  match j with
  | JStr s => s
  | _ => py_repr j
  end.

End PyRepr.

(** ** [get_text_content] and [extract_tool_names] *)

(** A Python call either returns or raises. *)
Inductive result (A : Type) : Type :=
| Ok (a : A)
| Raise.
Arguments Raise {A}.

(** [msg.get("message", {}).get("content", "")]: raises [AttributeError]
    when the field [message] is present and is not an object. *)
Definition message_content (obj : list (string * json)) : result json :=
  match get_default obj "message" (JObj []) with
  | JObj m => Ok (get_default m "content" (JStr ""))
  | _ => Raise
  end.

(** The list [parts] of [get_text_content]: the field [text] (default [""])
    of every block that is an object of type "text". *)
Definition text_parts (blocks : list json) : list json :=
  flat_map (fun block =>
              match block with
              | JObj b => if match dict_get b "type" with
                             | Some t => is_str t "text"
                             | None => false
                             end
                          then [get_default b "text" (JStr "")] else []
              | _ => []
              end) blocks.

(** [" ".join(parts)]: raises [TypeError] when a part is not a string. *)
Fixpoint join_parts (parts : list json) : result (list string) :=
  match parts with
  | [] => Ok []
  | JStr s :: rest =>
      match join_parts rest with
      | Ok ss => Ok (s :: ss)
      | Raise => Raise
      end
  | _ :: _ => Raise
  end.

Definition get_text_content (obj : list (string * json)) : result string :=
  match message_content obj with
  | Raise => Raise
  | Ok (JStr s) => Ok s
  | Ok (JArr blocks) =>
      match join_parts (text_parts blocks) with
      | Ok ss => Ok (PyStr.join " " ss)
      | Raise => Raise
      end
  | Ok other => Ok (PyRepr.py_str other)
  end.

Definition extract_tool_names (content : json) : list json :=
  match content with
  | JArr blocks =>
      flat_map (fun block =>
                  match block with
                  | JObj b =>
                      match dict_get b "type" with
                      | Some t =>
                          if is_str t "toolCall" then [get_default b "name" (JStr "unknown")]
                          else if is_str t "tool_use" then [get_default b "name" (JStr "unknown")]
                          else []
                      | None => []
                      end
                  | _ => []
                  end) blocks
  | _ => []
  end.

(* ================================================================== *)
(** * The session aggregator ([process_session]) *)

(** A message dict as appended to [messages]. The field [timestamp] is
    copied from the record, read by no extractor and not carried here.
    [tool_names] is the list that [json.dumps] serialises ([None] when it
    is empty). *)
Module Message.
Record t : Type := mk {
  seq : Z;
  role : string;
  content_preview : string;
  tool_names : option (list scalar);
  tool_call_count : Z;
  has_error : bool;
  is_retry : bool;
  is_correction : bool;
  is_discovery : bool
}.
End Message.

(** The part of the [session] dict that the loop mutates, with the list
    [messages] and the counter [seq]. The set [unique_tools] is only
    serialised into the session row; of it the model keeps the
    [TypeError] that [set.update] raises on an unhashable name. *)
Module Agg.
Record t : Type := mk {
  first_message : option string;
  message_count : Z;
  user_message_count : Z;
  assistant_message_count : Z;
  tool_call_count : Z;
  error_count : Z;
  retry_count : Z;
  correction_count : Z;
  messages : list Message.t;
  seq : Z
}.

Definition init : t := mk None 0 0 0 0 0 0 0 [] 0.
End Agg.

(** What the file iterator and [json.loads] yield for one line. *)
Inductive raw_line : Type :=
| ReadError            (** reading or decoding the line raises (not [JSONDecodeError]) *)
| Blank                (** [line.strip()] is empty *)
| BadJson              (** [json.loads] raises [JSONDecodeError] *)
| Json (obj : json).   (** [json.loads] returns [obj] *)

(** One turn of the loop: [Next] when it runs to its end (or [continue]s),
    [Caught] when an exception leaves the loop for the [except] clause;
    both carry the state as mutated so far. *)
Inductive step_result : Type :=
| Next (st : Agg.t)
| Caught (st : Agg.t).

Definition bool_count (b : bool) : Z := if b then 1 else 0.

Definition record_step (st : Agg.t) (obj : list (string * json)) : step_result :=
  let msg_type := dict_get obj "type" in
  let is_user := match msg_type with Some t => is_str t "user" | None => false end in
  let is_assistant := match msg_type with Some t => is_str t "assistant" | None => false end in
  if negb (is_user || is_assistant) then Next st
  else
    match get_text_content obj with
    | Raise => Caught st
    | Ok text =>
        let tool_names :=
          if is_assistant
          then match message_content obj with
               | Ok raw_content => extract_tool_names raw_content
               | Raise => []
               end
          else [] in
        let has_error := is_assistant && check_patterns text ERROR_PATTERNS in
        let is_retry := is_assistant && check_patterns text RETRY_PATTERNS in
        let is_discovery := is_assistant && check_patterns text DISCOVERY_PATTERNS in
        let is_correction :=
          negb is_assistant && is_user && check_patterns text CORRECTION_PATTERNS in
        let first_message :=
          match Agg.first_message st with
          | None =>
              if is_user && negb (PyStr.startswith text "<local-command-caveat>")
              then Some (PyStr.take 300 text) else None
          | Some fm => Some fm
          end in
        let n_tools := Z.of_nat (List.length tool_names) in
        let counted :=
          Agg.mk first_message
            (Agg.message_count st + 1)
            (Agg.user_message_count st + bool_count is_user)
            (Agg.assistant_message_count st + bool_count (negb is_user))
            (Agg.tool_call_count st + n_tools)
            (Agg.error_count st + bool_count has_error)
            (Agg.retry_count st + bool_count is_retry)
            (Agg.correction_count st + bool_count is_correction)
            (Agg.messages st)
            (Agg.seq st) in
        match to_scalars tool_names with
        | None => Caught counted
        | Some names =>
            let msg :=
              Message.mk (Agg.seq st)
                (if is_user then "user" else "assistant")
                (PyStr.take 300 text)
                (match names with [] => None | _ => Some names end)
                n_tools has_error is_retry is_correction is_discovery in
            Next (Agg.mk first_message
                    (Agg.message_count counted)
                    (Agg.user_message_count counted)
                    (Agg.assistant_message_count counted)
                    (Agg.tool_call_count counted)
                    (Agg.error_count counted)
                    (Agg.retry_count counted)
                    (Agg.correction_count counted)
                    (Agg.messages st ++ [msg])
                    (Agg.seq st + 1))
        end
    end.

Definition line_step (st : Agg.t) (line : raw_line) : step_result :=
  match line with
  | ReadError => Caught st
  | Blank => Next st
  | BadJson => Next st
  | Json (JObj obj) => record_step st obj
  | Json _ => Caught st          (* [obj.get]: AttributeError *)
  end.

Fixpoint read_lines (st : Agg.t) (lines : list raw_line) : step_result :=
  match lines with
  | [] => Next st
  | line :: rest =>
      match line_step st line with
      | Next st' => read_lines st' rest
      | Caught st' => Caught st'
      end
  end.

Definition final_state (r : step_result) : Agg.t :=
  match r with
  | Next st => st
  | Caught st => st
  end.

Module Session.
Record t : Type := mk {
  id : string;
  source : string;
  project : string;
  session_id : string;
  first_message : option string;
  message_count : Z;
  user_message_count : Z;
  assistant_message_count : Z;
  tool_call_count : Z;
  error_count : Z;
  retry_count : Z;
  correction_count : Z;
  modified_at : Z;
  raw_path : string;
  intent : string;
  domain : string;
  struggle_score : Q
}.
End Session.

(** A session file as [os.stat] and the file iterator present it;
    [os.stat] is taken to succeed. Size and creation time only feed
    metadata columns and are left out. *)
Record file : Type := mkFile {
  filepath : string;
  st_mtime : Z;
  lines : list raw_line
}.

Definition process_session (f : file) (project session_id : string)
  : Session.t * list Message.t :=
  let st := final_state (read_lines Agg.init (lines f)) in
  let messages := Agg.messages st in
  let intent :=
    detect_intent (match Agg.first_message st with Some fm => fm | None => "" end) in
  let domain := detect_domain (map Message.content_preview messages) in
  (Session.mk ("claude-code:" ++ session_id) "claude-code" project session_id
     (Agg.first_message st)
     (Agg.message_count st) (Agg.user_message_count st)
     (Agg.assistant_message_count st) (Agg.tool_call_count st)
     (Agg.error_count st) (Agg.retry_count st) (Agg.correction_count st)
     (st_mtime f) (filepath f) intent domain
     (compute_struggle_score intent
        (Agg.error_count st) (Agg.retry_count st) (Agg.correction_count st)),
   messages).

Definition user_line (text : string) : raw_line :=
  Json (JObj [("type", JStr "user"); ("message", JObj [("content", JStr text)])]).

Definition assistant_line (content : json) : raw_line :=
  Json (JObj [("type", JStr "assistant"); ("message", JObj [("content", content)])]).

(* ================================================================== *)
(** * The session store and the ingestion driver ([ingest]) *)

Record message_row : Type := mkRow {
  row_session_id : string;
  row_msg : Message.t
}.

(** Modelled from the spec: the schema file [schema.sql] is not part of the
    sources. Section 6 gives two tables, [sessions] with the session id as
    primary key and [messages] with no constraint beyond the pair
    (session id, sequence); rows are kept in insertion order. *)
Record db : Type := mkDb {
  sessions : list Session.t;
  messages : list message_row
}.

Definition empty_db : db := mkDb [] [].

(** [INSERT OR REPLACE INTO sessions]: a row with the same primary key is
    removed before the new row is inserted. *)
Definition insert_or_replace_session (d : db) (s : Session.t) : db :=
  mkDb (filter (fun r => negb (String.eqb (Session.id r) (Session.id s))) (sessions d) ++ [s])
       (messages d).

(** [DELETE FROM messages WHERE session_id = ?]. *)
Definition delete_messages (d : db) (sid : string) : db :=
  mkDb (sessions d)
       (filter (fun r => negb (String.eqb (row_session_id r) sid)) (messages d)).

(** The loop of [INSERT INTO messages]. *)
Definition insert_messages (d : db) (sid : string) (msgs : list Message.t) : db :=
  fold_left (fun d' m => mkDb (sessions d') (messages d' ++ [mkRow sid m])) msgs d.

(** [SELECT ... FROM messages WHERE session_id = ?], in insertion order. *)
Definition messages_of (d : db) (sid : string) : list Message.t :=
  map row_msg (filter (fun r => String.eqb (row_session_id r) sid) (messages d)).

Definition decode_project_name (dirname : string) : string :=
  let parts := PyStr.split "-" dirname in
  if (3 <? List.length parts)%nat
  then PyStr.join "-" (skipn (List.length parts - 2) parts)
  else dirname.

(** The dict [existing]: raw path to stored modification time, from the
    rows of this source; empty under [force]. A later row wins. *)
Definition existing_of (d : db) (force : bool) : list (string * Z) :=
  if force then []
  else map (fun s => (Session.raw_path s, Session.modified_at s))
         (filter (fun s => String.eqb (Session.source s) "claude-code") (sessions d)).

Fixpoint existing_get (existing : list (string * Z)) (path : string) : option Z :=
  match existing with
  | [] => None
  | (k, v) :: rest =>
      match existing_get rest path with
      | Some v' => Some v'
      | None => if String.eqb k path then Some v else None
      end
  end.

(** One [*.jsonl] path found by the two [glob] loops: the base name of its
    project directory, its file name and the file. *)
Record artifact : Type := mkArtifact {
  projdir : string;
  fname : string;
  art_file : file
}.

Record counts : Type := mkCounts {
  ingested : Z;
  skipped : Z;
  updated : Z
}.

(** What the loop does with one artifact. *)
Inductive action : Type :=
| Filtered                      (** a [continue] before the freshness test *)
| Unchanged                     (** stored modification time equal: skipped *)
| Process (project sid : string).

Definition decide (existing : list (string * Z)) (cutoff : option Z)
  (project_filter : option string) (a : artifact) : action :=
  let project := decode_project_name (projdir a) in
  let filtered_out :=
    match project_filter with
    | Some pf => negb (String.eqb pf "")
                 && negb (PyStr.contains (PyStr.lower project) (PyStr.lower pf))
    | None => false
    end in
  if filtered_out then Filtered
  else if PyStr.startswith (fname a) "CLAUDE" || negb (PyStr.endswith (fname a) ".jsonl")
  then Filtered
  else
    let sid := PyStr.remove_all ".jsonl" (fname a) in
    let modified := st_mtime (art_file a) in
    if match cutoff with Some c => modified <? c | None => false end then Filtered
    else
      match existing_get existing (filepath (art_file a)) with
      | Some stored => if stored =? modified then Unchanged else Process project sid
      | None => Process project sid
      end.

(** The body of the loop after the freshness test: upsert of the session
    row, then replacement of the message rows. *)
Definition store_session (d : db) (session : Session.t) (msgs : list Message.t) : db :=
  let d1 := insert_or_replace_session d session in
  let d2 := delete_messages d1 (Session.id session) in
  insert_messages d2 (Session.id session) msgs.

Definition ingest_one (existing : list (string * Z)) (cutoff : option Z)
  (project_filter : option string) (acc : db * counts) (a : artifact) : db * counts :=
  let (d, c) := acc in
  match decide existing cutoff project_filter a with
  | Filtered => (d, c)
  | Unchanged => (d, mkCounts (ingested c) (skipped c + 1) (updated c))
  | Process project sid =>
      let (session, msgs) := process_session (art_file a) project sid in
      let is_update :=
        match existing_get existing (filepath (art_file a)) with
        | Some _ => true
        | None => false
        end in
      (store_session d session msgs,
       if is_update then mkCounts (ingested c) (skipped c) (updated c + 1)
       else mkCounts (ingested c + 1) (skipped c) (updated c))
  end.

(** [ingest]: [cutoff] is [datetime.now() - timedelta(hours)] when [hours]
    is given and not zero; [artifacts] is what the two [glob] loops
    enumerate, in their order. *)
Definition ingest (d : db) (artifacts : list artifact) (cutoff : option Z)
  (project_filter : option string) (force : bool) : db * counts :=
  fold_left (ingest_one (existing_of d force) cutoff project_filter)
    artifacts (d, mkCounts 0 0 0).

(* ================================================================== *)
(** * The signal extractors ([strategies/extract.py]) *)

Local Open Scope list_scope.

(** ** The queries *)

(** [ORDER BY]: a stable insertion sort; [before y x] holds when [y] has to
    come strictly before [x]. Rows with equal keys keep the order of the
    table (SQLite leaves their order open). *)
Section OrderBy.
Variable A : Type.
Variable before : A -> A -> bool.

Fixpoint insert_sorted (x : A) (l : list A) : list A :=
  match l with
  | [] => [x]
  | y :: l' => if before y x then y :: insert_sorted x l' else x :: y :: l'
  end.

Definition order_by (l : list A) : list A := fold_right insert_sorted [] l.
End OrderBy.

Definition Qltb (x y : Q) : bool := negb (Qle_bool y x).

Definition intent_selected (s : Session.t) : bool :=
  existsb (String.eqb (Session.intent s)) ["execution"; "continuation"; "debug"].

(** The session query shared by the extractors A, B and D. *)
Definition high_struggle_sessions (d : db) (project : string) : list Session.t :=
  firstn 10
    (order_by (fun y x => Qltb (Session.struggle_score x) (Session.struggle_score y))
       (filter (fun s => String.eqb (Session.project s) project
                         && Qltb 5 (Session.struggle_score s)
                         && intent_selected s)
          (sessions d))).

(** The session query of the extractor C. *)
Definition corrected_sessions (d : db) (project : string) : list Session.t :=
  firstn 10
    (order_by (fun y x => Session.correction_count x <? Session.correction_count y)
       (filter (fun s => String.eqb (Session.project s) project
                         && (0 <? Session.correction_count s))
          (sessions d))).

(** [SELECT ... FROM messages WHERE session_id = ? AND ... ORDER BY seq]. *)
Definition select_messages (d : db) (sid : string) (where_ : Message.t -> bool)
  : list Message.t :=
  order_by (fun y x => Message.seq y <? Message.seq x)
    (filter where_ (messages_of d sid)).

Definition seq_preview (m : Message.t) : Z * string :=
  (Message.seq m, Message.content_preview m).

(** ** A: retry chains *)

Definition chain : Type := list (Z * string).

Definition long_enough (min_len : Z) (c : chain) : bool :=
  min_len <=? Z.of_nat (List.length c).

(** The [for i in range(1, len(retries))] loop; [prev] is [retries[i-1]]. *)
Fixpoint chain_loop (min_chain : Z) (prev : Z * string) (current_chain : chain)
  (chains : list chain) (rest : list (Z * string)) : list chain :=
  match rest with
  | [] => if long_enough min_chain current_chain then chains ++ [current_chain] else chains
  | r :: rest' =>
      if fst r - fst prev <=? 5
      then chain_loop min_chain r (current_chain ++ [r])%list chains rest'
      else chain_loop min_chain r [r]
             (if long_enough min_chain current_chain then chains ++ [current_chain] else chains)
             rest'
  end.

(** The chains of one session; [Raise] is the [IndexError] of [retries[0]]
    on an empty list that passed the length test. *)
Definition find_chains (retries : list (Z * string)) (min_chain : Z) : result (list chain) :=
  if Z.of_nat (List.length retries) <? min_chain then Ok []
  else match retries with
       | [] => Raise
       | r0 :: rest => Ok (chain_loop min_chain r0 [r0] [] rest)
       end.

(** The retry query of one session: [(seq, content_preview)] of its
    assistant messages flagged [is_retry], by ascending [seq]. *)
Definition session_retries (d : db) (s : Session.t) : list (Z * string) :=
  map seq_preview
    (select_messages d (Session.id s)
       (fun m => Message.is_retry m && String.eqb (Message.role m) "assistant")).

(** The data of [strategy_a_retry_chains]: one entry per emitted chain,
    each rendered by the source as a text block headed by the session. *)
Fixpoint retry_chain_entries (d : db) (min_chain : Z) (ss : list Session.t)
  : result (list (Session.t * chain)) :=
  match ss with
  | [] => Ok []
  | s :: ss' =>
      match find_chains (session_retries d s) min_chain with
      | Raise => Raise
      | Ok chains =>
          match retry_chain_entries d min_chain ss' with
          | Raise => Raise
          | Ok out => Ok (map (fun c => (s, c)) chains ++ out)
          end
      end
  end.

Definition strategy_a_retry_chains (d : db) (project : string) (min_chain : Z)
  : result (list (Session.t * chain)) :=
  retry_chain_entries d min_chain (high_struggle_sessions d project).

(** ** B: error to resolution pairs *)

(** The inner [for ... break] loop: the first discovery in the window. *)
Fixpoint first_discovery (err_seq : Z) (discoveries : list (Z * string))
  : option (Z * string) :=
  match discoveries with
  | [] => None
  | disc :: rest =>
      if (0 <? fst disc - err_seq) && (fst disc - err_seq <=? 10)
      then Some disc
      else first_discovery err_seq rest
  end.

Definition find_pairs (errors discoveries : list (Z * string))
  : list ((Z * string) * (Z * string)) :=
  flat_map (fun err => match first_discovery (fst err) discoveries with
                       | Some disc => [(err, disc)]
                       | None => []
                       end) errors.

Definition session_pairs (d : db) (s : Session.t) : list ((Z * string) * (Z * string)) :=
  let flagged := select_messages d (Session.id s)
                   (fun m => Message.has_error m || Message.is_discovery m) in
  find_pairs (map seq_preview (filter Message.has_error flagged))
             (map seq_preview (filter Message.is_discovery flagged)).

Definition strategy_b_error_resolution (d : db) (project : string)
  : list (Session.t * list ((Z * string) * (Z * string))) :=
  flat_map (fun s => match session_pairs d s with
                     | [] => []
                     | pairs => [(s, pairs)]
                     end)
    (high_struggle_sessions d project).

(** ** C: corrections with context *)

(** A [LEFT JOIN] on the sequence number: every matching row, or one null. *)
Definition left_join (d : db) (sid : string) (n : Z) : list (option string) :=
  match filter (fun m => Message.seq m =? n) (messages_of d sid) with
  | [] => [None]
  | ms => map (fun m => Some (Message.content_preview m)) ms
  end.

Definition session_corrections (d : db) (s : Session.t)
  : list (Z * string * option string * option string) :=
  flat_map (fun m =>
              flat_map (fun prev =>
                          map (fun next_msg =>
                                 (Message.seq m, Message.content_preview m, prev, next_msg))
                            (left_join d (Session.id s) (Message.seq m + 1)))
                (left_join d (Session.id s) (Message.seq m - 1)))
    (select_messages d (Session.id s) Message.is_correction).

Definition strategy_c_corrections (d : db) (project : string)
  : list (Session.t * list (Z * string * option string * option string)) :=
  flat_map (fun s => match session_corrections d s with
                     | [] => []
                     | corrections => [(s, corrections)]
                     end)
    (corrected_sessions d project).

(** ** D: tool repetition *)

(** [json.loads(tools_json) if tools_json else []]. *)
Definition tools_of (m : Message.t) : list scalar :=
  match Message.tool_names m with
  | Some names => names
  | None => []
  end.

(** The inner [while j < len(messages)] loop, from [j] on: the chain and
    the rows from the position where it stopped. *)
Fixpoint extend_chain (primary_tool : scalar) (current : chain) (rest : list Message.t)
  : chain * list Message.t :=
  match rest with
  | [] => (current, [])
  | m :: rest' =>
      match tools_of m with
      | [] => extend_chain primary_tool current rest'
      | t :: _ =>
          if scalar_eqb t primary_tool
          then extend_chain primary_tool (current ++ [seq_preview m])%list rest'
          else (current, rest)
      end
  end.

(** The outer [while i < len(messages)] loop, from [i] on; every turn
    moves [i] forward, so [fuel] bounds the number of turns. *)
Fixpoint repetition_loop (fuel : nat) (min_repeats : Z) (rows : list Message.t)
  : list (scalar * chain) :=
  match fuel with
  | O => []
  | S fuel' =>
      match rows with
      | [] => []
      | m :: rest =>
          match tools_of m with
          | [] => repetition_loop fuel' min_repeats rest
          | primary_tool :: _ =>
              let (c, rest') := extend_chain primary_tool [seq_preview m] rest in
              (if long_enough min_repeats c then [(primary_tool, c)] else [])
              ++ repetition_loop fuel' min_repeats rest'
          end
      end
  end.

Definition find_repetitions (rows : list Message.t) (min_repeats : Z)
  : list (scalar * chain) :=
  repetition_loop (List.length rows) min_repeats rows.

Definition session_repetitions (d : db) (s : Session.t) (min_repeats : Z)
  : list (scalar * chain) :=
  find_repetitions
    (select_messages d (Session.id s) (fun m => 0 <? Message.tool_call_count m))
    min_repeats.

Definition strategy_d_tool_repetition (d : db) (project : string) (min_repeats : Z)
  : list (Session.t * list (scalar * chain)) :=
  flat_map (fun s => match session_repetitions d s min_repeats with
                     | [] => []
                     | repetitions => [(s, repetitions)]
                     end)
    (high_struggle_sessions d project).

(* ================================================================== *)
(** * Notions of the statements and sample data *)

(** ** Struggle score *)

Definition score_recomputes (s : Session.t) : Prop :=
  Session.struggle_score s
  = compute_struggle_score (Session.intent s) (Session.error_count s)
      (Session.retry_count s) (Session.correction_count s).

Definition example_session (sid project intent : string) (errors retries corrections : Z)
  : Session.t :=
  Session.mk ("claude-code:" ++ sid) "claude-code" project sid None
    0 0 0 0 errors retries corrections 0 ("/projects/" ++ project ++ "/" ++ sid ++ ".jsonl")
    intent "general" (compute_struggle_score intent errors retries corrections).

Definition example_artifact (mtime : Z) (ls : list raw_line) : artifact :=
  mkArtifact "home-user-my-app" "abc.jsonl" (mkFile "/projects/home-user-my-app/abc.jsonl" mtime ls).

(** ** Replacement of the message rows *)

Definition rows_of (d : db) (sid : string) : list message_row :=
  filter (fun r => String.eqb (row_session_id r) sid) (messages d).

(** Ten records, then three, in the same artifact. *)
Definition ten_lines : list raw_line :=
  [ user_line "please implement the login fix";
    assistant_line (JStr "Let me check the form.");
    user_line "ok";
    assistant_line (JStr "It failed, let me try another way.");
    user_line "no, that is the wrong file";
    assistant_line (JStr "The issue is the import.");
    user_line "go on";
    assistant_line (JStr "Resolved.");
    user_line "thanks";
    assistant_line (JStr "Done.") ].

Definition three_lines : list raw_line :=
  [ user_line "please implement the login fix";
    assistant_line (JStr "Working on it.");
    user_line "thanks" ].

Definition store_v1 : db :=
  fst (ingest empty_db [example_artifact 100 ten_lines] None None false).

Definition store_v2 : db :=
  fst (ingest store_v1 [example_artifact 200 three_lines] None None false).

(** ** Invariants of the aggregation loop *)

(** Whether the record is retained: an object whose [type] is "user" or
    "assistant". *)
Definition retained (obj : list (string * json)) : bool :=
  match dict_get obj "type" with
  | Some t => is_str t "user" || is_str t "assistant"
  | None => false
  end.

Definition is_assistant_record (obj : list (string * json)) : bool :=
  match dict_get obj "type" with
  | Some t => is_str t "assistant"
  | None => false
  end.

Definition retained_line (line : raw_line) : bool :=
  match line with
  | Json (JObj obj) => retained obj
  | _ => false
  end.

(** The effect of one record on the state, case by case. *)
Inductive record_effect (st : Agg.t) (obj : list (string * json)) : step_result -> Prop :=
| effect_skip :
    retained obj = false ->
    record_effect st obj (Next st)
| effect_text_raises :
    retained obj = true ->
    get_text_content obj = Raise ->
    record_effect st obj (Caught st)
| effect_update_raises (text : string) (st' : Agg.t) (content : json) :
    retained obj = true ->
    get_text_content obj = Ok text ->
    message_content obj = Ok content ->
    to_scalars (extract_tool_names content) = None ->
    Agg.messages st' = Agg.messages st ->
    Agg.seq st' = Agg.seq st ->
    Agg.message_count st' = Agg.message_count st + 1 ->
    Agg.user_message_count st' + Agg.assistant_message_count st'
    = Agg.user_message_count st + Agg.assistant_message_count st + 1 ->
    record_effect st obj (Caught st')
| effect_append (text : string) (st' : Agg.t) (m : Message.t) :
    retained obj = true ->
    get_text_content obj = Ok text ->
    Agg.messages st' = (Agg.messages st ++ [m])%list ->
    Agg.seq st' = Agg.seq st + 1 ->
    Agg.message_count st' = Agg.message_count st + 1 ->
    Agg.user_message_count st' + Agg.assistant_message_count st'
    = Agg.user_message_count st + Agg.assistant_message_count st + 1 ->
    Message.seq m = Agg.seq st ->
    Message.content_preview m = PyStr.take 300 text ->
    Message.role m = (if is_assistant_record obj then "assistant" else "user") ->
    Message.has_error m = (is_assistant_record obj && check_patterns text ERROR_PATTERNS) ->
    Message.is_retry m = (is_assistant_record obj && check_patterns text RETRY_PATTERNS) ->
    Message.is_discovery m = (is_assistant_record obj && check_patterns text DISCOVERY_PATTERNS) ->
    Message.is_correction m
    = (negb (is_assistant_record obj) && check_patterns text CORRECTION_PATTERNS) ->
    record_effect st obj (Next st').

Definition consecutive (msgs : list Message.t) : Prop :=
  map Message.seq msgs = map Z.of_nat (List.seq 0 (List.length msgs)).

Definition seq_inv (st : Agg.t) : Prop :=
  consecutive (Agg.messages st)
  /\ Agg.seq st = Z.of_nat (List.length (Agg.messages st)).

Definition count_inv (st : Agg.t) : Prop :=
  Agg.message_count st = Z.of_nat (List.length (Agg.messages st)).

Definition count_gap (st : Agg.t) : Prop :=
  Z.of_nat (List.length (Agg.messages st)) <= Agg.message_count st
  <= Z.of_nat (List.length (Agg.messages st)) + 1.

Definition retained_count (ls : list raw_line) : nat :=
  List.length (filter retained_line ls).

(** Whether [set.update] accepts the tool names of the line: no name is a
    JSON array or object. *)
Definition tools_hashable (line : raw_line) : bool :=
  match line with
  | Json (JObj obj) =>
      match message_content obj with
      | Ok content =>
          match to_scalars (extract_tool_names content) with
          | Some _ => true
          | None => false
          end
      | Raise => true
      end
  | _ => true
  end.

(** The preview that a line contributes when it is read without an
    exception: the first 300 characters of the text of a retained record. *)
Definition line_preview (line : raw_line) : list string :=
  match line with
  | Json (JObj obj) =>
      if retained obj
      then match get_text_content obj with
           | Ok text => [PyStr.take 300 text]
           | Raise => []
           end
      else []
  | _ => []
  end.

Definition unhashable_lines : list raw_line :=
  [ user_line "run the tests";
    assistant_line (JArr [JObj [("type", JStr "tool_use"); ("name", JObj [])]]);
    user_line "thanks" ].


(** ** Evidence flags *)

(** Which flags a message of each role can carry. *)
Definition flags_by_role (m : Message.t) : Prop :=
  (Message.role m = "assistant"%string /\ Message.is_correction m = false)
  \/ (Message.role m = "user"%string
      /\ Message.has_error m = false
      /\ Message.is_retry m = false
      /\ Message.is_discovery m = false).

Definition overlap_record : list (string * json) :=
  [("type", JStr "assistant");
   ("message", JObj [("content", JStr "The issue is that the build failed")])].

(** ** Session selection of the extractors *)

Definition score_desc (a b : Session.t) : Prop :=
  (Session.struggle_score b <= Session.struggle_score a)%Q.

Definition corrections_desc (a b : Session.t) : Prop :=
  Session.correction_count b <= Session.correction_count a.

Definition corrected_lines : list raw_line :=
  [ user_line "what is this module about";
    assistant_line (JStr "It parses the session files.");
    user_line "no, that's not what I asked" ].

Definition store_corrected : db :=
  fst (ingest empty_db [example_artifact 100 corrected_lines] None None false).

Definition store_struggle : db :=
  fst (ingest empty_db [example_artifact 100 ten_lines] None None false).

(** ** Intent detection *)

(** The special cases as the specification lists them: the exact warm-up
    phrases, the "# soul" prefix and the slash-command prefixes. *)
Definition literal_prefix_intent (text : string) : option string :=
  if existsb (String.eqb text) ["warmup"; "say hello"; "tui"; "think high"]
  then Some "startup"
  else if PyStr.startswith text "# soul" then Some "startup"
  else if PyStr.startswith text "<command-name>/clear" then Some "continuation"
  else if PyStr.startswith text "<command-message>resume" then Some "execution"
  else if PyStr.startswith text "<command-message>tickets" then Some "review"
  else if PyStr.startswith text "<command-message>plugin" then Some "config"
  else None.

Definition mentions_latest_session (text : string) : bool :=
  PyStr.contains text "read the latest session"
  || PyStr.contains text "read the latest_session".

Definition normalise (first_message : string) : string :=
  PyStr.strip (PyStr.lower first_message).

(** ** A: retry chains *)

(** The grouping in the words of the specification: a retry joins the
    chain of the retry after it when their sequence numbers are at most 5
    apart, and closes a chain otherwise. *)
Fixpoint gap_groups (l : list (Z * string)) : list chain :=
  match l with
  | [] => []
  | x :: l' =>
      match l' with
      | [] => [[x]]
      | y :: _ =>
          match gap_groups l' with
          | g :: gs => if fst y - fst x <=? 5 then (x :: g) :: gs else [x] :: g :: gs
          | [] => [[x]]
          end
      end
  end.



(** The state of the loop against the grouping: the chain being built,
    which ends in [prev], continues into the first group of the rest when
    the gap allows. *)
Definition attach (current : chain) (prev : Z * string) (rest : list (Z * string))
  : list chain :=
  match rest with
  | [] => [current]
  | r :: _ =>
      match gap_groups rest with
      | g :: gs => if fst r - fst prev <=? 5 then (current ++ g) :: gs else current :: g :: gs
      | [] => [current]
      end
  end.

(** ** B: error to resolution pairs *)

(** The discovery lies strictly after the error and at most 10 later. *)
Definition in_window (err disc : Z * string) : Prop :=
  fst err < fst disc <= fst err + 10.

(** [disc] is the first entry of [discoveries] in the window of [err]. *)
Definition first_in_window (err disc : Z * string) (discoveries : list (Z * string)) : Prop :=
  exists pre post,
    discoveries = pre ++ disc :: post
    /\ in_window err disc
    /\ forall x, In x pre -> ~ in_window err x.

Definition session_errors (d : db) (s : Session.t) : list (Z * string) :=
  map seq_preview
    (filter Message.has_error
       (select_messages d (Session.id s)
          (fun m => Message.has_error m || Message.is_discovery m))).

Definition session_discoveries (d : db) (s : Session.t) : list (Z * string) :=
  map seq_preview
    (filter Message.is_discovery
       (select_messages d (Session.id s)
          (fun m => Message.has_error m || Message.is_discovery m))).

Definition flagged_message (n : Z) (text : string) (error discovery : bool) : Message.t :=
  Message.mk n "assistant" text None 0 error false false discovery.

(** An error at 5, discoveries at 8 and 20. *)
Definition store_pairs : db :=
  mkDb [example_session "s1" "my-app" "execution" 3 0 0]
       (map (mkRow "claude-code:s1")
          [flagged_message 5 "build failed" true false;
           flagged_message 8 "resolved" false true;
           flagged_message 20 "working now" false true]).

(** ** D: tool repetition *)














(* ================================================================== *)
(** * Further notions: the aggregation loop in closed form *)

(** The tool names that [process_session] extracts for a record: those of
    the content for an assistant record, none for a user record. *)
Definition record_tool_names (obj : list (string * json)) : list json :=
  if is_assistant_record obj
  then match message_content obj with
       | Ok raw_content => extract_tool_names raw_content
       | Raise => []
       end
  else [].

(** The state after the counters of a retained record are updated. *)
Definition counted_state (st : Agg.t) (obj : list (string * json)) (text : string) : Agg.t :=
  let is_assistant := is_assistant_record obj in
  Agg.mk
    (match Agg.first_message st with
     | None =>
         if negb is_assistant && negb (PyStr.startswith text "<local-command-caveat>")
         then Some (PyStr.take 300 text) else None
     | Some fm => Some fm
     end)
    (Agg.message_count st + 1)
    (Agg.user_message_count st + bool_count (negb is_assistant))
    (Agg.assistant_message_count st + bool_count is_assistant)
    (Agg.tool_call_count st + Z.of_nat (List.length (record_tool_names obj)))
    (Agg.error_count st + bool_count (is_assistant && check_patterns text ERROR_PATTERNS))
    (Agg.retry_count st + bool_count (is_assistant && check_patterns text RETRY_PATTERNS))
    (Agg.correction_count st
     + bool_count (negb is_assistant && check_patterns text CORRECTION_PATTERNS))
    (Agg.messages st)
    (Agg.seq st).

(** The message dict appended for a retained record. *)
Definition record_message (st : Agg.t) (obj : list (string * json)) (text : string)
  (names : list scalar) : Message.t :=
  let is_assistant := is_assistant_record obj in
  Message.mk (Agg.seq st)
    (if is_assistant then "assistant" else "user")
    (PyStr.take 300 text)
    (match names with [] => None | _ => Some names end)
    (Z.of_nat (List.length (record_tool_names obj)))
    (is_assistant && check_patterns text ERROR_PATTERNS)
    (is_assistant && check_patterns text RETRY_PATTERNS)
    (negb is_assistant && check_patterns text CORRECTION_PATTERNS)
    (is_assistant && check_patterns text DISCOVERY_PATTERNS).

(** The state after the message is appended. *)
Definition appended_state (st : Agg.t) (obj : list (string * json)) (text : string)
  (names : list scalar) : Agg.t :=
  let c := counted_state st obj text in
  Agg.mk (Agg.first_message c) (Agg.message_count c) (Agg.user_message_count c)
    (Agg.assistant_message_count c) (Agg.tool_call_count c) (Agg.error_count c)
    (Agg.retry_count c) (Agg.correction_count c)
    (Agg.messages st ++ [record_message st obj text names])
    (Agg.seq st + 1).

Definition count_where (p : Message.t -> bool) (msgs : list Message.t) : Z :=
  Z.of_nat (List.length (filter p msgs)).

Definition is_role (r : string) (m : Message.t) : bool := String.eqb (Message.role m) r.

(** The counters of the session agree with its list of messages. *)
Definition tallies (st : Agg.t) : Prop :=
  Agg.message_count st = Z.of_nat (List.length (Agg.messages st))
  /\ Agg.user_message_count st = count_where (is_role "user") (Agg.messages st)
  /\ Agg.assistant_message_count st = count_where (is_role "assistant") (Agg.messages st)
  /\ Agg.error_count st = count_where Message.has_error (Agg.messages st)
  /\ Agg.retry_count st = count_where Message.is_retry (Agg.messages st)
  /\ Agg.correction_count st = count_where Message.is_correction (Agg.messages st)
  /\ Agg.tool_call_count st
     = fold_right Z.add 0 (map Message.tool_call_count (Agg.messages st)).

(** What holds of every message dict. *)
Definition message_shape (m : Message.t) : Prop :=
  (Message.role m = "user"%string \/ Message.role m = "assistant"%string)
  /\ (String.length (Message.content_preview m) <= 300)%nat
  /\ Message.tool_call_count m = Z.of_nat (List.length (tools_of m))
  /\ (Message.tool_names m = None <-> Message.tool_call_count m = 0)
  /\ (Message.role m = "user"%string -> Message.tool_call_count m = 0).

(** The candidate that a line offers for [first_message]: the text, cut
    to 300 characters, of a user record that does not start with the
    caveat marker. *)
Definition first_message_candidate (line : raw_line) : option string :=
  match line with
  | Json (JObj obj) =>
      if retained obj && negb (is_assistant_record obj)
      then match get_text_content obj with
           | Ok text =>
               if PyStr.startswith text "<local-command-caveat>" then None
               else Some (PyStr.take 300 text)
           | Raise => None
           end
      else None
  | _ => None
  end.

Fixpoint first_some (A B : Type) (f : A -> option B) (l : list A) : option B :=
  match l with
  | [] => None
  | x :: l' =>
      match f x with
      | Some y => Some y
      | None => first_some f l'
      end
  end.

(** Every counter is non-negative and the message count is the sum of the
    two role counts. *)
Definition counters_sound (st : Agg.t) : Prop :=
  Agg.message_count st = Agg.user_message_count st + Agg.assistant_message_count st
  /\ 0 <= Agg.user_message_count st
  /\ 0 <= Agg.assistant_message_count st
  /\ 0 <= Agg.tool_call_count st
  /\ 0 <= Agg.error_count st
  /\ 0 <= Agg.retry_count st
  /\ 0 <= Agg.correction_count st.

Definition first_message_shape (fm : option string) : Prop :=
  match fm with
  | Some text =>
      (String.length text <= 300)%nat
      /\ PyStr.startswith text "<local-command-caveat>" = false
  | None => True
  end.

Definition caveat_lines : list raw_line :=
  [ assistant_line (JStr "Hello.");
    user_line "<local-command-caveat>do not answer</local-command-caveat>";
    user_line "please implement the login fix";
    user_line "thanks" ].

(** The lines that the loop passes over: blank lines, lines that are not
    JSON, and objects whose [type] is neither "user" nor "assistant". *)
Definition skipped_line (line : raw_line) : bool :=
  match line with
  | Blank | BadJson => true
  | Json (JObj obj) => negb (retained obj)
  | _ => false
  end.


(* ================================================================== *)
(** * Further notions: the ingestion driver *)

(** Whether the artifact gets past the project, name and cutoff tests. *)
Definition passes_filters (cutoff : option Z) (project_filter : option string)
  (a : artifact) : bool :=
  match decide [] cutoff project_filter a with
  | Filtered => false
  | _ => true
  end.

Definition is_unchanged (existing : list (string * Z)) (cutoff : option Z)
  (project_filter : option string) (a : artifact) : bool :=
  match decide existing cutoff project_filter a with
  | Unchanged => true
  | _ => false
  end.

(** The session id of the artifact: it depends on the file name alone. *)
Definition artifact_id (a : artifact) : string :=
  "claude-code:" ++ PyStr.remove_all ".jsonl" (fname a).

Definition count_of (A : Type) (p : A -> bool) (l : list A) : Z :=
  Z.of_nat (List.length (filter p l)).

(** The same file name in two project directories. *)
Definition twin_artifact : artifact :=
  mkArtifact "home-user-other-app" "abc.jsonl"
    (mkFile "/projects/home-user-other-app/abc.jsonl" 150 three_lines).

(** What the two tables keep between runs: one session row per id, no
    message row without its session row, and for every session id the
    rows numbered 0, 1, 2, ... in insertion order. *)
Definition store_consistent (d : db) : Prop :=
  NoDup (map Session.id (sessions d))
  /\ (forall r, In r (messages d) -> In (row_session_id r) (map Session.id (sessions d)))
  /\ (forall sid, consecutive (messages_of d sid)).

(** The preview of the message at position [n] of the rows of a session,
    if there is one. *)
Definition preview_at (msgs : list Message.t) (n : Z) : option string :=
  if n <? 0 then None
  else option_map Message.content_preview (nth_error msgs (Z.to_nat n)).

(** Every session row, with the message rows of its id, is what
    [process_session] returned for one file. *)
Definition from_process_session (d : db) : Prop :=
  forall s, In s (sessions d) ->
    exists f project sid,
      process_session f project sid = (s, messages_of d (Session.id s)).

(* ================================================================== *)
(** * Further notions: patterns against lower-cased text *)

(** Whether every match of the expression, taken case-sensitively,
    consumes an upper-case letter of the text. *)
Fixpoint needs_upper (r : Regex.regex) : bool :=
  match r with
  | Regex.Chr c => PyStr.is_upper c
  | Regex.Cls items =>
      forallb (fun i => match i with
                        | Regex.CChar c => PyStr.is_upper c
                        | _ => false
                        end) items
  | Regex.Cat r1 r2 => needs_upper r1 || needs_upper r2
  | Regex.Alt r1 r2 => needs_upper r1 && needs_upper r2
  | _ => false
  end.

Definition no_upper (s : list ascii) : bool :=
  forallb (fun c => negb (PyStr.is_upper c)) s.

Definition upper_only (p : string) : bool :=
  match Regex.compile p with
  | Some r => needs_upper r
  | None => false
  end.

(** The patterns of a table that [check_patterns] can find at all. *)
Definition live_patterns (patterns : list string) : list string :=
  filter (fun p => negb (upper_only p)) patterns.

(* ================================================================== *)
(** * Further notions: the domain of a session *)

(** The occurrences of the patterns of one label in one preview. *)
Definition preview_hits (patterns : list string) (preview : string) : Z :=
  let text := PyStr.lower preview in
  if String.eqb text "" then 0
  else fold_right Z.add 0 (map (fun p => Regex.re_findall_count p text) patterns).

Definition domain_previews : list string :=
  [ "add a button to the sidebar"; "the sql query fails"; "fix the css layout" ].

(* ================================================================== *)
(** * Further notions: the records that raise *)

Definition is_json_str (j : json) : bool :=
  match j with
  | JStr _ => true
  | _ => false
  end.

(** What a Python set accepts: anything but a list or a dict. *)
Definition hashable (j : json) : bool :=
  match j with
  | JArr _ | JObj _ => false
  | _ => true
  end.

(** The lines on which the loop of [process_session] leaves for the
    [except] clause, read off the decoded line alone: a line that cannot be
    read, a JSON value that is not an object, and a user or assistant
    record whose [message] is not an object, or whose content list has a
    text block with a [text] that is not a string, or (assistant only) a
    tool-call block with a list or an object for a name. *)
Definition raises_on (line : raw_line) : bool :=
  match line with
  | ReadError => true
  | Blank | BadJson => false
  | Json (JObj obj) =>
      retained obj &&
      match get_default obj "message" (JObj []) with
      | JObj m =>
          match get_default m "content" (JStr "") with
          | JArr blocks =>
              negb (forallb is_json_str (text_parts blocks))
              || (is_assistant_record obj
                  && negb (forallb hashable (extract_tool_names (JArr blocks))))
          | _ => false
          end
      | _ => true
      end
  | Json _ => true
  end.

Definition odd_lines : list raw_line :=
  [ Blank; BadJson;
    Json (JObj [("type", JStr "summary")]);
    Json (JObj [("type", JStr "user")]);
    Json (JObj [("type", JStr "user");
                ("message",
                 JObj [("content",
                        JArr [JObj [("type", JStr "tool_use"); ("name", JArr [])];
                              JObj [("type", JStr "text")];
                              JNum 3])])]);
    Json (JObj [("type", JStr "assistant"); ("message", JObj [("content", JNum 7)])]) ].

(* ================================================================== *)
(** * Further notions: project names *)

Fixpoint sep_free (sep : ascii) (s : string) : bool :=
  match s with
  | EmptyString => true
  | String c s' => negb (Ascii.eqb c sep) && sep_free sep s'
  end.

(* ================================================================== *)
(** * Further notions: a second run *)

(** The last element of the list that satisfies [p]. *)
Fixpoint last_match (A : Type) (p : A -> bool) (l : list A) : option A :=
  match l with
  | [] => None
  | x :: rest =>
      match last_match p rest with
      | Some r => Some r
      | None => if p x then Some x else None
      end
  end.

(** The session row that the dict [existing] reads for a path: the last
    row of this source stored under the path. *)
Definition last_row (d : db) (path : string) : option Session.t :=
  last_match (fun s => String.eqb (Session.source s) "claude-code"
                       && String.eqb (Session.raw_path s) path)
    (sessions d).

Definition art_path (a : artifact) : string := filepath (art_file a).

(** The row of the artifact is the one [existing] reads for its path. *)
Definition recorded (d : db) (a : artifact) : Prop :=
  exists r, last_row d (art_path a) = Some r
            /\ Session.modified_at r = st_mtime (art_file a)
            /\ Session.id r = artifact_id a.

Definition second_artifact : artifact :=
  mkArtifact "home-user-my-app" "def.jsonl"
    (mkFile "/projects/home-user-my-app/def.jsonl" 120 three_lines).

(* ================================================================== *)
(** * Further notions: the set of tool names and the end of [process_session] *)

(** What [sorted] can compare among the names a set holds: texts with
    texts, numbers (and booleans) with numbers; [None] with nothing. *)
Inductive name_kind : Type :=
| KindNull
| KindNumber
| KindText.

Definition kind_of (x : scalar) : name_kind :=
  match x with
  | SNull => KindNull
  | SBool _ | SNum _ => KindNumber
  | SStr _ => KindText
  end.

Definition kind_eqb (a b : name_kind) : bool :=
  match a, b with
  | KindNull, KindNull | KindNumber, KindNumber | KindText, KindText => true
  | _, _ => false
  end.

(** [set.update(tool_names)] adds the names one by one and stops at the
    first unhashable one. *)
Fixpoint hashable_prefix (names : list json) : list scalar :=
  match names with
  | [] => []
  | j :: rest =>
      match to_scalar j with
      | Some x => x :: hashable_prefix rest
      | None => []
      end
  end.

(** The names that one line adds to [unique_tools]. *)
Definition line_tools (line : raw_line) : list scalar :=
  match line with
  | Json (JObj obj) =>
      if retained obj
      then match get_text_content obj with
           | Ok _ => hashable_prefix (record_tool_names obj)
           | Raise => []
           end
      else []
  | _ => []
  end.

(** The names in [unique_tools] when the loop is left, in the order of
    their insertion (with repetitions, which a set does not keep). *)
Fixpoint unique_tools (st : Agg.t) (ls : list raw_line) : list scalar :=
  match ls with
  | [] => []
  | line :: rest =>
      (line_tools line
       ++ match line_step st line with
          | Next st' => unique_tools st' rest
          | Caught _ => []
          end)%list
  end.

(** Whether [sorted] succeeds on the set: it compares its elements with
    [<], which Python defines between two texts and between two numbers;
    a set of names of one kind sorts (the only set of kind [None] has one
    element), any other raises [TypeError]. *)
Definition sortable (names : list scalar) : bool :=
  match names with
  | [] => true
  | x :: rest => forallb (fun y => kind_eqb (kind_of x) (kind_of y)) rest
  end.

(** [process_session] with its last lines: [sorted(unique_tools)] is
    outside the [try], so its [TypeError] leaves the function. *)
Definition process_session_outcome (f : file) (project session_id : string)
  : result (Session.t * list Message.t) :=
  if sortable (unique_tools Agg.init (lines f))
  then Ok (process_session f project session_id)
  else Raise.

(** ** The timestamps that the driver binds *)

(** [obj.get("timestamp", "")]: copied into the message as it is. *)
Definition record_timestamp (obj : list (string * json)) : json :=
  get_default obj "timestamp" (JStr "").

Definition line_timestamp (line : raw_line) : list json :=
  match line with
  | Json (JObj obj) => if retained obj then [record_timestamp obj] else []
  | _ => []
  end.

(** The field [timestamp] of the messages that the loop appends, one per
    message and in their order. *)
Fixpoint message_timestamps (st : Agg.t) (ls : list raw_line) : list json :=
  match ls with
  | [] => []
  | line :: rest =>
      match line_step st line with
      | Next st' => (line_timestamp line ++ message_timestamps st' rest)%list
      | Caught _ => []
      end
  end.

(** What [sqlite3] binds as a parameter among decoded JSON: [None], a
    boolean, a text, an integer of 64 bits; a list or a dict raises
    [ProgrammingError] and a larger integer [OverflowError]. *)
Definition bindable (j : json) : bool :=
  match j with
  | JNull | JBool _ | JStr _ => true
  | JNum z => (- 2 ^ 63 <=? z) && (z <? 2 ^ 63)
  | JArr _ | JObj _ => false
  end.

(** Whether the loop of [INSERT INTO messages] runs to its end for the
    file: every other parameter is a text or a small integer that
    [process_session] computed. *)
Definition storable (f : file) : bool :=
  forallb bindable (message_timestamps Agg.init (lines f)).










(** ** Further notions of the statements *)

(** No line of the list is one on which reading itself fails. *)
Definition read_error_free (ls : list raw_line) : bool :=
  forallb (fun l => match l with ReadError => false | _ => true end) ls.


(** The fields of a session that come from the content of its file; the
    others describe the file itself (path, size, times) or name the
    session. *)
Definition same_content (s s' : Session.t) : Prop :=
  Session.first_message s = Session.first_message s'
  /\ Session.message_count s = Session.message_count s'
  /\ Session.user_message_count s = Session.user_message_count s'
  /\ Session.assistant_message_count s = Session.assistant_message_count s'
  /\ Session.tool_call_count s = Session.tool_call_count s'
  /\ Session.error_count s = Session.error_count s'
  /\ Session.retry_count s = Session.retry_count s'
  /\ Session.correction_count s = Session.correction_count s'
  /\ Session.intent s = Session.intent s'
  /\ Session.domain s = Session.domain s'
  /\ Session.struggle_score s = Session.struggle_score s'.




(* ================================================================== *)
(** * Checks of the model on concrete inputs *)

Example compile_ex1 :
  Regex.compile "a?\s+(b|c)" =
  Some (Regex.Cat (Regex.Alt (Regex.Chr "a") Regex.Eps)
          (Regex.Cat (Regex.Cat (Regex.Cls [Regex.CSpace]) (Regex.Star (Regex.Cls [Regex.CSpace])))
             (Regex.Alt (Regex.Chr "b") (Regex.Chr "c")))).
Proof. vm_compute. reflexivity. Qed.

Example search_ex1 : Regex.re_search false "\bfix\b" "please fix it" = true.
Proof. vm_compute. reflexivity. Qed.

Example search_ex2 : Regex.re_search false "\bfix\b" "prefix it" = false.
Proof. vm_compute. reflexivity. Qed.

Example search_ex3 : Regex.re_search false "^no[,.\s]" "no, stop" = true.
Proof. vm_compute. reflexivity. Qed.

Example search_ex4 : Regex.re_search false "^no[,.\s]" "oh no, stop" = false.
Proof. vm_compute. reflexivity. Qed.

Example search_ex5 : Regex.re_search true "CLAUDE\.MD" "see claude.md now" = true.
Proof. vm_compute. reflexivity. Qed.

Example search_ex6 : Regex.re_search false "check.*status" "check the status" = true.
Proof. vm_compute. reflexivity. Qed.

Example count_ex1 : Regex.re_findall_count "\bauth\w*\b" "auth and authorize, oauth" = 2.
Proof. vm_compute. reflexivity. Qed.

Example intent_ex1 : detect_intent "warmup" = "startup".
Proof. vm_compute. reflexivity. Qed.

Example intent_ex2 : detect_intent "please implement the login fix" = "execution".
Proof. vm_compute. reflexivity. Qed.

Example intent_ex3 : detect_intent "can you help me understand how the cache works" = "research".
Proof. vm_compute. reflexivity. Qed.

Example intent_ex4 : detect_intent "fix it: read the latest session" = "startup".
Proof. vm_compute. reflexivity. Qed.

Example tables_compile :
  forallb compiles (ERROR_PATTERNS ++ RETRY_PATTERNS ++ CORRECTION_PATTERNS
                    ++ DISCOVERY_PATTERNS ++ flat_map snd INTENT_PATTERNS
                    ++ flat_map snd DOMAIN_PATTERNS) = true.
Proof. vm_compute. reflexivity. Qed.

Example check_ex1 :
  (check_patterns "The issue is that it failed" ERROR_PATTERNS,
   check_patterns "The issue is that it failed" RETRY_PATTERNS,
   check_patterns "The issue is that it failed" DISCOVERY_PATTERNS) = (true, true, true).
Proof. vm_compute. reflexivity. Qed.

Example check_ex2 : check_patterns "I found it" DISCOVERY_PATTERNS = false.
Proof. vm_compute. reflexivity. Qed.

Example repr_ex1 :
  PyRepr.py_str (JObj [("a", JNum (-12)); ("b", JArr [JStr "its"; JNull; JNum (-3)]);
                       ("a", JBool true)])
  = "{'a': True, 'b': ['its', None, -3]}".
Proof. vm_compute. reflexivity. Qed.

Example process_ex1 :
  let r := process_session
             (mkFile "/p/a.jsonl" 7
                [user_line "please implement the login fix";
                 assistant_line (JArr [JObj [("type", JStr "text"); ("text", JStr "Let me try. It failed")];
                                       JObj [("type", JStr "tool_use"); ("name", JStr "Bash")]]);
                 BadJson;
                 user_line "no, that's not it"]) "proj" "a" in
  (Session.intent (fst r), Session.message_count (fst r), Session.error_count (fst r),
   Session.retry_count (fst r), Session.correction_count (fst r),
   Qeq_bool (Session.struggle_score (fst r)) 7, map Message.seq (snd r))
  = ("execution", 3, 1, 1, 1, true, [0; 1; 2]).
Proof. vm_compute. reflexivity. Qed.

Example decode_ex1 : decode_project_name "abc-def-my-app" = "my-app".
Proof. vm_compute. reflexivity. Qed.

Example decode_ex2 : decode_project_name "my-app" = "my-app".
Proof. vm_compute. reflexivity. Qed.

Example sid_ex1 : PyStr.remove_all ".jsonl" "abc.jsonl" = "abc".
Proof. vm_compute. reflexivity. Qed.

Example chains_ex1 :
  find_chains [(2,"a"); (3,"b"); (4,"c"); (10,"d"); (11,"e"); (12,"f"); (13,"g")] 3
  = Ok [[(2,"a"); (3,"b"); (4,"c")]; [(10,"d"); (11,"e"); (12,"f"); (13,"g")]].
Proof. vm_compute. reflexivity. Qed.

Example chains_ex2 : find_chains [] 0 = Raise.
Proof. reflexivity. Qed.

Example pairs_ex1 :
  find_pairs [(5, "e")] [(8, "d1"); (20, "d2")] = [((5, "e"), (8, "d1"))].
Proof. vm_compute. reflexivity. Qed.

(* ================================================================== *)
(** * Lemmas on the store *)

Lemma insert_messages_sessions (msgs : list Message.t) (d : db) (sid : string) :
  sessions (insert_messages d sid msgs) = sessions d.
Proof.
  unfold insert_messages.
  revert d; induction msgs as [|m msgs IH]; intros d; simpl; [reflexivity|].
  rewrite IH; reflexivity.
Qed.

Lemma insert_messages_messages (msgs : list Message.t) (d : db) (sid : string) :
  messages (insert_messages d sid msgs) = messages d ++ map (mkRow sid) msgs.
Proof.
  unfold insert_messages.
  revert d; induction msgs as [|m msgs IH]; intros d; simpl.
  - now rewrite app_nil_r.
  - rewrite IH; simpl. now rewrite <- app_assoc.
Qed.

Lemma store_session_sessions (d : db) (s : Session.t) (msgs : list Message.t) :
  sessions (store_session d s msgs)
  = filter (fun r => negb (String.eqb (Session.id r) (Session.id s))) (sessions d) ++ [s].
Proof.
  unfold store_session. rewrite insert_messages_sessions. reflexivity.
Qed.

Lemma store_session_messages (d : db) (s : Session.t) (msgs : list Message.t) :
  messages (store_session d s msgs)
  = filter (fun r => negb (String.eqb (row_session_id r) (Session.id s))) (messages d)
    ++ map (mkRow (Session.id s)) msgs.
Proof.
  unfold store_session. rewrite insert_messages_messages. reflexivity.
Qed.

Lemma filter_none (A : Type) (p : A -> bool) (l : list A) :
  (forall x, In x l -> p x = false) -> filter p l = [].
Proof.
  induction l as [|x l IH]; intros H; simpl; [reflexivity|].
  rewrite (H x (or_introl eq_refl)). apply IH. intros y Hy. apply H. now right.
Qed.

Lemma filter_all (A : Type) (p : A -> bool) (l : list A) :
  (forall x, In x l -> p x = true) -> filter p l = l.
Proof.
  induction l as [|x l IH]; intros H; simpl; [reflexivity|].
  rewrite (H x (or_introl eq_refl)). f_equal. apply IH. intros y Hy. apply H. now right.
Qed.

Lemma filter_filter (A : Type) (p q : A -> bool) (l : list A) :
  filter p (filter q l) = filter (fun x => q x && p x) l.
Proof.
  induction l as [|x l IH]; simpl; [reflexivity|].
  destruct (q x); simpl; [destruct (p x)|]; now rewrite IH.
Qed.

(** After the replacement the rows of the session are the fresh messages,
    in their order, and nothing else. *)
Lemma messages_of_store_same (d : db) (s : Session.t) (msgs : list Message.t) :
  messages_of (store_session d s msgs) (Session.id s) = msgs.
Proof.
  unfold messages_of. rewrite store_session_messages, filter_app, map_app.
  rewrite filter_filter, filter_none; simpl.
  - rewrite filter_all.
    + rewrite map_map; simpl. apply map_id.
    + intros r Hr. apply in_map_iff in Hr. destruct Hr as [m [<- _]]; simpl.
      apply String.eqb_refl.
  - intros r _. destruct (String.eqb (row_session_id r) (Session.id s)); reflexivity.
Qed.

(** The rows of every other session are untouched. *)
Lemma messages_of_store_other (d : db) (s : Session.t) (msgs : list Message.t) (sid : string) :
  sid <> Session.id s ->
  messages_of (store_session d s msgs) sid = messages_of d sid.
Proof.
  intros Hne. unfold messages_of.
  rewrite store_session_messages, filter_app, map_app.
  rewrite filter_filter.
  rewrite (filter_none (fun r => String.eqb (row_session_id r) sid)
             (map (mkRow (Session.id s)) msgs)).
  - rewrite app_nil_r. f_equal. apply filter_ext. intros r.
    destruct (String.eqb_spec (row_session_id r) sid) as [->|Hn].
    + apply String.eqb_neq in Hne. now rewrite Hne.
    + now rewrite andb_false_r.
  - intros r Hr. apply in_map_iff in Hr. destruct Hr as [m [<- _]]; simpl.
    apply String.eqb_neq. congruence.
Qed.

Lemma ingest_one_process (existing : list (string * Z)) (cutoff : option Z)
  (project_filter : option string) (d : db) (c : counts) (a : artifact)
  (project sid : string) :
  decide existing cutoff project_filter a = Process project sid ->
  fst (ingest_one existing cutoff project_filter (d, c) a)
  = store_session d (fst (process_session (art_file a) project sid))
      (snd (process_session (art_file a) project sid)).
Proof.
  intros H. unfold ingest_one. rewrite H.
  destruct (process_session (art_file a) project sid) as [session msgs].
  reflexivity.
Qed.

Lemma process_session_id (f : file) (project sid : string) :
  Session.id (fst (process_session f project sid)) = ("claude-code:" ++ sid)%string.
Proof. reflexivity. Qed.

Lemma ingest_app (d : db) (arts1 arts2 : list artifact) (cutoff : option Z)
  (project_filter : option string) (force : bool) :
  ingest d (arts1 ++ arts2) cutoff project_filter force
  = fold_left (ingest_one (existing_of d force) cutoff project_filter) arts2
      (ingest d arts1 cutoff project_filter force).
Proof. unfold ingest. apply fold_left_app. Qed.

(* ================================================================== *)
(** * Struggle score *)

Lemma process_session_score (f : file) (project sid : string) :
  score_recomputes (fst (process_session f project sid)).
Proof. reflexivity. Qed.

Lemma ingest_one_score (existing : list (string * Z)) (cutoff : option Z)
  (project_filter : option string) (acc : db * counts) (a : artifact) :
  Forall score_recomputes (sessions (fst acc)) ->
  Forall score_recomputes (sessions (fst (ingest_one existing cutoff project_filter acc a))).
Proof.
  intros H. destruct acc as [d c]. unfold ingest_one.
  destruct (decide existing cutoff project_filter a) as [| |project sid]; try exact H.
  pose proof (process_session_score (art_file a) project sid) as Hs.
  destruct (process_session (art_file a) project sid) as [session msgs]; simpl in *.
  rewrite store_session_sessions. apply Forall_app. split.
  - apply Forall_forall. intros s Hin. apply filter_In in Hin.
    rewrite Forall_forall in H. now apply H.
  - constructor; [exact Hs | constructor].
Qed.

(** C4. The struggle score is the table-driven function of the intent and
    the three counters: execution and continuation give
    errors*2 + retries*2 + corrections*3, startup gives 0, unknown gives
    errors*1 + retries*1 + corrections*2; the score that [process_session]
    returns, and the score of every row that [ingest] leaves in a store
    whose rows had the property, is the table applied to the row's own
    intent and counters. *)
Theorem struggle_score_recomputes :
  (forall errors retries corrections,
      compute_struggle_score "execution" errors retries corrections
      = inject_Z (errors * 2 + retries * 2 + corrections * 3)
      /\ compute_struggle_score "continuation" errors retries corrections
         = inject_Z (errors * 2 + retries * 2 + corrections * 3)
      /\ compute_struggle_score "startup" errors retries corrections = 0%Q
      /\ compute_struggle_score "unknown" errors retries corrections
         = inject_Z (errors * 1 + retries * 1 + corrections * 2))
  /\ (forall f project sid, score_recomputes (fst (process_session f project sid)))
  /\ (forall d artifacts cutoff project_filter force,
        Forall score_recomputes (sessions d) ->
        Forall score_recomputes
          (sessions (fst (ingest d artifacts cutoff project_filter force)))).
Proof.
  split; [|split].
  - intros e r c. repeat split; try reflexivity.
    cbn. f_equal. lia.
  - apply process_session_score.
  - intros d artifacts cutoff pf force H. unfold ingest.
    set (acc := (d, mkCounts 0 0 0)).
    assert (Hacc : Forall score_recomputes (sessions (fst acc))) by exact H.
    clearbody acc. revert acc Hacc.
    induction artifacts as [|a arts IH]; intros acc Hacc; simpl; [exact Hacc|].
    apply IH. now apply ingest_one_score.
Qed.

Lemma struggle_score_recomputes_witness :
  Forall score_recomputes (sessions (mkDb [example_session "s1" "my-app" "planning" 1 3 2] []))
  /\ Forall score_recomputes
       (sessions (fst (ingest (mkDb [example_session "s1" "my-app" "planning" 1 3 2] [])
                         [example_artifact 1 [user_line "warmup"]] None None false))).
Proof.
  assert (H : Forall score_recomputes
                (sessions (mkDb [example_session "s1" "my-app" "planning" 1 3 2] []))).
  { constructor; [vm_compute; reflexivity | constructor]. }
  split; [exact H|].
  apply (proj2 (proj2 struggle_score_recomputes)). exact H.
Defined.

(* ================================================================== *)
(** * Replacement of the message rows *)

Lemma rows_of_length (d : db) (sid : string) :
  List.length (rows_of d sid) = List.length (messages_of d sid).
Proof. unfold messages_of, rows_of. now rewrite length_map. Qed.

Lemma changed_is_not_skipped (existing : list (string * Z)) (cutoff : option Z)
  (project_filter : option string) (a : artifact) (stored : Z) :
  existing_get existing (filepath (art_file a)) = Some stored ->
  stored <> st_mtime (art_file a) ->
  decide existing cutoff project_filter a <> Unchanged.
Proof.
  intros Hget Hne. unfold decide. rewrite Hget.
  apply Z.eqb_neq in Hne. rewrite Hne.
  repeat match goal with
         | |- context [if ?c then _ else _] => destruct c
         end; discriminate.
Qed.

(** C9. When the driver processes an artifact (new, changed, or forced),
    the message rows of its session id in the store are afterwards exactly
    the messages of the fresh classification pass, in their order: every
    earlier row of that id is gone, and the rows of every other session are
    as they were; an artifact whose modification time differs from the
    stored one is never skipped as unchanged. With ten messages stored and
    three in the changed artifact, exactly three rows remain. *)
Theorem reingest_replaces_message_rows :
  (forall existing cutoff project_filter a stored,
      existing_get existing (filepath (art_file a)) = Some stored ->
      stored <> st_mtime (art_file a) ->
      decide existing cutoff project_filter a <> Unchanged)
  /\ (forall d artifacts a cutoff project_filter force project sid,
      decide (existing_of d force) cutoff project_filter a = Process project sid ->
      let before := fst (ingest d artifacts cutoff project_filter force) in
      let after := fst (ingest d (artifacts ++ [a]) cutoff project_filter force) in
      let fresh := snd (process_session (art_file a) project sid) in
      messages_of after ("claude-code:" ++ sid) = fresh
      /\ List.length (rows_of after ("claude-code:" ++ sid)) = List.length fresh
      /\ (forall other, other <> ("claude-code:" ++ sid)%string ->
                        messages_of after other = messages_of before other))
  /\ (List.length (rows_of store_v1 "claude-code:abc") = 10%nat
      /\ decide (existing_of store_v1 false) None None (example_artifact 200 three_lines)
         = Process "my-app" "abc"
      /\ List.length (rows_of store_v2 "claude-code:abc") = 3%nat
      /\ List.length (messages store_v2) = 3%nat
      /\ messages_of store_v2 "claude-code:abc"
         = snd (process_session (art_file (example_artifact 200 three_lines)) "my-app" "abc")).
Proof.
  split; [|split].
  - intros existing cutoff pf a stored. apply changed_is_not_skipped.
  - intros d artifacts a cutoff pf force project sid Hdec before after fresh.
    assert (Hafter : after = store_session before
                               (fst (process_session (art_file a) project sid)) fresh).
    { unfold after, before, fresh. rewrite ingest_app. simpl.
      destruct (ingest d artifacts cutoff pf force) as [d0 c0].
      now apply ingest_one_process. }
    rewrite Hafter. repeat split.
    + rewrite <- (process_session_id (art_file a) project sid).
      apply messages_of_store_same.
    + rewrite rows_of_length.
      rewrite <- (process_session_id (art_file a) project sid).
      now rewrite messages_of_store_same.
    + intros other Hother. apply messages_of_store_other.
      now rewrite process_session_id.
  - vm_compute. repeat split; reflexivity.
Qed.

Lemma reingest_replaces_message_rows_witness :
  (existing_get (existing_of store_v1 false)
     (filepath (art_file (example_artifact 200 three_lines))) = Some 100
   /\ 100 <> st_mtime (art_file (example_artifact 200 three_lines))
   /\ decide (existing_of store_v1 false) None None (example_artifact 200 three_lines)
      <> Unchanged)
  /\ (decide (existing_of store_v1 false) None None (example_artifact 200 three_lines)
      = Process "my-app" "abc"
      /\ messages_of
           (fst (ingest store_v1 ([] ++ [example_artifact 200 three_lines]) None None false))
           "claude-code:abc"
         = snd (process_session (art_file (example_artifact 200 three_lines)) "my-app" "abc")).
Proof.
  assert (H1 : existing_get (existing_of store_v1 false)
                 (filepath (art_file (example_artifact 200 three_lines))) = Some 100)
    by (vm_compute; reflexivity).
  assert (H2 : 100 <> st_mtime (art_file (example_artifact 200 three_lines)))
    by (simpl; lia).
  assert (H : decide (existing_of store_v1 false) None None (example_artifact 200 three_lines)
              = Process "my-app" "abc") by (vm_compute; reflexivity).
  split.
  - split; [exact H1|]. split; [exact H2|].
    exact (proj1 reingest_replaces_message_rows _ None None _ _ H1 H2).
  - split; [exact H|].
    exact (proj1 (proj1 (proj2 reingest_replaces_message_rows)
                    store_v1 [] (example_artifact 200 three_lines) None None false
                    "my-app" "abc" H)).
Defined.

(* ================================================================== *)
(** * Invariants of the aggregation loop *)

Lemma is_str_user_assistant (t : json) :
  is_str t "user" = true -> is_str t "assistant" = false.
Proof.
  destruct t; simpl; try discriminate.
  intros H. apply String.eqb_eq in H. subst. reflexivity.
Qed.

Lemma record_step_effect (st : Agg.t) (obj : list (string * json)) :
  record_effect st obj (record_step st obj).
Proof.
  unfold record_step.
  pose proof (eq_refl (retained obj)) as Hret.
  pose proof (eq_refl (is_assistant_record obj)) as Hasst.
  unfold retained at 2 in Hret. unfold is_assistant_record at 2 in Hasst.
  destruct (dict_get obj "type") as [t|].
  2:{ simpl. now apply effect_skip. }
  destruct (is_str t "user") eqn:Hu.
  - pose proof (is_str_user_assistant t Hu) as Ha. rewrite Ha in *. simpl in Hret.
    cbn [orb negb andb].
    destruct (get_text_content obj) as [text|] eqn:Htext.
    2:{ now apply effect_text_raises. }
    cbn [to_scalars List.length Z.of_nat].
    eapply effect_append with (text := text); cbn; rewrite ?Hasst; try reflexivity; try lia;
      try assumption.
  - destruct (is_str t "assistant") eqn:Ha; simpl in Hret.
    2:{ simpl. now apply effect_skip. }
    cbn [orb negb andb].
    destruct (get_text_content obj) as [text|] eqn:Htext.
    2:{ now apply effect_text_raises. }
    destruct (message_content obj) as [content|] eqn:Hcontent.
    + destruct (to_scalars (extract_tool_names content)) as [names|] eqn:Hnames.
      * eapply effect_append with (text := text); cbn; rewrite ?Hasst; try reflexivity;
          try lia; try assumption.
      * eapply effect_update_raises with (text := text) (content := content); cbn;
          try reflexivity; try lia; try assumption.
    + eapply effect_append with (text := text); cbn; rewrite ?Hasst; try reflexivity;
        try lia; try assumption.
Qed.

Lemma consecutive_snoc (msgs : list Message.t) (m : Message.t) :
  consecutive msgs ->
  Message.seq m = Z.of_nat (List.length msgs) ->
  consecutive (msgs ++ [m]).
Proof.
  unfold consecutive. intros H Hm.
  rewrite map_app, length_app, H. simpl.
  replace (List.length msgs + 1)%nat with (S (List.length msgs)) by lia.
  rewrite seq_S, map_app. simpl. now rewrite Hm.
Qed.

Lemma line_step_inv (st : Agg.t) (line : raw_line) :
  seq_inv st -> count_inv st ->
  match line_step st line with
  | Next st' =>
      seq_inv st' /\ count_inv st'
      /\ List.length (Agg.messages st')
         = (List.length (Agg.messages st) + (if retained_line line then 1 else 0))%nat
  | Caught st' =>
      seq_inv st' /\ count_gap st' /\ Agg.messages st' = Agg.messages st
  end.
Proof.
  intros [Hcons Hseq] Hcount.
  assert (Hgap : count_gap st) by (unfold count_gap; rewrite Hcount; lia).
  unfold count_inv in Hcount. unfold count_gap in Hgap.
  destruct line as [| | |obj]; simpl;
    try (unfold count_inv, count_gap; repeat split; try assumption; lia).
  destruct obj as [| | | | |fields];
    try (unfold count_inv, count_gap; repeat split; try assumption; lia).
  destruct (record_step_effect st fields)
    as [Hr|Hr Ht|text st' content Hr Ht _ _ Hm Hs Hc _|text st' m Hr Ht Hm Hs Hc _ Hms];
    rewrite ?Hr.
  - unfold count_inv; repeat split; try assumption; lia.
  - unfold count_gap; repeat split; try assumption; lia.
  - unfold seq_inv, count_gap. rewrite Hm, Hs, Hc, Hcount.
    repeat split; try assumption; lia.
  - unfold seq_inv, count_inv. rewrite Hm, Hs, Hc, Hcount, Hseq, length_app. simpl.
    repeat split; try lia.
    apply consecutive_snoc; [assumption | congruence].
Qed.

Lemma read_lines_inv (ls : list raw_line) (st : Agg.t) :
  seq_inv st -> count_inv st ->
  match read_lines st ls with
  | Next st' =>
      seq_inv st' /\ count_inv st'
      /\ List.length (Agg.messages st')
         = (List.length (Agg.messages st) + retained_count ls)%nat
  | Caught st' => seq_inv st' /\ count_gap st'
  end.
Proof.
  revert st. induction ls as [|line ls IH]; intros st Hs Hc; simpl.
  - unfold retained_count; simpl. repeat split; try assumption; try apply Hs. lia.
  - pose proof (line_step_inv line Hs Hc) as Hstep.
    destruct (line_step st line) as [st1|st1].
    + destruct Hstep as [Hs1 [Hc1 Hlen]].
      specialize (IH st1 Hs1 Hc1).
      destruct (read_lines st1 ls) as [st2|st2]; [|exact IH].
      destruct IH as [Hs2 [Hc2 Hlen2]]. repeat split; try assumption; try apply Hs2.
      rewrite Hlen2, Hlen. unfold retained_count; simpl.
      destruct (retained_line line); simpl; lia.
    + destruct Hstep as [Hs1 [Hg1 _]]. now split.
Qed.

Lemma init_inv : seq_inv Agg.init /\ count_inv Agg.init.
Proof. repeat split. Qed.

Lemma read_lines_previews (ls : list raw_line) (st st' : Agg.t) :
  read_lines st ls = Next st' ->
  map Message.content_preview (Agg.messages st')
  = map Message.content_preview (Agg.messages st) ++ flat_map line_preview ls.
Proof.
  revert st. induction ls as [|line ls IH]; intros st H; simpl in H.
  - injection H as <-. simpl. now rewrite app_nil_r.
  - destruct (line_step st line) as [st1|st1] eqn:E; [|discriminate].
    rewrite (IH st1 H). simpl flat_map. rewrite app_assoc. f_equal.
    destruct line as [| | |obj]; simpl in E; try discriminate;
      try (injection E as <-; simpl; now rewrite app_nil_r).
    destruct obj as [| | | | |fields]; try discriminate.
    pose proof (record_step_effect st fields) as Heff. rewrite E in Heff. simpl.
    inversion Heff as [Hr Heq| | |text st2 m Hr Ht Hm _ _ _ _ Hprev]; subst.
    + rewrite Hr. now rewrite app_nil_r.
    + rewrite Hr, Ht, Hm, map_app. simpl. now rewrite Hprev.
Qed.


Lemma line_step_hashable (st st' : Agg.t) (line : raw_line) :
  tools_hashable line = true ->
  line_step st line = Caught st' ->
  st' = st.
Proof.
  intros Hh Hstep. destruct line as [| | |obj]; simpl in *; try congruence.
  destruct obj as [| | | | |fields]; try congruence.
  destruct (record_step_effect st fields)
    as [Hr|Hr Ht|text st1 content Hr Ht Hcontent Hnames|text st1 m Hr Ht];
    try congruence.
  rewrite Hcontent, Hnames in Hh. discriminate.
Qed.

Lemma read_lines_count (ls : list raw_line) (st : Agg.t) :
  forallb tools_hashable ls = true ->
  seq_inv st -> count_inv st ->
  count_inv (final_state (read_lines st ls)).
Proof.
  revert st. induction ls as [|line ls IH]; intros st Hh Hs Hc; simpl; [exact Hc|].
  simpl in Hh. apply andb_prop in Hh. destruct Hh as [Hline Hrest].
  pose proof (line_step_inv line Hs Hc) as Hstep.
  destruct (line_step st line) as [st1|st1] eqn:E.
  - destruct Hstep as [Hs1 [Hc1 _]]. now apply IH.
  - simpl. now rewrite (line_step_hashable st line Hline E).
Qed.

(* ================================================================== *)
(** * Sequence numbers *)

(** C10, as the code has it. The sequence numbers of the messages that
    [process_session] returns, and of the rows stored for them, are the
    consecutive integers 0, 1, ..., N-1 in file order, N being the number
    of message records; N equals the session's [message_count] whenever no
    tool-call block of the file carries an unhashable name, and equals the
    number of retained user/assistant records, one message per record in
    file order, when the file is read to its end without an exception. *)
Theorem sequence_numbers_consecutive :
  forall (f : file) (project sid : string),
    let session := fst (process_session f project sid) in
    let msgs := snd (process_session f project sid) in
    map Message.seq msgs = map Z.of_nat (List.seq 0 (List.length msgs))
    /\ (forall d, map Message.seq (messages_of (store_session d session msgs) (Session.id session))
                  = map Z.of_nat (List.seq 0 (List.length msgs)))
    /\ (forallb tools_hashable (lines f) = true ->
        Session.message_count session = Z.of_nat (List.length msgs))
    /\ (forall st, read_lines Agg.init (lines f) = Next st ->
                   Session.message_count session = Z.of_nat (List.length msgs)
                   /\ List.length msgs = retained_count (lines f)
                   /\ map Message.content_preview msgs = flat_map line_preview (lines f)).
Proof.
  intros f project sid session msgs.
  destruct init_inv as [Hs0 Hc0].
  pose proof (read_lines_inv (lines f) Hs0 Hc0) as Hinv.
  assert (Hseq : map Message.seq msgs = map Z.of_nat (List.seq 0 (List.length msgs))).
  { unfold msgs, process_session; simpl.
    destruct (read_lines Agg.init (lines f)) as [st|st]; simpl; apply Hinv. }
  split; [exact Hseq|]. split; [|split].
  - intros d. now rewrite messages_of_store_same.
  - intros Hh. apply (read_lines_count (lines f) Hh Hs0 Hc0).
  - intros st Hst. unfold session, msgs, process_session; simpl.
    rewrite Hst in *. simpl. destruct Hinv as [_ [Hc Hlen]].
    split; [exact Hc|]. split; [exact Hlen|].
    exact (read_lines_previews (lines f) Agg.init Hst).
Qed.

Lemma sequence_numbers_consecutive_witness :
  forallb tools_hashable ten_lines = true
  /\ read_lines Agg.init ten_lines = Next (final_state (read_lines Agg.init ten_lines))
  /\ Session.message_count (fst (process_session (mkFile "/p/abc.jsonl" 1 ten_lines) "p" "abc"))
     = Z.of_nat (List.length (snd (process_session (mkFile "/p/abc.jsonl" 1 ten_lines) "p" "abc")))
  /\ List.length (snd (process_session (mkFile "/p/abc.jsonl" 1 ten_lines) "p" "abc"))
     = retained_count ten_lines.
Proof.
  assert (H1 : forallb tools_hashable ten_lines = true) by (vm_compute; reflexivity).
  assert (H2 : read_lines Agg.init ten_lines
               = Next (final_state (read_lines Agg.init ten_lines)))
    by (vm_compute; reflexivity).
  pose proof (sequence_numbers_consecutive (mkFile "/p/abc.jsonl" 1 ten_lines) "p" "abc") as H.
  destruct H as [_ [_ [Hcount Hnext]]].
  split; [exact H1|]. split; [exact H2|]. split.
  - exact (Hcount H1).
  - exact (proj1 (proj2 (Hnext _ H2))).
Defined.

(** C10 as stated fails: an assistant record whose tool-call block has an
    object for a name is counted and then not appended, so the session says
    two messages and has one, with sequence number 0. *)
Lemma message_count_exceeds_rows :
  let r := process_session (mkFile "/p/abc.jsonl" 1 unhashable_lines) "p" "abc" in
  Session.message_count (fst r) = 2
  /\ map Message.seq (snd r) = [0]
  /\ Session.message_count (fst r) <> Z.of_nat (List.length (snd r)).
Proof. vm_compute. repeat split; try reflexivity. discriminate. Qed.

(* ================================================================== *)
(** * Exceptions while a session file is read *)

Lemma process_session_messages (f : file) (project sid : string) :
  snd (process_session f project sid)
  = Agg.messages (final_state (read_lines Agg.init (lines f))).
Proof. reflexivity. Qed.

(* ================================================================== *)
(** * Evidence flags *)

Lemma record_step_flags (st st' : Agg.t) (obj : list (string * json)) :
  record_step st obj = Next st' ->
  Forall flags_by_role (Agg.messages st) ->
  Forall flags_by_role (Agg.messages st').
Proof.
  intros Hstep Hall.
  pose proof (record_step_effect st obj) as Heff. rewrite Hstep in Heff.
  inversion Heff as [Hr Heq| | |text st1 m Hr Ht Hm _ _ _ _ _ Hrole Herr Hretry Hdisc Hcorr Heq];
    subst; [exact Hall|].
  rewrite Hm. apply Forall_app. split; [exact Hall|].
  constructor; [|constructor].
  unfold flags_by_role. rewrite Hrole, Herr, Hretry, Hdisc, Hcorr.
  destruct (is_assistant_record obj); simpl; [left|right]; repeat split.
Qed.

Lemma line_step_flags (st : Agg.t) (line : raw_line) :
  Forall flags_by_role (Agg.messages st) ->
  Forall flags_by_role (Agg.messages (final_state (line_step st line))).
Proof.
  intros Hall. destruct line as [| | |obj]; simpl; try exact Hall.
  destruct obj as [| | | | |fields]; try exact Hall.
  pose proof (record_step_effect st fields) as Heff.
  destruct (record_step st fields) as [st1|st1] eqn:E; simpl.
  - exact (record_step_flags st fields E Hall).
  - inversion Heff as [|Hr Ht Heq|text st2 content Hr Ht _ _ Hm|]; subst; [exact Hall|].
    now rewrite Hm.
Qed.

Lemma read_lines_flags (ls : list raw_line) (st : Agg.t) :
  Forall flags_by_role (Agg.messages st) ->
  Forall flags_by_role (Agg.messages (final_state (read_lines st ls))).
Proof.
  revert st. induction ls as [|line ls IH]; intros st Hall; simpl; [exact Hall|].
  pose proof (line_step_flags st line Hall) as Hstep.
  destruct (line_step st line) as [st1|st1]; simpl in Hstep.
  - now apply IH.
  - exact Hstep.
Qed.

(** C2, as the code has it. On an assistant message the three flags
    [has_error], [is_retry], [is_discovery] are each the result of their own
    pattern group on the text, computed independently, and one text can set
    all three; [is_correction] is computed only for user messages, which in
    turn carry none of the three. *)
Theorem evidence_flags_are_independent :
  (forall st st' obj,
      retained obj = true ->
      record_step st obj = Next st' ->
      exists text m,
        get_text_content obj = Ok text
        /\ Agg.messages st' = Agg.messages st ++ [m]
        /\ if is_assistant_record obj
           then Message.has_error m = check_patterns text ERROR_PATTERNS
                /\ Message.is_retry m = check_patterns text RETRY_PATTERNS
                /\ Message.is_discovery m = check_patterns text DISCOVERY_PATTERNS
                /\ Message.is_correction m = false
           else Message.has_error m = false
                /\ Message.is_retry m = false
                /\ Message.is_discovery m = false
                /\ Message.is_correction m = check_patterns text CORRECTION_PATTERNS)
  /\ (forall f project sid, Forall flags_by_role (snd (process_session f project sid)))
  /\ (exists text,
        check_patterns text ERROR_PATTERNS = true
        /\ check_patterns text RETRY_PATTERNS = true
        /\ check_patterns text DISCOVERY_PATTERNS = true).
Proof.
  split; [|split].
  - intros st st' obj Hret Hstep.
    pose proof (record_step_effect st obj) as Heff. rewrite Hstep in Heff.
    inversion Heff as [Hr Heq| | |text st1 m Hr Ht Hm _ _ _ _ _ Hrole Herr Hretry Hdisc Hcorr Heq];
      subst; [congruence|].
    exists text, m. split; [exact Ht|]. split; [exact Hm|].
    rewrite Herr, Hretry, Hdisc, Hcorr.
    destruct (is_assistant_record obj); simpl; repeat split.
  - intros f project sid. rewrite process_session_messages.
    apply read_lines_flags. constructor.
  - exists "The issue is that the build failed"%string. vm_compute. repeat split.
Qed.

Lemma evidence_flags_are_independent_witness :
  retained overlap_record = true
  /\ record_step Agg.init overlap_record
     = Next (final_state (record_step Agg.init overlap_record))
  /\ exists text m,
       get_text_content overlap_record = Ok text
       /\ Agg.messages (final_state (record_step Agg.init overlap_record))
          = Agg.messages Agg.init ++ [m]
       /\ if is_assistant_record overlap_record
          then Message.has_error m = check_patterns text ERROR_PATTERNS
               /\ Message.is_retry m = check_patterns text RETRY_PATTERNS
               /\ Message.is_discovery m = check_patterns text DISCOVERY_PATTERNS
               /\ Message.is_correction m = false
          else Message.has_error m = false
               /\ Message.is_retry m = false
               /\ Message.is_discovery m = false
               /\ Message.is_correction m = check_patterns text CORRECTION_PATTERNS.
Proof.
  assert (H1 : retained overlap_record = true) by reflexivity.
  assert (H2 : record_step Agg.init overlap_record
               = Next (final_state (record_step Agg.init overlap_record)))
    by (vm_compute; reflexivity).
  split; [exact H1|]. split; [exact H2|].
  exact (proj1 evidence_flags_are_independent Agg.init _ overlap_record H1 H2).
Defined.

(** C2 as stated fails: this assistant message carries all three flags. *)
Lemma assistant_flags_overlap :
  map (fun m => (Message.role m, Message.has_error m, Message.is_retry m,
                 Message.is_discovery m))
    (snd (process_session
            (mkFile "/p/abc.jsonl" 1
               [assistant_line (JStr "The issue is that the build failed")]) "p" "abc"))
  = [("assistant"%string, true, true, true)].
Proof. vm_compute. reflexivity. Qed.

(* ================================================================== *)
(** * Session selection of the extractors *)

Lemma firstn_In (A : Type) (n : nat) (l : list A) (x : A) :
  In x (firstn n l) -> In x l.
Proof.
  intros H. rewrite <- (firstn_skipn n l). apply in_or_app. now left.
Qed.

Section OrderByFacts.
Variable A : Type.
Variable before : A -> A -> bool.
(** [R a b]: [a] may come before [b]. *)
Variable R : A -> A -> Prop.
Hypothesis R_trans : forall a b c, R a b -> R b c -> R a c.
Hypothesis before_true : forall y x, before y x = true -> R y x.
Hypothesis before_false : forall y x, before y x = false -> R x y.

Lemma insert_sorted_In (x y : A) (l : list A) :
  In y (insert_sorted before x l) <-> y = x \/ In y l.
Proof.
  induction l as [|z l IH]; simpl.
  - intuition.
  - destruct (before z x); simpl; rewrite ?IH; intuition.
Qed.

Lemma order_by_In (y : A) (l : list A) :
  In y (order_by before l) <-> In y l.
Proof.
  induction l as [|x l IH]; simpl; [reflexivity|].
  rewrite insert_sorted_In, IH. intuition.
Qed.

Lemma insert_sorted_sorted (x : A) (l : list A) :
  StronglySorted R l -> StronglySorted R (insert_sorted before x l).
Proof.
  induction 1 as [|z l Hs IH Hall]; simpl.
  - repeat constructor.
  - destruct (before z x) eqn:E.
    + constructor; [exact IH|].
      apply Forall_forall. intros y Hy. apply insert_sorted_In in Hy.
      destruct Hy as [->|Hy]; [now apply before_true|].
      rewrite Forall_forall in Hall. now apply Hall.
    + constructor; [now constructor|].
      constructor; [now apply before_false|].
      apply Forall_forall. intros y Hy. rewrite Forall_forall in Hall.
      apply R_trans with z; [now apply before_false | now apply Hall].
Qed.

Lemma order_by_sorted (l : list A) : StronglySorted R (order_by before l).
Proof.
  induction l as [|x l IH]; simpl; [constructor|].
  now apply insert_sorted_sorted.
Qed.

Lemma firstn_sorted (n : nat) (l : list A) :
  StronglySorted R l -> StronglySorted R (firstn n l).
Proof.
  intros H. revert n. induction H as [|x l Hs IH Hall]; intros [|n]; simpl; try constructor.
  - apply IH.
  - apply Forall_forall. intros y Hy. rewrite Forall_forall in Hall.
    apply Hall. now apply (firstn_In n l).
Qed.
End OrderByFacts.

Lemma Qltb_lt (x y : Q) : Qltb x y = true <-> (x < y)%Q.
Proof.
  unfold Qltb. rewrite negb_true_iff. split; intros H.
  - apply Qnot_le_lt. intros Hle. apply Qle_bool_iff in Hle. congruence.
  - destruct (Qle_bool y x) eqn:E; [|reflexivity].
    apply Qle_bool_iff in E. exfalso. now apply (Qlt_not_le x y).
Qed.

Lemma Qltb_ge (x y : Q) : Qltb x y = false -> (y <= x)%Q.
Proof.
  unfold Qltb. rewrite negb_false_iff. apply Qle_bool_iff.
Qed.

Lemma high_struggle_In (d : db) (project : string) (s : Session.t) :
  In s (high_struggle_sessions d project) ->
  In s (sessions d)
  /\ Session.project s = project
  /\ (5 < Session.struggle_score s)%Q
  /\ In (Session.intent s) ["execution"; "continuation"; "debug"]%string.
Proof.
  unfold high_struggle_sessions. intros H.
  apply firstn_In in H. apply order_by_In in H. apply filter_In in H.
  destruct H as [Hin Hp]. apply andb_prop in Hp. destruct Hp as [Hp Hint].
  apply andb_prop in Hp. destruct Hp as [Hproj Hscore].
  repeat split; try assumption.
  - now apply String.eqb_eq.
  - now apply Qltb_lt.
  - unfold intent_selected in Hint. apply existsb_exists in Hint.
    destruct Hint as [l [Hl Heq]]. apply String.eqb_eq in Heq. now subst.
Qed.

Lemma corrected_In (d : db) (project : string) (s : Session.t) :
  In s (corrected_sessions d project) ->
  In s (sessions d)
  /\ Session.project s = project
  /\ 0 < Session.correction_count s.
Proof.
  unfold corrected_sessions. intros H.
  apply firstn_In in H. apply order_by_In in H. apply filter_In in H.
  destruct H as [Hin Hp]. apply andb_prop in Hp. destruct Hp as [Hproj Hcount].
  repeat split; try assumption.
  - now apply String.eqb_eq.
  - now apply Z.ltb_lt.
Qed.

Lemma high_struggle_sorted (d : db) (project : string) :
  (List.length (high_struggle_sessions d project) <= 10)%nat
  /\ StronglySorted score_desc (high_struggle_sessions d project).
Proof.
  unfold high_struggle_sessions. split; [apply firstn_le_length|].
  apply firstn_sorted. apply order_by_sorted; unfold score_desc.
  - intros a b c Hab Hbc. now apply Qle_trans with (Session.struggle_score b).
  - intros y x H. apply Qltb_lt in H. now apply Qlt_le_weak.
  - intros y x H. now apply Qltb_ge.
Qed.

Lemma corrected_sorted (d : db) (project : string) :
  (List.length (corrected_sessions d project) <= 10)%nat
  /\ StronglySorted corrections_desc (corrected_sessions d project).
Proof.
  unfold corrected_sessions. split; [apply firstn_le_length|].
  apply firstn_sorted. apply order_by_sorted; unfold corrections_desc.
  - intros a b c Hab Hbc. lia.
  - intros y x H. apply Z.ltb_lt in H. lia.
  - intros y x H. apply Z.ltb_ge in H. lia.
Qed.

(** [LIMIT]: a row of the ordered result that is cut off comes after a
    full page of rows that may all come before it. *)
Lemma limit_complete (A : Type) (R : A -> A -> Prop) (n : nat) (rows : list A) (x : A) :
  StronglySorted R rows ->
  In x rows ->
  In x (firstn n rows)
  \/ (List.length (firstn n rows) = n /\ forall t, In t (firstn n rows) -> R t x).
Proof.
  intros Hsorted Hx. rewrite <- (firstn_skipn n rows) in Hx, Hsorted.
  apply in_app_or in Hx. destruct Hx as [Hx|Hx]; [now left|right].
  split.
  - apply firstn_length_le.
    destruct (Nat.le_gt_cases n (List.length rows)) as [Hle|Hgt]; [exact Hle|].
    rewrite skipn_all2 in Hx by lia. contradiction.
  - intros t Ht. revert Hsorted Ht. generalize (firstn n rows) as page.
    induction page as [|y page IH]; intros Hsorted Ht; [contradiction|].
    cbn [app] in Hsorted. inversion Hsorted as [|? ? Hrest Hall]; subst.
    destruct Ht as [<-|Ht].
    + rewrite Forall_forall in Hall. apply Hall. apply in_or_app. now right.
    + now apply IH.
Qed.

(** The query of A, B and D misses no session that qualifies, except
    behind ten sessions whose score is at least as high. *)
Lemma high_struggle_complete (d : db) (project : string) (s : Session.t) :
  In s (sessions d) ->
  Session.project s = project ->
  (5 < Session.struggle_score s)%Q ->
  In (Session.intent s) ["execution"; "continuation"; "debug"]%string ->
  In s (high_struggle_sessions d project)
  \/ (List.length (high_struggle_sessions d project) = 10%nat
      /\ forall t, In t (high_struggle_sessions d project) -> score_desc t s).
Proof.
  intros Hin Hproj Hscore Hintent. unfold high_struggle_sessions.
  apply limit_complete.
  - apply order_by_sorted; unfold score_desc.
    + intros a b c Hab Hbc. now apply Qle_trans with (Session.struggle_score b).
    + intros y x H. apply Qltb_lt in H. now apply Qlt_le_weak.
    + intros y x H. now apply Qltb_ge.
  - apply order_by_In. apply filter_In. split; [exact Hin|].
    apply andb_true_intro. split; [apply andb_true_intro; split|].
    + now apply String.eqb_eq.
    + now apply Qltb_lt.
    + unfold intent_selected. apply existsb_exists. exists (Session.intent s).
      split; [exact Hintent|apply String.eqb_refl].
Qed.

(** The query of C misses no session of the project that has a
    correction, whatever its score and intent, except behind ten sessions
    with at least as many corrections. *)
Lemma corrected_complete (d : db) (project : string) (s : Session.t) :
  In s (sessions d) ->
  Session.project s = project ->
  0 < Session.correction_count s ->
  In s (corrected_sessions d project)
  \/ (List.length (corrected_sessions d project) = 10%nat
      /\ forall t, In t (corrected_sessions d project) -> corrections_desc t s).
Proof.
  intros Hin Hproj Hcount. unfold corrected_sessions.
  apply limit_complete.
  - apply order_by_sorted; unfold corrections_desc.
    + intros a b c Hab Hbc. lia.
    + intros y x H. apply Z.ltb_lt in H. lia.
    + intros y x H. apply Z.ltb_ge in H. lia.
  - apply order_by_In. apply filter_In. split; [exact Hin|].
    apply andb_true_intro. split.
    + now apply String.eqb_eq.
    + now apply Z.ltb_lt.
Qed.

Lemma flat_map_fst_In (A B : Type) (f : A -> list B) (l : list A) (e : A * list B) :
  In e (flat_map (fun s => match f s with
                           | [] => []
                           | found => [(s, found)]
                           end) l) ->
  In (fst e) l /\ snd e = f (fst e) /\ snd e <> [].
Proof.
  intros H. apply in_flat_map in H. destruct H as [s [Hs He]].
  destruct (f s) as [|x xs] eqn:E; simpl in He; [contradiction|].
  destruct He as [<-|[]]. simpl. rewrite E. repeat split; [assumption|discriminate].
Qed.

Lemma retry_chain_entries_In (d : db) (min_chain : Z) (ss : list Session.t)
  (out : list (Session.t * chain)) (e : Session.t * chain) :
  retry_chain_entries d min_chain ss = Ok out -> In e out -> In (fst e) ss.
Proof.
  revert out. induction ss as [|s ss IH]; intros out Hout He; simpl in Hout.
  - injection Hout as <-. contradiction.
  - destruct (find_chains (session_retries d s) min_chain) as [chains|]; [|discriminate].
    destruct (retry_chain_entries d min_chain ss) as [out'|]; [|discriminate].
    injection Hout as <-. apply in_app_or in He. destruct He as [He|He].
    + apply in_map_iff in He. destruct He as [c [<- _]]. now left.
    + right. now apply (IH out').
Qed.

(** C3, as the code has it. The extractors A, B and D take their sessions
    from one query: the sessions of the project whose struggle score
    exceeds 5 and whose intent is execution, continuation or debug, by
    descending score, at most 10. The extractor C takes the sessions of the
    project with a positive correction count, by descending correction
    count, at most 10, whatever their score and intent. Every entry of an
    extractor's output belongs to a session so selected. Neither query has
    another condition: a session that qualifies is selected, unless ten
    selected sessions rank at least as high. *)
Theorem extractor_session_selection :
  (forall d project s,
      In s (high_struggle_sessions d project) ->
      In s (sessions d)
      /\ Session.project s = project
      /\ (5 < Session.struggle_score s)%Q
      /\ In (Session.intent s) ["execution"; "continuation"; "debug"]%string)
  /\ (forall d project,
        (List.length (high_struggle_sessions d project) <= 10)%nat
        /\ StronglySorted score_desc (high_struggle_sessions d project))
  /\ (forall d project s,
        In s (corrected_sessions d project) ->
        In s (sessions d)
        /\ Session.project s = project
        /\ 0 < Session.correction_count s)
  /\ (forall d project,
        (List.length (corrected_sessions d project) <= 10)%nat
        /\ StronglySorted corrections_desc (corrected_sessions d project))
  /\ (forall d project min_chain out e,
        strategy_a_retry_chains d project min_chain = Ok out ->
        In e out -> In (fst e) (high_struggle_sessions d project))
  /\ (forall d project e,
        In e (strategy_b_error_resolution d project) ->
        In (fst e) (high_struggle_sessions d project))
  /\ (forall d project e,
        In e (strategy_c_corrections d project) ->
        In (fst e) (corrected_sessions d project))
  /\ (forall d project min_repeats e,
        In e (strategy_d_tool_repetition d project min_repeats) ->
        In (fst e) (high_struggle_sessions d project))
  /\ (forall d project s,
        In s (sessions d) ->
        Session.project s = project ->
        (5 < Session.struggle_score s)%Q ->
        In (Session.intent s) ["execution"; "continuation"; "debug"]%string ->
        In s (high_struggle_sessions d project)
        \/ (List.length (high_struggle_sessions d project) = 10%nat
            /\ forall t, In t (high_struggle_sessions d project) -> score_desc t s))
  /\ (forall d project s,
        In s (sessions d) ->
        Session.project s = project ->
        0 < Session.correction_count s ->
        In s (corrected_sessions d project)
        \/ (List.length (corrected_sessions d project) = 10%nat
            /\ forall t, In t (corrected_sessions d project) -> corrections_desc t s)).
Proof.
  split; [intros d project s; apply high_struggle_In|].
  split; [intros d project; apply high_struggle_sorted|].
  split; [intros d project s; apply corrected_In|].
  split; [intros d project; apply corrected_sorted|].
  split; [intros d project min_chain out e; apply retry_chain_entries_In|].
  split.
  { intros d project e H. now apply (flat_map_fst_In (session_pairs d)) in H. }
  split.
  { intros d project e H. now apply (flat_map_fst_In (session_corrections d)) in H. }
  split.
  { intros d project min_repeats e H.
    now apply (flat_map_fst_In (fun s => session_repetitions d s min_repeats)) in H. }
  split.
  - intros d project s. apply high_struggle_complete.
  - intros d project s. apply corrected_complete.
Qed.

Lemma extractor_session_selection_witness :
  (exists s, In s (high_struggle_sessions store_struggle "my-app")
             /\ (5 < Session.struggle_score s)%Q
             /\ In (Session.intent s) ["execution"; "continuation"; "debug"]%string)
  /\ (exists s, In s (corrected_sessions store_corrected "my-app")
                /\ 0 < Session.correction_count s)
  /\ (exists e, In e (strategy_c_corrections store_corrected "my-app")
                /\ In (fst e) (corrected_sessions store_corrected "my-app"))
  /\ (exists e, In e (strategy_b_error_resolution store_struggle "my-app")
                /\ In (fst e) (high_struggle_sessions store_struggle "my-app"))
  /\ (let s := fst (process_session (art_file (example_artifact 100 corrected_lines))
                      "my-app" "abc") in
      In s (sessions store_corrected)
      /\ Session.project s = "my-app"%string
      /\ 0 < Session.correction_count s
      /\ (In s (corrected_sessions store_corrected "my-app")
          \/ (List.length (corrected_sessions store_corrected "my-app") = 10%nat
              /\ forall t, In t (corrected_sessions store_corrected "my-app") ->
                           corrections_desc t s)))
  /\ (let s := fst (process_session (art_file (example_artifact 100 ten_lines))
                      "my-app" "abc") in
      In s (sessions store_struggle)
      /\ Session.project s = "my-app"%string
      /\ (5 < Session.struggle_score s)%Q
      /\ In (Session.intent s) ["execution"; "continuation"; "debug"]%string
      /\ (In s (high_struggle_sessions store_struggle "my-app")
          \/ (List.length (high_struggle_sessions store_struggle "my-app") = 10%nat
              /\ forall t, In t (high_struggle_sessions store_struggle "my-app") ->
                           score_desc t s))).
Proof.
  destruct extractor_session_selection
    as [HA [_ [HC [_ [_ [HB [HCout [_ [HAall HCall]]]]]]]]].
  split; [|split; [|split; [|split; [|split]]]].
  5: { cbv zeta.
       assert (H1 : In (fst (process_session (art_file (example_artifact 100 corrected_lines))
                               "my-app" "abc"))
                      (sessions store_corrected)) by (vm_compute; left; reflexivity).
       assert (H2 : Session.project
                      (fst (process_session (art_file (example_artifact 100 corrected_lines))
                              "my-app" "abc")) = "my-app"%string) by reflexivity.
       assert (H3 : 0 < Session.correction_count
                          (fst (process_session
                                  (art_file (example_artifact 100 corrected_lines))
                                  "my-app" "abc"))) by (vm_compute; reflexivity).
       split; [exact H1|]. split; [exact H2|]. split; [exact H3|].
       exact (HCall _ _ _ H1 H2 H3). }
  5: { cbv zeta.
       assert (H1 : In (fst (process_session (art_file (example_artifact 100 ten_lines))
                               "my-app" "abc"))
                      (sessions store_struggle)) by (vm_compute; left; reflexivity).
       assert (H2 : Session.project
                      (fst (process_session (art_file (example_artifact 100 ten_lines))
                              "my-app" "abc")) = "my-app"%string) by reflexivity.
       assert (H3 : (5 < Session.struggle_score
                            (fst (process_session (art_file (example_artifact 100 ten_lines))
                                    "my-app" "abc")))%Q) by (vm_compute; reflexivity).
       assert (H4 : In (Session.intent
                          (fst (process_session (art_file (example_artifact 100 ten_lines))
                                  "my-app" "abc")))
                      ["execution"; "continuation"; "debug"]%string)
         by (vm_compute; left; reflexivity).
       split; [exact H1|]. split; [exact H2|]. split; [exact H3|]. split; [exact H4|].
       exact (HAall _ _ _ H1 H2 H3 H4). }
  - exists (hd (example_session "" "" "" 0 0 0) (high_struggle_sessions store_struggle "my-app")).
    assert (Hin : In (hd (example_session "" "" "" 0 0 0)
                        (high_struggle_sessions store_struggle "my-app"))
                    (high_struggle_sessions store_struggle "my-app"))
      by (vm_compute; left; reflexivity).
    split; [exact Hin|]. destruct (HA _ _ _ Hin) as [_ [_ [Hs Hi]]]. split; [exact Hs|exact Hi].
  - exists (hd (example_session "" "" "" 0 0 0) (corrected_sessions store_corrected "my-app")).
    assert (Hin : In (hd (example_session "" "" "" 0 0 0)
                        (corrected_sessions store_corrected "my-app"))
                    (corrected_sessions store_corrected "my-app"))
      by (vm_compute; left; reflexivity).
    split; [exact Hin|]. destruct (HC _ _ _ Hin) as [_ [_ Hc]]. exact Hc.
  - exists (hd (example_session "" "" "" 0 0 0, [])
              (strategy_c_corrections store_corrected "my-app")).
    assert (Hin : In (hd (example_session "" "" "" 0 0 0, [])
                        (strategy_c_corrections store_corrected "my-app"))
                    (strategy_c_corrections store_corrected "my-app"))
      by (vm_compute; left; reflexivity).
    split; [exact Hin|]. exact (HCout _ _ _ Hin).
  - exists (hd (example_session "" "" "" 0 0 0, [])
              (strategy_b_error_resolution store_struggle "my-app")).
    assert (Hin : In (hd (example_session "" "" "" 0 0 0, [])
                        (strategy_b_error_resolution store_struggle "my-app"))
                    (strategy_b_error_resolution store_struggle "my-app"))
      by (vm_compute; left; reflexivity).
    split; [exact Hin|]. exact (HB _ _ _ Hin).
Defined.

(** C3 as stated fails for the extractor C: it reports a session whose
    struggle score, 3, does not exceed 5, and which the query of A, B and D
    does not select. *)
Lemma corrections_ignore_score :
  map (fun e => (Session.intent (fst e), Session.correction_count (fst e),
                 Qltb 5 (Session.struggle_score (fst e)),
                 Qeq_bool (Session.struggle_score (fst e)) 3))
    (strategy_c_corrections store_corrected "my-app")
  = [("research"%string, 1, false, true)]
  /\ high_struggle_sessions store_corrected "my-app" = [].
Proof. vm_compute. split; reflexivity. Qed.

(* ================================================================== *)
(** * Intent detection *)

(** The score of a label counts the patterns that match at least once. *)
Lemma intent_score_presence (patterns : list string) (text : string) :
  intent_score patterns text
  = Z.of_nat (List.length (filter (fun p => Regex.re_search true p text) patterns)).
Proof.
  unfold intent_score.
  assert (H : forall ps acc,
             fold_left (fun score p => if Regex.re_search true p text then score + 1 else score)
               ps acc
             = acc + Z.of_nat (List.length (filter (fun p => Regex.re_search true p text) ps))).
  { induction ps as [|p ps IH]; intros acc; simpl; [lia|].
    rewrite IH. destruct (Regex.re_search true p text); simpl List.length; lia. }
  rewrite H. lia.
Qed.

(** [max] returns the first entry among those with the highest value. *)
Lemma max_by_value_first (rest pre0 post0 : list (string * Z)) (best : string * Z) :
  (forall x, In x pre0 -> snd x < snd best) ->
  (forall x, In x post0 -> snd x <= snd best) ->
  exists pre e post,
    pre0 ++ best :: post0 ++ rest = pre ++ e :: post
    /\ max_by_value best rest = fst e
    /\ (forall x, In x pre -> snd x < snd e)
    /\ (forall x, In x post -> snd x <= snd e).
Proof.
  revert pre0 post0 best. induction rest as [|r rest IH]; intros pre0 post0 best Hpre Hpost.
  - exists pre0, best, post0. rewrite app_nil_r. repeat split; assumption.
  - simpl. destruct (snd best <? snd r) eqn:E.
    + apply Z.ltb_lt in E.
      destruct (IH (pre0 ++ best :: post0) [] r) as [pre [e [post [Heq H]]]].
      * intros x Hx. apply in_app_or in Hx. destruct Hx as [Hx|[<-|Hx]].
        -- specialize (Hpre x Hx). lia.
        -- exact E.
        -- specialize (Hpost x Hx). lia.
      * intros x [].
      * exists pre, e, post. split; [|exact H].
        rewrite <- Heq. simpl. now rewrite <- app_assoc.
    + apply Z.ltb_ge in E.
      destruct (IH pre0 (post0 ++ [r]) best) as [pre [e [post [Heq H]]]].
      * exact Hpre.
      * intros x Hx. apply in_app_or in Hx. destruct Hx as [Hx|[<-|[]]].
        -- now apply Hpost.
        -- exact E.
      * exists pre, e, post. split; [|exact H].
        rewrite <- Heq. now rewrite <- app_assoc.
Qed.

Lemma filter_split (A : Type) (p : A -> bool) (l l1 l2 : list A) (x : A) :
  filter p l = l1 ++ x :: l2 ->
  exists a b, l = a ++ x :: b /\ filter p a = l1 /\ filter p b = l2 /\ p x = true.
Proof.
  revert l1. induction l as [|y l IH]; intros l1 H; simpl in H.
  - destruct l1; discriminate.
  - destruct (p y) eqn:E.
    + destruct l1 as [|z l1]; simpl in H.
      * injection H as -> Hl. exists [], l. simpl. repeat split; assumption.
      * injection H as -> Hl. destruct (IH l1 Hl) as [a [b [-> [Ha [Hb Hx]]]]].
        exists (z :: a), b. simpl. rewrite E, Ha. repeat split; assumption.
    + destruct (IH l1 H) as [a [b [-> [Ha [Hb Hx]]]]].
      exists (y :: a), b. simpl. rewrite E. repeat split; assumption.
Qed.

Lemma intent_scores_filter (table : list (string * list string)) (text : string) :
  intent_scores table text
  = map (fun e => (fst e, intent_score (snd e) text))
      (filter (fun e => 0 <? intent_score (snd e) text) table).
Proof.
  unfold intent_scores. induction table as [|e table IH]; simpl; [reflexivity|].
  rewrite IH. destruct (0 <? intent_score (snd e) text); reflexivity.
Qed.

(** The label that the scoring returns: "unknown" when no label has a
    positive score; otherwise the label of a table entry with a positive
    score that is strictly above every earlier entry and not below any
    later one. *)
Lemma scored_intent_argmax (table : list (string * list string)) (text : string) :
  ((forall e, In e table -> intent_score (snd e) text <= 0)
   /\ scored_intent table text = "unknown"%string)
  \/ (exists pre label patterns post,
        table = pre ++ (label, patterns) :: post
        /\ scored_intent table text = label
        /\ 0 < intent_score patterns text
        /\ (forall e, In e pre -> intent_score (snd e) text < intent_score patterns text)
        /\ (forall e, In e post -> intent_score (snd e) text <= intent_score patterns text)).
Proof.
  unfold scored_intent. rewrite intent_scores_filter.
  destruct (filter (fun e => 0 <? intent_score (snd e) text) table) as [|e0 kept] eqn:Hf.
  - left. split; [|reflexivity].
    intros e He. destruct (0 <? intent_score (snd e) text) eqn:E.
    + assert (Hin : In e (filter (fun e => 0 <? intent_score (snd e) text) table))
        by (apply filter_In; now split).
      rewrite Hf in Hin. contradiction.
    + now apply Z.ltb_ge.
  - right. simpl map.
    destruct (max_by_value_first
                (map (fun e => (fst e, intent_score (snd e) text)) kept) [] []
                (fst e0, intent_score (snd e0) text))
      as [pre [e [post [Heq [Hmax [Hpre Hpost]]]]]]; try (intros x []).
    simpl in Heq.
    change ((fst e0, intent_score (snd e0) text)
            :: map (fun e => (fst e, intent_score (snd e) text)) kept)
      with (map (fun e => (fst e, intent_score (snd e) text)) (e0 :: kept)) in Heq.
    apply map_eq_app in Heq.
    destruct Heq as [kpre [krest [Hk [Hkpre Hkrest]]]].
    symmetry in Hkrest. destruct krest as [|ke kpost]; [discriminate|].
    simpl in Hkrest. injection Hkrest as He Hkpost.
    rewrite Hk in Hf. apply filter_split in Hf.
    destruct Hf as [a [b [Htable [Ha [Hb Hke]]]]].
    apply Z.ltb_lt in Hke.
    exists a, (fst ke), (snd ke), b. subst e. simpl in *.
    split; [rewrite Htable; now destruct ke|].
    split; [exact Hmax|]. split; [exact Hke|]. split.
    + intros x Hx. destruct (0 <? intent_score (snd x) text) eqn:E.
      * apply (Hpre (fst x, intent_score (snd x) text)).
        rewrite <- Hkpre, <- Ha. apply in_map_iff. exists x. split; [reflexivity|].
        apply filter_In. now split.
      * apply Z.ltb_ge in E. lia.
    + intros x Hx. destruct (0 <? intent_score (snd x) text) eqn:E.
      * apply (Hpost (fst x, intent_score (snd x) text)).
        rewrite Hkpost, <- Hb. apply in_map_iff. exists x. split; [reflexivity|].
        apply filter_In. now split.
      * apply Z.ltb_ge in E. lia.
Qed.

Lemma special_intent_split (text : string) :
  special_intent text
  = match literal_prefix_intent text with
    | Some label => Some label
    | None => if mentions_latest_session text then Some "startup"%string else None
    end.
Proof.
  unfold special_intent, literal_prefix_intent, mentions_latest_session.
  repeat match goal with
         | |- context [if ?c then _ else _] => destruct c; try reflexivity
         end.
Qed.

Lemma prefix_app (p s : string) :
  String.prefix p s = true -> exists rest, s = (p ++ rest)%string.
Proof.
  revert s. induction p as [|c p IH]; intros s H; simpl in H.
  - now exists s.
  - destruct s as [|c' s]; simpl in H; [discriminate|].
    revert H. destruct (ascii_dec c c') as [->|]; intros H; [|discriminate].
    destruct (IH s H) as [rest ->]. now exists rest.
Qed.

Lemma literal_prefix_rules (text : string) :
  (In text ["warmup"; "say hello"; "tui"; "think high"]%string ->
   literal_prefix_intent text = Some "startup"%string)
  /\ (PyStr.startswith text "# soul" = true ->
      literal_prefix_intent text = Some "startup"%string)
  /\ (PyStr.startswith text "<command-name>/clear" = true ->
      literal_prefix_intent text = Some "continuation"%string)
  /\ (PyStr.startswith text "<command-message>resume" = true ->
      literal_prefix_intent text = Some "execution"%string)
  /\ (PyStr.startswith text "<command-message>tickets" = true ->
      literal_prefix_intent text = Some "review"%string)
  /\ (PyStr.startswith text "<command-message>plugin" = true ->
      literal_prefix_intent text = Some "config"%string).
Proof.
  repeat split; intros H.
  - simpl in H. destruct H as [<-|[<-|[<-|[<-|[]]]]]; reflexivity.
  - apply prefix_app in H. destruct H as [[|c rest] ->]; vm_compute; reflexivity.
  - apply prefix_app in H. destruct H as [[|c rest] ->]; vm_compute; reflexivity.
  - apply prefix_app in H. destruct H as [[|c rest] ->]; vm_compute; reflexivity.
  - apply prefix_app in H. destruct H as [[|c rest] ->]; vm_compute; reflexivity.
  - apply prefix_app in H. destruct H as [[|c rest] ->]; vm_compute; reflexivity.
Qed.

Lemma detect_intent_nonempty (first_message : string) :
  first_message <> ""%string ->
  detect_intent first_message
  = match special_intent (normalise first_message) with
    | Some label => label
    | None => scored_intent INTENT_PATTERNS (normalise first_message)
    end.
Proof.
  intros H. unfold detect_intent. apply String.eqb_neq in H. now rewrite H.
Qed.

(** C5, as the code has it. The literal special cases come first and take
    precedence: the warm-up phrases, the "# soul" prefix, the slash-command
    prefixes, and after them the texts that contain "read the latest
    session" (or "read the latest_session"), which are startup sessions.
    Otherwise each label scores one point per pattern that matches at
    least once, the result is the label with the highest score, the first
    in table order among equals, and "unknown" when no label scores above
    zero. "warmup" gives startup, with struggle score 0; the two other
    examples give execution and research. *)
Theorem intent_detection_rules :
  (forall first_message,
      first_message <> ""%string ->
      let text := normalise first_message in
      (In text ["warmup"; "say hello"; "tui"; "think high"]%string ->
       detect_intent first_message = "startup"%string)
      /\ (PyStr.startswith text "# soul" = true ->
          detect_intent first_message = "startup"%string)
      /\ (PyStr.startswith text "<command-name>/clear" = true ->
          detect_intent first_message = "continuation"%string)
      /\ (PyStr.startswith text "<command-message>resume" = true ->
          detect_intent first_message = "execution"%string)
      /\ (PyStr.startswith text "<command-message>tickets" = true ->
          detect_intent first_message = "review"%string)
      /\ (PyStr.startswith text "<command-message>plugin" = true ->
          detect_intent first_message = "config"%string)
      /\ (literal_prefix_intent text = None ->
          mentions_latest_session text = true ->
          detect_intent first_message = "startup"%string)
      /\ (literal_prefix_intent text = None ->
          mentions_latest_session text = false ->
          detect_intent first_message = scored_intent INTENT_PATTERNS text))
  /\ (forall patterns text,
        intent_score patterns text
        = Z.of_nat (List.length (filter (fun p => Regex.re_search true p text) patterns)))
  /\ (forall text,
        ((forall e, In e INTENT_PATTERNS -> intent_score (snd e) text <= 0)
         /\ scored_intent INTENT_PATTERNS text = "unknown"%string)
        \/ (exists pre label patterns post,
              INTENT_PATTERNS = pre ++ (label, patterns) :: post
              /\ scored_intent INTENT_PATTERNS text = label
              /\ 0 < intent_score patterns text
              /\ (forall e, In e pre ->
                            intent_score (snd e) text < intent_score patterns text)
              /\ (forall e, In e post ->
                            intent_score (snd e) text <= intent_score patterns text)))
  /\ detect_intent "" = "unknown"%string
  /\ detect_intent "warmup" = "startup"%string
  /\ (forall errors retries corrections,
        compute_struggle_score (detect_intent "warmup") errors retries corrections = 0%Q)
  /\ detect_intent "please implement the login fix" = "execution"%string
  /\ detect_intent "can you help me understand how the cache works" = "research"%string.
Proof.
  split; [|split; [|split]].
  - intros fm Hne text.
    rewrite (detect_intent_nonempty Hne), special_intent_split. fold text.
    destruct (literal_prefix_rules text) as [H1 [H2 [H3 [H4 [H5 H6]]]]].
    repeat split; intros H.
    + now rewrite (H1 H).
    + now rewrite (H2 H).
    + now rewrite (H3 H).
    + now rewrite (H4 H).
    + now rewrite (H5 H).
    + now rewrite (H6 H).
    + intros Hm. now rewrite H, Hm.
    + intros Hm. now rewrite H, Hm.
  - apply intent_score_presence.
  - apply scored_intent_argmax.
  - repeat split; vm_compute; reflexivity.
Qed.

Lemma intent_detection_rules_witness :
  detect_intent "Warmup " = "startup"%string
  /\ detect_intent "# Soul of the project" = "startup"%string
  /\ detect_intent "<command-name>/clear</command-name>" = "continuation"%string
  /\ detect_intent "<command-message>resume</command-message>" = "execution"%string
  /\ detect_intent "<command-message>tickets</command-message>" = "review"%string
  /\ detect_intent "<command-message>plugin</command-message>" = "config"%string
  /\ detect_intent "fix it: read the latest session" = "startup"%string
  /\ detect_intent "please implement the login fix"
     = scored_intent INTENT_PATTERNS (normalise "please implement the login fix").
Proof.
  pose proof (proj1 intent_detection_rules) as H.
  assert (Hne : forall c s, String c s <> ""%string) by discriminate.
  split; [|split; [|split; [|split; [|split; [|split; [|split]]]]]].
  - apply (proj1 (H "Warmup "%string (Hne _ _))). vm_compute. left. reflexivity.
  - apply (proj1 (proj2 (H "# Soul of the project"%string (Hne _ _)))).
    vm_compute. reflexivity.
  - apply (proj1 (proj2 (proj2 (H "<command-name>/clear</command-name>"%string (Hne _ _))))).
    vm_compute. reflexivity.
  - apply (proj1 (proj2 (proj2 (proj2
             (H "<command-message>resume</command-message>"%string (Hne _ _)))))).
    vm_compute. reflexivity.
  - apply (proj1 (proj2 (proj2 (proj2 (proj2
             (H "<command-message>tickets</command-message>"%string (Hne _ _))))))).
    vm_compute. reflexivity.
  - apply (proj1 (proj2 (proj2 (proj2 (proj2 (proj2
             (H "<command-message>plugin</command-message>"%string (Hne _ _)))))))).
    vm_compute. reflexivity.
  - apply (proj1 (proj2 (proj2 (proj2 (proj2 (proj2 (proj2
             (H "fix it: read the latest session"%string (Hne _ _))))))))).
    + vm_compute. reflexivity.
    + vm_compute. reflexivity.
  - apply (proj2 (proj2 (proj2 (proj2 (proj2 (proj2 (proj2
             (H "please implement the login fix"%string (Hne _ _))))))))).
    + vm_compute. reflexivity.
    + vm_compute. reflexivity.
Defined.

(** C5 as stated fails: none of the listed special cases applies to this
    message and the scoring gives execution, yet the intent is startup. *)
Lemma latest_session_overrides_scoring :
  literal_prefix_intent (normalise "fix it: read the latest session") = None
  /\ scored_intent INTENT_PATTERNS (normalise "fix it: read the latest session")
     = "execution"%string
  /\ detect_intent "fix it: read the latest session" = "startup"%string.
Proof. vm_compute. repeat split; reflexivity. Qed.

(* ================================================================== *)
(** * A: retry chains *)

Lemma gap_groups_unfold (x y : Z * string) (l : list (Z * string)) :
  gap_groups (x :: y :: l)
  = match gap_groups (y :: l) with
    | g :: gs => if fst y - fst x <=? 5 then (x :: g) :: gs else [x] :: g :: gs
    | [] => [[x]]
    end.
Proof. reflexivity. Qed.

Lemma gap_groups_nonempty (l : list (Z * string)) (x : Z * string) :
  exists g gs, gap_groups (x :: l) = (x :: g) :: gs.
Proof.
  revert x. induction l as [|y l IH]; intros x.
  - now exists [], [].
  - rewrite gap_groups_unfold. destruct (IH y) as [g [gs ->]].
    destruct (fst y - fst x <=? 5).
    + now exists (y :: g), gs.
    + now exists [], ((y :: g) :: gs).
Qed.

Lemma gap_groups_cons (x y : Z * string) (l : list (Z * string)) :
  exists g gs,
    gap_groups (y :: l) = (y :: g) :: gs
    /\ gap_groups (x :: y :: l)
       = if fst y - fst x <=? 5 then (x :: y :: g) :: gs else [x] :: (y :: g) :: gs.
Proof.
  destruct (gap_groups_nonempty l y) as [g [gs H]].
  exists g, gs. split; [exact H|].
  now rewrite gap_groups_unfold, H.
Qed.

Lemma gap_groups_concat (l : list (Z * string)) : List.concat (gap_groups l) = l.
Proof.
  induction l as [|x l IH]; [reflexivity|].
  destruct l as [|y l]; [reflexivity|].
  destruct (gap_groups_cons x y l) as [g [gs [Hy Hx]]].
  rewrite Hx. rewrite Hy in IH. simpl in IH.
  destruct (fst y - fst x <=? 5); simpl; now rewrite IH.
Qed.



Lemma group_length_le (l : list (Z * string)) (g : chain) :
  In g (gap_groups l) -> (List.length g <= List.length l)%nat.
Proof.
  intros H.
  assert (Hc : (List.length g <= List.length (List.concat (gap_groups l)))%nat).
  { induction (gap_groups l) as [|g0 gs IH]; [contradiction|].
    simpl. rewrite length_app. destruct H as [->|H]; [lia|].
    specialize (IH H). lia. }
  now rewrite gap_groups_concat in Hc.
Qed.

Lemma attach_start (r : Z * string) (rest : list (Z * string)) :
  attach [r] r rest = gap_groups (r :: rest).
Proof.
  destruct rest as [|y rest]; [reflexivity|].
  destruct (gap_groups_cons r y rest) as [g [gs [Hy Hx]]].
  unfold attach. rewrite Hx, Hy. reflexivity.
Qed.

Lemma attach_step (current : chain) (r : Z * string) (rest : list (Z * string)) :
  exists g gs,
    gap_groups (r :: rest) = g :: gs
    /\ attach (current ++ [r]) r rest = (current ++ g) :: gs.
Proof.
  destruct rest as [|y rest].
  - exists [r], []. split; reflexivity.
  - destruct (gap_groups_cons r y rest) as [g [gs [Hy Hx]]].
    unfold attach. rewrite Hx, Hy.
    destruct (fst y - fst r <=? 5).
    + exists (r :: y :: g), gs. split; [reflexivity|]. now rewrite <- app_assoc.
    + exists [r], ((y :: g) :: gs). split; reflexivity.
Qed.

Lemma chain_loop_groups (min_chain : Z) (rest : list (Z * string)) (prev : Z * string)
  (current : chain) (chains : list chain) :
  chain_loop min_chain prev current chains rest
  = chains ++ filter (long_enough min_chain) (attach current prev rest).
Proof.
  revert prev current chains. induction rest as [|r rest IH]; intros prev current chains.
  - simpl. destruct (long_enough min_chain current); [reflexivity|now rewrite app_nil_r].
  - simpl chain_loop. destruct (fst r - fst prev <=? 5) eqn:E.
    + rewrite IH. destruct (attach_step current r rest) as [g [gs [Hg Ha]]].
      rewrite Ha. unfold attach. rewrite Hg, E. reflexivity.
    + rewrite IH, attach_start.
      destruct (gap_groups_nonempty rest r) as [g [gs Hg]].
      unfold attach. rewrite Hg, E. set (G := (r :: g) :: gs). simpl.
      destruct (long_enough min_chain current); [now rewrite <- app_assoc|reflexivity].
Qed.

Lemma find_chains_groups (retries : list (Z * string)) (min_chain : Z) :
  1 <= min_chain ->
  find_chains retries min_chain
  = Ok (filter (long_enough min_chain) (gap_groups retries)).
Proof.
  intros Hmin. unfold find_chains.
  destruct (Z.of_nat (List.length retries) <? min_chain) eqn:E.
  - f_equal. symmetry. apply filter_none. intros g Hg.
    apply group_length_le in Hg. apply Z.ltb_lt in E.
    unfold long_enough. apply Z.leb_gt. lia.
  - destruct retries as [|r0 rest].
    + apply Z.ltb_ge in E. simpl in E. lia.
    + rewrite chain_loop_groups, attach_start. reflexivity.
Qed.

Lemma retry_chain_entries_groups (d : db) (min_chain : Z) (ss : list Session.t) :
  1 <= min_chain ->
  retry_chain_entries d min_chain ss
  = Ok (flat_map (fun s => map (fun c => (s, c))
                             (filter (long_enough min_chain)
                                (gap_groups (session_retries d s)))) ss).
Proof.
  intros Hmin. induction ss as [|s ss IH]; [reflexivity|].
  simpl. now rewrite (find_chains_groups _ Hmin), IH.
Qed.

Lemma select_messages_ascending (d : db) (sid : string) (where_ : Message.t -> bool) :
  StronglySorted (fun a b => Message.seq a <= Message.seq b)
    (select_messages d sid where_).
Proof.
  unfold select_messages. apply order_by_sorted.
  - intros a b c Hab Hbc. lia.
  - intros y x H. apply Z.ltb_lt in H. lia.
  - intros y x H. apply Z.ltb_ge in H. lia.
Qed.

Lemma sorted_map (A B : Type) (f : A -> B) (R : B -> B -> Prop) (l : list A) :
  StronglySorted (fun a b => R (f a) (f b)) l -> StronglySorted R (map f l).
Proof.
  induction 1 as [|x l Hs IH Hall]; simpl; constructor; [exact IH|].
  apply Forall_forall. intros y Hy. apply in_map_iff in Hy. destruct Hy as [z [<- Hz]].
  rewrite Forall_forall in Hall. now apply Hall.
Qed.

(* ================================================================== *)
(** * B: error to resolution pairs *)

Lemma window_test (err_seq : Z) (err_text : string) (disc : Z * string) :
  (0 <? fst disc - err_seq) && (fst disc - err_seq <=? 10) = true
  <-> in_window (err_seq, err_text) disc.
Proof.
  unfold in_window. simpl. rewrite andb_true_iff, Z.ltb_lt, Z.leb_le. lia.
Qed.

Lemma first_discovery_first (err : Z * string) (discoveries : list (Z * string))
  (disc : Z * string) :
  first_discovery (fst err) discoveries = Some disc
  <-> first_in_window err disc discoveries.
Proof.
  destruct err as [err_seq err_text]. simpl fst.
  induction discoveries as [|d ds IH]; simpl.
  - split; [discriminate|]. intros [pre [post [H _]]]. destruct pre; discriminate.
  - destruct ((0 <? fst d - err_seq) && (fst d - err_seq <=? 10)) eqn:E.
    + apply (window_test err_seq err_text) in E. split.
      * intros [= <-]. exists [], ds. split; [reflexivity|]. split; [exact E|intros x []].
      * intros [pre [post [Heq [Hw Hpre]]]]. destruct pre as [|p pre].
        -- simpl in Heq. now injection Heq as ->.
        -- simpl in Heq. injection Heq as <- _. exfalso.
           apply (Hpre d); [now left|exact E].
    + assert (Hn : ~ in_window (err_seq, err_text) d).
      { intros Hw. apply (window_test err_seq err_text) in Hw. congruence. }
      rewrite IH. split.
      * intros [pre [post [-> [Hw Hpre]]]]. exists (d :: pre), post.
        split; [reflexivity|]. split; [exact Hw|].
        intros x [<-|Hx]; [exact Hn|now apply Hpre].
      * intros [pre [post [Heq [Hw Hpre]]]]. destruct pre as [|p pre].
        -- simpl in Heq. injection Heq as <- _. contradiction.
        -- simpl in Heq. injection Heq as <- ->. exists pre, post.
           split; [reflexivity|]. split; [exact Hw|].
           intros x Hx. apply Hpre. now right.
Qed.

Lemma find_pairs_In (errors discoveries : list (Z * string)) (err disc : Z * string) :
  In (err, disc) (find_pairs errors discoveries)
  <-> In err errors /\ first_in_window err disc discoveries.
Proof.
  unfold find_pairs. rewrite in_flat_map. split.
  - intros [e [He Hin]].
    destruct (first_discovery (fst e) discoveries) as [d0|] eqn:E; [|contradiction].
    destruct Hin as [[= <- <-]|[]]. split; [exact He|].
    now apply first_discovery_first.
  - intros [He Hfirst]. exists err. split; [exact He|].
    apply first_discovery_first in Hfirst. rewrite Hfirst. now left.
Qed.

Lemma find_pairs_length (errors discoveries : list (Z * string)) :
  (List.length (find_pairs errors discoveries) <= List.length errors)%nat.
Proof.
  unfold find_pairs. induction errors as [|e es IH]; simpl; [lia|].
  rewrite length_app. destruct (first_discovery (fst e) discoveries); simpl; lia.
Qed.

Lemma sorted_app_inv (A : Type) (R : A -> A -> Prop) (l1 l2 : list A) (x y : A) :
  StronglySorted R (l1 ++ x :: l2) -> In y l2 -> R x y.
Proof.
  induction l1 as [|z l1 IH]; simpl; intros H Hy.
  - inversion H as [|? ? _ Hall]; subst. rewrite Forall_forall in Hall. now apply Hall.
  - inversion H; subst. now apply IH.
Qed.

Lemma sorted_filter (A : Type) (R : A -> A -> Prop) (p : A -> bool) (l : list A) :
  StronglySorted R l -> StronglySorted R (filter p l).
Proof.
  induction 1 as [|x l Hs IH Hall]; simpl; [constructor|].
  destruct (p x); [|exact IH]. constructor; [exact IH|].
  apply Forall_forall. intros y Hy. apply filter_In in Hy.
  rewrite Forall_forall in Hall. now apply Hall.
Qed.

(** C7. Every error is paired with the first discovery, in ascending
    sequence order, that lies strictly after it and at most 10 later, and
    with no other; a discovery stays available to later errors. An error
    at 5 with discoveries at 8 and 20 gives the one pair (5, 8); errors at
    3 and 5 both pair with the discovery at 8. *)
Theorem error_pairs_first_discovery :
  (forall errors discoveries err disc,
      In (err, disc) (find_pairs errors discoveries)
      <-> In err errors /\ first_in_window err disc discoveries)
  /\ (forall errors discoveries,
        (List.length (find_pairs errors discoveries) <= List.length errors)%nat)
  /\ (forall errors discoveries err disc other,
        StronglySorted (fun a b => fst a <= fst b) discoveries ->
        In (err, disc) (find_pairs errors discoveries) ->
        In other discoveries -> in_window err other ->
        fst disc <= fst other)
  /\ (forall d s,
        session_pairs d s = find_pairs (session_errors d s) (session_discoveries d s)
        /\ StronglySorted (fun a b => fst a <= fst b) (session_errors d s)
        /\ StronglySorted (fun a b => fst a <= fst b) (session_discoveries d s))
  /\ find_pairs [(5, "e")]%string [(8, "d1"); (20, "d2")]%string
     = [((5, "e"), (8, "d1"))]%string
  /\ map (fun e => map (fun p => (fst (fst p), fst (snd p))) (snd e))
       (strategy_b_error_resolution store_pairs "my-app")
     = [[(5, 8)]]
  /\ find_pairs [(3, "e1"); (5, "e2")]%string [(8, "d")]%string
     = [((3, "e1"), (8, "d")); ((5, "e2"), (8, "d"))]%string.
Proof.
  split; [|split; [|split; [|split]]].
  - apply find_pairs_In.
  - apply find_pairs_length.
  - intros errors discoveries err disc other Hsorted Hin Hother Hw.
    apply find_pairs_In in Hin. destruct Hin as [_ [pre [post [Heq [Hwd Hpre]]]]].
    subst discoveries. apply in_app_or in Hother. destruct Hother as [Ho|[<-|Ho]].
    + exfalso. now apply (Hpre other).
    + lia.
    + exact (@sorted_app_inv _ (fun a b => fst a <= fst b) pre post disc other Hsorted Ho).
  - intros d s. split; [reflexivity|].
    split; apply sorted_map; apply sorted_filter; apply select_messages_ascending.
  - vm_compute. repeat split; reflexivity.
Qed.

Lemma error_pairs_first_discovery_witness :
  StronglySorted (fun a b => fst a <= fst b) [(8, "d1"); (9, "d2"); (20, "d3")]%string
  /\ In ((5, "e"), (8, "d1"))%string
       (find_pairs [(5, "e")]%string [(8, "d1"); (9, "d2"); (20, "d3")]%string)
  /\ in_window (5, "e")%string (9, "d2")%string
  /\ fst (8, "d1"%string) <= fst (9, "d2"%string).
Proof.
  assert (H1 : StronglySorted (fun a b => fst a <= fst b)
                 [(8, "d1"); (9, "d2"); (20, "d3")]%string).
  { repeat constructor; simpl; lia. }
  assert (H2 : In ((5, "e"), (8, "d1"))%string
                 (find_pairs [(5, "e")]%string [(8, "d1"); (9, "d2"); (20, "d3")]%string))
    by (simpl; left; reflexivity).
  assert (H3 : In (9, "d2")%string [(8, "d1"); (9, "d2"); (20, "d3")]%string)
    by (simpl; right; left; reflexivity).
  assert (H4 : in_window (5, "e")%string (9, "d2")%string) by (unfold in_window; simpl; lia).
  split; [exact H1|]. split; [exact H2|]. split; [exact H4|].
  exact (proj1 (proj2 (proj2 error_pairs_first_discovery)) _ _ _ _ _ H1 H2 H3 H4).
Defined.

(* ================================================================== *)
(** * D: tool repetition *)













(* ================================================================== *)
(** * The aggregation loop in closed form *)

Lemma retained_user_or_assistant (obj : list (string * json)) :
  retained obj = true ->
  is_assistant_record obj = false ->
  match dict_get obj "type" with Some t => is_str t "user" | None => false end = true.
Proof.
  unfold retained, is_assistant_record.
  destruct (dict_get obj "type") as [t|]; [|discriminate].
  intros H Ha. rewrite Ha in H. now rewrite orb_false_r in H.
Qed.

(** One retained record whose text is read: the counters are updated, then
    either [set.update] raises on the tool names or the message is
    appended. *)
Lemma record_step_closed (st : Agg.t) (obj : list (string * json)) (text : string) :
  retained obj = true ->
  get_text_content obj = Ok text ->
  record_step st obj
  = match to_scalars (record_tool_names obj) with
    | None => Caught (counted_state st obj text)
    | Some names => Next (appended_state st obj text names)
    end.
Proof.
  intros Hret Htext. unfold record_step, appended_state, counted_state, record_message.
  unfold record_tool_names.
  pose proof (eq_refl (is_assistant_record obj)) as Hasst.
  unfold is_assistant_record at 2 in Hasst.
  pose proof Hret as Hret'. unfold retained in Hret'.
  destruct (dict_get obj "type") as [t|]; [|discriminate].
  destruct (is_str t "user") eqn:Hu.
  - pose proof (is_str_user_assistant t Hu) as Ha. rewrite Ha in *.
    rewrite Hasst. cbn [orb negb andb]. rewrite Htext.
    cbn [to_scalars List.length Z.of_nat bool_count]. rewrite !Z.add_0_r. reflexivity.
  - simpl in Hret'. rewrite Hret' in *. rewrite Hasst.
    cbn [orb negb andb]. rewrite Htext.
    destruct (message_content obj) as [content|];
      [destruct (to_scalars (extract_tool_names content)) as [names|]|];
      cbn [to_scalars List.length Z.of_nat bool_count]; rewrite ?Z.add_0_r; reflexivity.
Qed.

Lemma record_step_skip (st : Agg.t) (obj : list (string * json)) :
  retained obj = false -> record_step st obj = Next st.
Proof.
  intros H. pose proof (record_step_effect st obj) as Heff.
  inversion Heff as [Hr Heq|Hr|text st' c Hr|text st' m Hr]; try congruence.
Qed.

Lemma record_step_text_raises (st : Agg.t) (obj : list (string * json)) :
  retained obj = true -> get_text_content obj = Raise -> record_step st obj = Caught st.
Proof.
  intros H Ht. pose proof (record_step_effect st obj) as Heff.
  inversion Heff as [Hr Heq|Hr Hx Heq|text st' c Hr Hx|text st' m Hr Hx]; congruence.
Qed.

Section LoopInvariant.
Variable P : Agg.t -> Prop.
Hypothesis P_counted :
  forall st obj text,
    retained obj = true -> get_text_content obj = Ok text ->
    P st -> P (counted_state st obj text).
Hypothesis P_appended :
  forall st obj text names,
    retained obj = true -> get_text_content obj = Ok text ->
    to_scalars (record_tool_names obj) = Some names ->
    P st -> P (appended_state st obj text names).

Lemma line_step_preserves (st : Agg.t) (line : raw_line) :
  P st -> P (final_state (line_step st line)).
Proof.
  intros H. destruct line as [| | |obj]; simpl; try exact H.
  destruct obj as [| | | | |fields]; try exact H.
  destruct (retained fields) eqn:Hret.
  - destruct (get_text_content fields) as [text|] eqn:Ht.
    + rewrite (record_step_closed st fields Hret Ht).
      destruct (to_scalars (record_tool_names fields)) as [names|] eqn:Hn; simpl.
      * now apply P_appended.
      * now apply P_counted.
    + now rewrite (record_step_text_raises st fields Hret Ht).
  - now rewrite (record_step_skip st fields Hret).
Qed.

Lemma read_lines_preserves (ls : list raw_line) (st : Agg.t) :
  P st -> P (final_state (read_lines st ls)).
Proof.
  revert st. induction ls as [|line ls IH]; intros st H; simpl; [exact H|].
  pose proof (@line_step_preserves st line H) as Hstep.
  destruct (line_step st line) as [st1|st1]; simpl in Hstep; [now apply IH|exact Hstep].
Qed.
End LoopInvariant.

Section CompletedInvariant.
Variable Q : Agg.t -> Prop.
Hypothesis Q_appended :
  forall st obj text names,
    retained obj = true -> get_text_content obj = Ok text ->
    to_scalars (record_tool_names obj) = Some names ->
    Q st -> Q (appended_state st obj text names).

Lemma line_step_next_preserves (st st' : Agg.t) (line : raw_line) :
  line_step st line = Next st' -> Q st -> Q st'.
Proof.
  intros Hstep H. destruct line as [| | |obj]; simpl in Hstep; try congruence.
  destruct obj as [| | | | |fields]; try congruence.
  destruct (retained fields) eqn:Hret.
  - destruct (get_text_content fields) as [text|] eqn:Ht.
    + rewrite (record_step_closed st fields Hret Ht) in Hstep.
      destruct (to_scalars (record_tool_names fields)) as [names|] eqn:Hn; [|discriminate].
      injection Hstep as <-. now apply Q_appended.
    + rewrite (record_step_text_raises st fields Hret Ht) in Hstep. discriminate.
  - rewrite (record_step_skip st fields Hret) in Hstep. congruence.
Qed.

Lemma read_lines_hashable_preserves (ls : list raw_line) (st : Agg.t) :
  forallb tools_hashable ls = true ->
  Q st -> Q (final_state (read_lines st ls)).
Proof.
  revert st. induction ls as [|line ls IH]; intros st Hh H; simpl; [exact H|].
  simpl in Hh. apply andb_prop in Hh. destruct Hh as [Hline Hrest].
  destruct (line_step st line) as [st1|st1] eqn:E.
  - apply IH; [exact Hrest|]. exact (@line_step_next_preserves st st1 line E H).
  - simpl. now rewrite (line_step_hashable st line Hline E).
Qed.
End CompletedInvariant.

Lemma bool_count_nonneg (b : bool) : 0 <= bool_count b <= 1.
Proof. destruct b; simpl; lia. Qed.

Lemma counted_state_sound (st : Agg.t) (obj : list (string * json)) (text : string) :
  counters_sound st -> counters_sound (counted_state st obj text).
Proof.
  unfold counters_sound, counted_state. cbn [Agg.message_count Agg.user_message_count
    Agg.assistant_message_count Agg.tool_call_count Agg.error_count Agg.retry_count
    Agg.correction_count].
  intros [H0 [H1 [H2 [H3 [H4 [H5 H6]]]]]].
  pose proof (bool_count_nonneg (is_assistant_record obj && check_patterns text ERROR_PATTERNS)).
  pose proof (bool_count_nonneg (is_assistant_record obj && check_patterns text RETRY_PATTERNS)).
  pose proof (bool_count_nonneg
                (negb (is_assistant_record obj) && check_patterns text CORRECTION_PATTERNS)).
  assert (Hb : bool_count (negb (is_assistant_record obj))
               + bool_count (is_assistant_record obj) = 1
               /\ 0 <= bool_count (is_assistant_record obj)
               /\ 0 <= bool_count (negb (is_assistant_record obj)))
    by (destruct (is_assistant_record obj); simpl; lia).
  repeat split; lia.
Qed.

Lemma read_lines_counters_sound (ls : list raw_line) (st : Agg.t) :
  counters_sound st -> counters_sound (final_state (read_lines st ls)).
Proof.
  apply read_lines_preserves.
  - intros st0 obj text _ _. apply counted_state_sound.
  - intros st0 obj text names _ _ _ H. exact (@counted_state_sound st0 obj text H).
Qed.

Lemma compute_struggle_score_nonneg (intent : string) (errors retries corrections : Z) :
  0 <= errors -> 0 <= retries -> 0 <= corrections ->
  (0 <= compute_struggle_score intent errors retries corrections)%Q.
Proof.
  intros He Hr Hc. unfold compute_struggle_score.
  repeat match goal with
         | |- context [if ?c then _ else _] => destruct c
         end;
    unfold Qle, Qplus, Qmult, inject_Z; simpl; lia.
Qed.

Lemma compute_struggle_score_monotone (intent : string) (e1 r1 c1 e2 r2 c2 : Z) :
  e1 <= e2 -> r1 <= r2 -> c1 <= c2 ->
  (compute_struggle_score intent e1 r1 c1 <= compute_struggle_score intent e2 r2 c2)%Q.
Proof.
  intros He Hr Hc. unfold compute_struggle_score.
  repeat match goal with
         | |- context [if ?c then _ else _] => destruct c
         end;
    unfold Qle, Qplus, Qmult, inject_Z; simpl; lia.
Qed.

Lemma take_length (n : nat) (s : string) : (String.length (PyStr.take n s) <= n)%nat.
Proof.
  unfold PyStr.take. revert s. induction n as [|n IH]; intros s.
  - destruct s; simpl; lia.
  - destruct s as [|c s]; simpl; [lia|]. specialize (IH s). lia.
Qed.

Lemma take_prefix (p : string) (n : nat) (s : string) :
  (String.length p <= n)%nat ->
  String.prefix p (PyStr.take n s) = String.prefix p s.
Proof.
  unfold PyStr.take. revert n s. induction p as [|a p IH]; intros n s Hlen.
  - destruct n, s; reflexivity.
  - simpl in Hlen. destruct n as [|n]; [lia|].
    destruct s as [|c s]; simpl; [reflexivity|].
    destruct (ascii_dec a c); [|reflexivity]. apply IH. lia.
Qed.

Lemma to_scalars_length (names : list json) (xs : list scalar) :
  to_scalars names = Some xs -> List.length xs = List.length names.
Proof.
  revert xs. induction names as [|j names IH]; intros xs H; simpl in H.
  - now injection H as <-.
  - destruct (to_scalar j); [|discriminate].
    destruct (to_scalars names) as [ys|]; [|discriminate].
    injection H as <-. simpl. now rewrite (IH ys).
Qed.

Lemma record_message_shape (st : Agg.t) (obj : list (string * json)) (text : string)
  (names : list scalar) :
  to_scalars (record_tool_names obj) = Some names ->
  message_shape (record_message st obj text names).
Proof.
  intros Hn. pose proof (to_scalars_length _ Hn) as Hlen.
  unfold message_shape, record_message, tools_of.
  cbn [Message.role Message.content_preview Message.tool_call_count Message.tool_names].
  split; [destruct (is_assistant_record obj); [now right|now left]|].
  split; [apply take_length|]. rewrite <- Hlen.
  split; [destruct names; reflexivity|].
  split.
  - destruct names; simpl; split; intros H; try reflexivity; try discriminate; lia.
  - intros Hrole. unfold record_tool_names in Hn.
    destruct (is_assistant_record obj); [discriminate|].
    injection Hn as <-. reflexivity.
Qed.

Lemma read_lines_shape (ls : list raw_line) (st : Agg.t) :
  Forall message_shape (Agg.messages st) ->
  Forall message_shape (Agg.messages (final_state (read_lines st ls))).
Proof.
  apply (read_lines_preserves (fun st => Forall message_shape (Agg.messages st))).
  - intros st0 obj text _ _ H. exact H.
  - intros st0 obj text names _ _ Hn H. unfold appended_state.
    cbn [Agg.messages]. apply Forall_app. split; [exact H|].
    constructor; [now apply record_message_shape|constructor].
Qed.

Lemma read_lines_first_message_shape (ls : list raw_line) (st : Agg.t) :
  first_message_shape (Agg.first_message st) ->
  first_message_shape (Agg.first_message (final_state (read_lines st ls))).
Proof.
  assert (Hc : forall st0 obj text,
             first_message_shape (Agg.first_message st0) ->
             first_message_shape (Agg.first_message (counted_state st0 obj text))).
  { intros st0 obj text H. unfold counted_state. cbn [Agg.first_message].
    destruct (Agg.first_message st0) as [fm|]; [exact H|].
    destruct (negb (is_assistant_record obj)); cbn [andb]; [|exact I].
    destruct (PyStr.startswith text "<local-command-caveat>") eqn:E; cbn [negb]; [exact I|].
    split; [apply take_length|].
    unfold PyStr.startswith in *. rewrite take_prefix; [exact E|simpl; lia]. }
  apply (read_lines_preserves (fun st => first_message_shape (Agg.first_message st))).
  - intros st0 obj text _ _. apply Hc.
  - intros st0 obj text names _ _ _ H. exact (Hc st0 obj text H).
Qed.

(** X1. In every session that [process_session] returns, with or without
    an exception on the way, the message count is the sum of the user and
    assistant counts, no counter is negative, and the struggle score is
    not negative. *)
Theorem session_counters_sound :
  forall (f : file) (project sid : string),
    let s := fst (process_session f project sid) in
    Session.message_count s
    = Session.user_message_count s + Session.assistant_message_count s
    /\ 0 <= Session.user_message_count s
    /\ 0 <= Session.assistant_message_count s
    /\ 0 <= Session.tool_call_count s
    /\ 0 <= Session.error_count s
    /\ 0 <= Session.retry_count s
    /\ 0 <= Session.correction_count s
    /\ (0 <= Session.struggle_score s)%Q.
Proof.
  intros f project sid s.
  assert (H : counters_sound (final_state (read_lines Agg.init (lines f)))).
  { apply read_lines_counters_sound. unfold counters_sound; simpl. lia. }
  destruct H as [H0 [H1 [H2 [H3 [H4 [H5 H6]]]]]].
  unfold s, process_session. cbn [fst Session.message_count Session.user_message_count
    Session.assistant_message_count Session.tool_call_count Session.error_count
    Session.retry_count Session.correction_count Session.struggle_score].
  repeat split; try assumption.
  now apply compute_struggle_score_nonneg.
Qed.

(** X2. For every intent the struggle score does not decrease when the
    error, retry and correction counts grow: every weight of the table is
    non-negative. *)
Theorem struggle_score_monotone :
  forall intent e1 r1 c1 e2 r2 c2,
    e1 <= e2 -> r1 <= r2 -> c1 <= c2 ->
    (compute_struggle_score intent e1 r1 c1 <= compute_struggle_score intent e2 r2 c2)%Q.
Proof. apply compute_struggle_score_monotone. Qed.

Lemma struggle_score_monotone_witness :
  (1 <= 2 /\ 0 <= 3 /\ 4 <= 4)
  /\ (compute_struggle_score "planning" 1 0 4 <= compute_struggle_score "planning" 2 3 4)%Q.
Proof.
  assert (H1 : 1 <= 2) by lia. assert (H2 : 0 <= 3) by lia. assert (H3 : 4 <= 4) by lia.
  split; [repeat split; assumption|].
  exact (@struggle_score_monotone "planning" 1 0 4 2 3 4 H1 H2 H3).
Defined.

(** X3. Every message that [process_session] returns has the role "user"
    or "assistant", a preview of at most 300 characters, a tool call count
    equal to the number of its tool names, no tool names exactly when that
    count is zero, and no tool call at all when it is a user message; the
    session's first message, when there is one, has at most 300 characters
    and does not start with the local-command caveat marker. *)
Theorem messages_well_shaped :
  forall (f : file) (project sid : string),
    Forall message_shape (snd (process_session f project sid))
    /\ first_message_shape (Session.first_message (fst (process_session f project sid))).
Proof.
  intros f project sid. split.
  - rewrite process_session_messages. apply read_lines_shape. constructor.
  - unfold process_session. cbn [fst Session.first_message].
    apply read_lines_first_message_shape. exact I.
Qed.

Lemma count_where_snoc (p : Message.t -> bool) (msgs : list Message.t) (m : Message.t) :
  count_where p (msgs ++ [m]) = count_where p msgs + bool_count (p m).
Proof.
  unfold count_where. rewrite filter_app, length_app. simpl.
  destruct (p m); simpl; lia.
Qed.

Lemma sum_app (l1 l2 : list Z) :
  fold_right Z.add 0 (l1 ++ l2) = fold_right Z.add 0 l1 + fold_right Z.add 0 l2.
Proof. induction l1 as [|y l1 IH]; simpl; lia. Qed.

Lemma appended_state_tallies (st : Agg.t) (obj : list (string * json)) (text : string)
  (names : list scalar) :
  tallies st -> tallies (appended_state st obj text names).
Proof.
  unfold tallies, appended_state, counted_state.
  cbn [Agg.message_count Agg.user_message_count Agg.assistant_message_count
       Agg.tool_call_count Agg.error_count Agg.retry_count Agg.correction_count
       Agg.messages].
  intros [H0 [H1 [H2 [H3 [H4 [H5 H6]]]]]].
  rewrite !count_where_snoc, length_app, map_app, sum_app, H0, H1, H2, H3, H4, H5, H6.
  unfold is_role, record_message.
  cbn [Message.role Message.has_error Message.is_retry Message.is_correction
       Message.tool_call_count List.length map fold_right].
  destruct (is_assistant_record obj); repeat split; try reflexivity; simpl; lia.
Qed.

Lemma read_lines_tallies (ls : list raw_line) (st : Agg.t) :
  forallb tools_hashable ls = true ->
  tallies st -> tallies (final_state (read_lines st ls)).
Proof.
  apply (read_lines_hashable_preserves tallies).
  intros st0 obj text names _ _ _. apply appended_state_tallies.
Qed.

(** X4. When no tool-call block of the file carries an unhashable name,
    the counters of the session that [process_session] returns are those
    of its message list: the messages, the user and the assistant
    messages, the messages flagged error, retry and correction, and the sum
    of the messages' tool call counts. *)
Theorem session_counters_tally :
  forall (f : file) (project sid : string),
    forallb tools_hashable (lines f) = true ->
    let s := fst (process_session f project sid) in
    let msgs := snd (process_session f project sid) in
    Session.message_count s = Z.of_nat (List.length msgs)
    /\ Session.user_message_count s = count_where (is_role "user") msgs
    /\ Session.assistant_message_count s = count_where (is_role "assistant") msgs
    /\ Session.error_count s = count_where Message.has_error msgs
    /\ Session.retry_count s = count_where Message.is_retry msgs
    /\ Session.correction_count s = count_where Message.is_correction msgs
    /\ Session.tool_call_count s = fold_right Z.add 0 (map Message.tool_call_count msgs).
Proof.
  intros f project sid Hh s msgs.
  assert (H : tallies (final_state (read_lines Agg.init (lines f)))).
  { apply read_lines_tallies; [exact Hh|]. unfold tallies; simpl. repeat split. }
  exact H.
Qed.

Lemma session_counters_tally_witness :
  forallb tools_hashable ten_lines = true
  /\ Session.retry_count (fst (process_session (mkFile "/p/abc.jsonl" 1 ten_lines) "p" "abc"))
     = count_where Message.is_retry
         (snd (process_session (mkFile "/p/abc.jsonl" 1 ten_lines) "p" "abc")).
Proof.
  assert (H : forallb tools_hashable (lines (mkFile "/p/abc.jsonl" 1 ten_lines)) = true)
    by (vm_compute; reflexivity).
  split; [exact H|].
  exact (proj1 (proj2 (proj2 (proj2 (proj2
           (session_counters_tally (mkFile "/p/abc.jsonl" 1 ten_lines) "p" "abc" H)))))).
Defined.

Lemma line_step_first_message (st st' : Agg.t) (line : raw_line) :
  line_step st line = Next st' ->
  Agg.first_message st'
  = match Agg.first_message st with
    | Some fm => Some fm
    | None => first_message_candidate line
    end.
Proof.
  intros Hstep.
  assert (Hsame : Agg.first_message st
                  = match Agg.first_message st with Some fm => Some fm | None => None end)
    by (destruct (Agg.first_message st); reflexivity).
  destruct line as [| | |obj]; simpl in Hstep |- *; try (injection Hstep as <-; exact Hsame);
    try discriminate.
  destruct obj as [| | | | |fields]; try discriminate.
  destruct (retained fields) eqn:Hret; simpl.
  - destruct (get_text_content fields) as [text|] eqn:Ht.
    + rewrite (record_step_closed st fields Hret Ht) in Hstep.
      destruct (to_scalars (record_tool_names fields)) as [names|]; [|discriminate].
      injection Hstep as <-. unfold appended_state, counted_state. cbn [Agg.first_message].
      destruct (Agg.first_message st); [reflexivity|].
      destruct (is_assistant_record fields); cbn [negb andb]; [reflexivity|].
      destruct (PyStr.startswith text "<local-command-caveat>"); reflexivity.
    + rewrite (record_step_text_raises st fields Hret Ht) in Hstep. discriminate.
  - rewrite (record_step_skip st fields Hret) in Hstep. injection Hstep as <-. exact Hsame.
Qed.

Lemma read_lines_first_message (ls : list raw_line) (st st' : Agg.t) :
  read_lines st ls = Next st' ->
  Agg.first_message st'
  = match Agg.first_message st with
    | Some fm => Some fm
    | None => first_some first_message_candidate ls
    end.
Proof.
  revert st. induction ls as [|line ls IH]; intros st H; simpl in H.
  - injection H as <-. destruct (Agg.first_message st); reflexivity.
  - destruct (line_step st line) as [st1|st1] eqn:E; [|discriminate].
    rewrite (IH st1 H), (line_step_first_message st line E). simpl.
    destruct (Agg.first_message st); [reflexivity|].
    destruct (first_message_candidate line); reflexivity.
Qed.

(** X5. When the file is read to its end without an exception, the
    session's first message is the text, cut to 300 characters, of the
    first user record whose text does not start with the local-command
    caveat marker, and is absent when there is no such record; the intent
    is detected from it (from the empty text when it is absent). *)
Theorem first_message_is_first_candidate :
  forall (f : file) (project sid : string) (st : Agg.t),
    read_lines Agg.init (lines f) = Next st ->
    let s := fst (process_session f project sid) in
    Session.first_message s = first_some first_message_candidate (lines f)
    /\ Session.intent s
       = detect_intent (match first_some first_message_candidate (lines f) with
                        | Some fm => fm
                        | None => ""%string
                        end).
Proof.
  intros f project sid st Hst s.
  assert (H : Session.first_message s = first_some first_message_candidate (lines f)).
  { unfold s, process_session. cbn [fst Session.first_message]. rewrite Hst. simpl.
    exact (read_lines_first_message (lines f) Agg.init Hst). }
  split; [exact H|].
  rewrite <- H. reflexivity.
Qed.

Lemma first_message_is_first_candidate_witness :
  read_lines Agg.init caveat_lines = Next (final_state (read_lines Agg.init caveat_lines))
  /\ Session.first_message (fst (process_session (mkFile "/p/abc.jsonl" 1 caveat_lines) "p" "abc"))
     = first_some first_message_candidate caveat_lines
  /\ first_some first_message_candidate caveat_lines
     = Some "please implement the login fix"%string.
Proof.
  assert (H : read_lines Agg.init (lines (mkFile "/p/abc.jsonl" 1 caveat_lines))
              = Next (final_state (read_lines Agg.init caveat_lines)))
    by (vm_compute; reflexivity).
  split; [exact H|]. split.
  - exact (proj1 (first_message_is_first_candidate
                    (mkFile "/p/abc.jsonl" 1 caveat_lines) "p" "abc" H)).
  - vm_compute. reflexivity.
Defined.

(* ================================================================== *)
(** * Files that grow, lines that are skipped *)






Lemma line_step_skipped (st : Agg.t) (line : raw_line) :
  skipped_line line = true -> line_step st line = Next st.
Proof.
  destruct line as [| | |obj]; simpl; try reflexivity; try discriminate.
  destruct obj as [| | | | |fields]; try discriminate.
  intros H. apply negb_true_iff in H. now apply record_step_skip.
Qed.

Lemma read_lines_without_skipped (ls : list raw_line) (st : Agg.t) :
  read_lines st (filter (fun l => negb (skipped_line l)) ls) = read_lines st ls.
Proof.
  revert st. induction ls as [|line ls IH]; intros st; simpl; [reflexivity|].
  destruct (skipped_line line) eqn:E; simpl.
  - now rewrite (line_step_skipped st line E), IH.
  - destruct (line_step st line); [apply IH|reflexivity].
Qed.

Lemma line_tools_skipped (line : raw_line) :
  skipped_line line = true -> line_tools line = [].
Proof.
  destruct line as [| | |obj]; cbn [skipped_line line_tools]; try reflexivity.
  destruct obj as [| | | | |fields]; try reflexivity.
  intros H. apply negb_true_iff in H. now rewrite H.
Qed.

Lemma unique_tools_without_skipped (ls : list raw_line) (st : Agg.t) :
  unique_tools st (filter (fun l => negb (skipped_line l)) ls) = unique_tools st ls.
Proof.
  revert st. induction ls as [|line ls IH]; intros st; [reflexivity|].
  cbn [filter]. destruct (skipped_line line) eqn:E; cbn [negb unique_tools].
  - now rewrite (line_tools_skipped line E), (line_step_skipped st line E), IH.
  - destruct (line_step st line); [now rewrite IH|reflexivity].
Qed.

Lemma message_timestamps_without_skipped (ls : list raw_line) (st : Agg.t) :
  message_timestamps st (filter (fun l => negb (skipped_line l)) ls)
  = message_timestamps st ls.
Proof.
  revert st. induction ls as [|line ls IH]; intros st; [reflexivity|].
  cbn [filter]. destruct (skipped_line line) eqn:E; cbn [negb message_timestamps].
  - rewrite (line_step_skipped st line E), IH.
    destruct line as [| | |j]; try reflexivity; try discriminate.
    destruct j as [| | | | |obj]; try discriminate.
    cbn [skipped_line] in E. apply negb_true_iff in E.
    cbn [line_timestamp]. now rewrite E.
  - destruct (line_step st line); [now rewrite IH|reflexivity].
Qed.

(** X7. Blank lines, lines that are not JSON, and objects whose type is
    neither "user" nor "assistant" have no effect on what is read from a
    file: of two files of lines that can all be read, one being the other
    without these lines, [process_session] returns the same messages and
    the same first message, counters, intent, domain and score, it raises
    for the one exactly when it raises for the other, and the driver can
    store the one exactly when it can store the other. (The fields that
    describe the file itself, its path, size and times, are not in this
    statement; they differ.) *)
Theorem skipped_lines_have_no_effect :
  forall f f' project sid,
    read_error_free (lines f) = true ->
    lines f' = filter (fun l => negb (skipped_line l)) (lines f) ->
    snd (process_session f' project sid) = snd (process_session f project sid)
    /\ same_content (fst (process_session f' project sid))
                    (fst (process_session f project sid))
    /\ (process_session_outcome f' project sid = Raise
        <-> process_session_outcome f project sid = Raise)
    /\ storable f' = storable f.
Proof.
  intros f f' project sid _ Hlines.
  assert (Hstate : final_state (read_lines Agg.init (lines f'))
                   = final_state (read_lines Agg.init (lines f)))
    by now rewrite Hlines, read_lines_without_skipped.
  assert (Htools : unique_tools Agg.init (lines f') = unique_tools Agg.init (lines f))
    by now rewrite Hlines, unique_tools_without_skipped.
  split; [|split; [|split]].
  - rewrite !process_session_messages. now rewrite Hstate.
  - unfold same_content, process_session.
    cbn [fst Session.first_message Session.message_count Session.user_message_count
         Session.assistant_message_count Session.tool_call_count Session.error_count
         Session.retry_count Session.correction_count Session.intent Session.domain
         Session.struggle_score].
    rewrite Hstate. repeat split.
  - unfold process_session_outcome. rewrite Htools.
    destruct (sortable (unique_tools Agg.init (lines f))); split; intros H;
      try reflexivity; discriminate.
  - unfold storable. now rewrite Hlines, message_timestamps_without_skipped.
Qed.

Lemma skipped_lines_have_no_effect_witness :
  read_error_free odd_lines = true
  /\ snd (process_session
            (mkFile "/p/short.jsonl" 2 (filter (fun l => negb (skipped_line l)) odd_lines))
            "p" "odd")
     = snd (process_session (mkFile "/p/odd.jsonl" 1 odd_lines) "p" "odd").
Proof.
  assert (H : read_error_free odd_lines = true) by reflexivity.
  split; [exact H|].
  exact (proj1 (@skipped_lines_have_no_effect
                  (mkFile "/p/odd.jsonl" 1 odd_lines)
                  (mkFile "/p/short.jsonl" 2
                     (filter (fun l => negb (skipped_line l)) odd_lines))
                  "p" "odd" H eq_refl)).
Defined.

(* ================================================================== *)
(** * The ingestion driver: freshness, counts, untouched rows *)

(** The filters of [decide] do not look at the store. *)
Lemma decide_filters (existing : list (string * Z)) (cutoff : option Z)
  (project_filter : option string) (a : artifact) :
  decide existing cutoff project_filter a
  = if passes_filters cutoff project_filter a
    then match existing_get existing (filepath (art_file a)) with
         | Some stored =>
             if stored =? st_mtime (art_file a) then Unchanged
             else Process (decode_project_name (projdir a))
                    (PyStr.remove_all ".jsonl" (fname a))
         | None => Process (decode_project_name (projdir a))
                     (PyStr.remove_all ".jsonl" (fname a))
         end
    else Filtered.
Proof.
  unfold passes_filters, decide. simpl existing_get.
  repeat match goal with
         | |- context [if ?c then _ else _] => destruct c; try reflexivity
         end;
    destruct (existing_get existing (filepath (art_file a))) as [stored|]; try reflexivity;
    destruct (stored =? st_mtime (art_file a)); reflexivity.
Qed.

Lemma decide_process_inv (existing : list (string * Z)) (cutoff : option Z)
  (project_filter : option string) (a : artifact) (project sid : string) :
  decide existing cutoff project_filter a = Process project sid ->
  passes_filters cutoff project_filter a = true
  /\ project = decode_project_name (projdir a)
  /\ sid = PyStr.remove_all ".jsonl" (fname a).
Proof.
  rewrite decide_filters. destruct (passes_filters cutoff project_filter a); [|discriminate].
  destruct (existing_get existing (filepath (art_file a))) as [stored|].
  - destruct (stored =? st_mtime (art_file a)); [discriminate|].
    intros [= <- <-]. repeat split.
  - intros [= <- <-]. repeat split.
Qed.

Lemma existing_get_snoc (l : list (string * Z)) (k : string) (v : Z) :
  existing_get (l ++ [(k, v)]) k = Some v.
Proof.
  induction l as [|[k0 v0] l IH]; simpl.
  - now rewrite String.eqb_refl.
  - now rewrite IH.
Qed.

Lemma existing_after_store (d : db) (s : Session.t) (msgs : list Message.t) :
  Session.source s = "claude-code"%string ->
  existing_get (existing_of (store_session d s msgs) false) (Session.raw_path s)
  = Some (Session.modified_at s).
Proof.
  intros Hsrc. unfold existing_of. rewrite store_session_sessions, filter_app, map_app.
  simpl. rewrite Hsrc. simpl. apply existing_get_snoc.
Qed.

(** X8. An artifact that has just been ingested is unchanged for the next
    run: ingesting it again, with the same filters and without [force],
    leaves the store as it is and counts one skipped artifact. *)
Theorem reingest_unchanged_is_noop :
  forall d a cutoff project_filter force project sid,
    decide (existing_of d force) cutoff project_filter a = Process project sid ->
    let d1 := fst (ingest d [a] cutoff project_filter force) in
    ingest d1 [a] cutoff project_filter false = (d1, mkCounts 0 1 0).
Proof.
  intros d a cutoff pf force project sid Hdec d1.
  assert (Hd1 : d1 = store_session d (fst (process_session (art_file a) project sid))
                       (snd (process_session (art_file a) project sid))).
  { unfold d1, ingest. simpl. now apply ingest_one_process. }
  destruct (decide_process_inv _ _ _ _ Hdec) as [Hpass _].
  assert (Hun : decide (existing_of d1 false) cutoff pf a = Unchanged).
  { rewrite decide_filters, Hpass, Hd1.
    pose proof (existing_after_store d (fst (process_session (art_file a) project sid))
                  (snd (process_session (art_file a) project sid)) eq_refl) as Hget.
    change (Session.raw_path (fst (process_session (art_file a) project sid)))
      with (filepath (art_file a)) in Hget.
    change (Session.modified_at (fst (process_session (art_file a) project sid)))
      with (st_mtime (art_file a)) in Hget.
    rewrite Hget, Z.eqb_refl. reflexivity. }
  unfold ingest. cbn [fold_left]. unfold ingest_one. rewrite Hun. reflexivity.
Qed.

Lemma reingest_unchanged_is_noop_witness :
  decide (existing_of store_v1 false) None None (example_artifact 200 three_lines)
  = Process "my-app" "abc"
  /\ ingest store_v2 [example_artifact 200 three_lines] None None false
     = (store_v2, mkCounts 0 1 0).
Proof.
  assert (H : decide (existing_of store_v1 false) None None (example_artifact 200 three_lines)
              = Process "my-app" "abc") by (vm_compute; reflexivity).
  split; [exact H|].
  exact (reingest_unchanged_is_noop store_v1 (example_artifact 200 three_lines)
           None None false H).
Defined.

Lemma count_of_cons (A : Type) (p : A -> bool) (x : A) (l : list A) :
  count_of p (x :: l) = bool_count (p x) + count_of p l.
Proof.
  unfold count_of, bool_count. cbn [filter]. destruct (p x); cbn [List.length]; lia.
Qed.

Lemma count_of_nonneg (A : Type) (p : A -> bool) (l : list A) : 0 <= count_of p l.
Proof. unfold count_of. lia. Qed.

Lemma unchanged_passes (existing : list (string * Z)) (cutoff : option Z)
  (project_filter : option string) (a : artifact) :
  is_unchanged existing cutoff project_filter a = true ->
  passes_filters cutoff project_filter a = true.
Proof.
  unfold is_unchanged. rewrite decide_filters.
  now destruct (passes_filters cutoff project_filter a).
Qed.

(** One artifact moves exactly one of the counts, or none. *)
Lemma ingest_one_counts (existing : list (string * Z)) (cutoff : option Z)
  (project_filter : option string) (d : db) (c : counts) (a : artifact) :
  let c' := snd (ingest_one existing cutoff project_filter (d, c) a) in
  skipped c' = skipped c + bool_count (is_unchanged existing cutoff project_filter a)
  /\ ingested c' + updated c'
     = ingested c + updated c
       + bool_count (passes_filters cutoff project_filter a
                     && negb (is_unchanged existing cutoff project_filter a))
  /\ (existing = [] -> updated c' = updated c)
  /\ ingested c <= ingested c' /\ updated c <= updated c'.
Proof.
  unfold ingest_one, is_unchanged. rewrite decide_filters.
  destruct (passes_filters cutoff project_filter a).
  - destruct (existing_get existing (filepath (art_file a))) as [stored|] eqn:Hget.
    + destruct (stored =? st_mtime (art_file a)).
      * cbn. repeat split; try lia; try (intros ->; discriminate).
      * destruct (process_session (art_file a) _ _) as [session msgs].
        cbn. repeat split; try lia; try (intros ->; discriminate).
    + destruct (process_session (art_file a) _ _) as [session msgs].
      cbn. repeat split; lia.
  - cbn. repeat split; lia.
Qed.

Lemma count_of_split (existing : list (string * Z)) (cutoff : option Z)
  (project_filter : option string) (arts : list artifact) :
  count_of (passes_filters cutoff project_filter) arts
  = count_of (is_unchanged existing cutoff project_filter) arts
    + count_of (fun a => passes_filters cutoff project_filter a
                         && negb (is_unchanged existing cutoff project_filter a)) arts.
Proof.
  induction arts as [|a arts IH]; [reflexivity|].
  rewrite !count_of_cons, IH.
  pose proof (unchanged_passes existing cutoff project_filter a) as Hu.
  destruct (is_unchanged existing cutoff project_filter a);
    destruct (passes_filters cutoff project_filter a);
    try (specialize (Hu eq_refl); discriminate);
    unfold bool_count; cbn [andb negb]; lia.
Qed.

Lemma ingest_counts_fold (existing : list (string * Z)) (cutoff : option Z)
  (project_filter : option string) (arts : list artifact) (d : db) (c : counts) :
  let c' := snd (fold_left (ingest_one existing cutoff project_filter) arts (d, c)) in
  skipped c' = skipped c + count_of (is_unchanged existing cutoff project_filter) arts
  /\ ingested c' + updated c'
     = ingested c + updated c
       + count_of (fun a => passes_filters cutoff project_filter a
                            && negb (is_unchanged existing cutoff project_filter a)) arts
  /\ (existing = [] -> updated c' = updated c)
  /\ ingested c <= ingested c' /\ updated c <= updated c'.
Proof.
  revert d c. induction arts as [|a arts IH]; intros d c.
  - cbn [fold_left snd]. unfold count_of. cbn [filter List.length Z.of_nat].
    repeat split; lia.
  - cbn [fold_left]. rewrite !count_of_cons.
    pose proof (ingest_one_counts existing cutoff project_filter d c a) as H1.
    destruct (ingest_one existing cutoff project_filter (d, c) a) as [d1 c1].
    cbn [snd] in H1. destruct H1 as [A1 [A2 [A3 [A4 A5]]]].
    specialize (IH d1 c1). cbv zeta in IH. destruct IH as [B1 [B2 [B3 [B4 B5]]]].
    cbv zeta. repeat split; try lia.
    intros He. rewrite (B3 He). exact (A3 He).
Qed.

(** X9. The three counts of a run add up to the number of artifacts that
    get past the project, name and cutoff tests; [skipped] counts those
    whose stored modification time is equal, and no count is negative. *)
Theorem ingest_counts :
  forall d artifacts cutoff project_filter force,
    let c := snd (ingest d artifacts cutoff project_filter force) in
    ingested c + updated c + skipped c
    = count_of (passes_filters cutoff project_filter) artifacts
    /\ skipped c
       = count_of (is_unchanged (existing_of d force) cutoff project_filter) artifacts
    /\ 0 <= ingested c /\ 0 <= updated c /\ 0 <= skipped c.
Proof.
  intros d artifacts cutoff pf force c.
  pose proof (ingest_counts_fold (existing_of d force) cutoff pf artifacts d (mkCounts 0 0 0))
    as H.
  cbv zeta in H. fold (ingest d artifacts cutoff pf force) in H. fold c in H.
  cbn [ingested skipped updated] in H.
  destruct H as [H1 [H2 [H3 [H4 H5]]]].
  pose proof (count_of_split (existing_of d force) cutoff pf artifacts) as Hsplit.
  pose proof (count_of_nonneg (is_unchanged (existing_of d force) cutoff pf) artifacts) as Hn.
  repeat split; lia.
Qed.

(** X10. Under [force] the store is not consulted: nothing is skipped and
    nothing is counted as updated. Every artifact that gets past the tests
    is processed and counted as new, also when its session was stored. *)
Theorem forced_ingest_counts_all_new :
  forall d artifacts cutoff project_filter,
    let c := snd (ingest d artifacts cutoff project_filter true) in
    skipped c = 0 /\ updated c = 0
    /\ ingested c = count_of (passes_filters cutoff project_filter) artifacts.
Proof.
  intros d artifacts cutoff pf c.
  pose proof (ingest_counts_fold (existing_of d true) cutoff pf artifacts d (mkCounts 0 0 0))
    as H.
  cbv zeta in H. fold (ingest d artifacts cutoff pf true) in H. fold c in H.
  cbn [ingested skipped updated existing_of] in H.
  destruct H as [H1 [H2 [H3 [H4 H5]]]]. specialize (H3 eq_refl).
  pose proof (count_of_split [] cutoff pf artifacts) as Hsplit.
  assert (Hz : count_of (is_unchanged [] cutoff pf) artifacts = 0).
  { unfold count_of. rewrite filter_none; [reflexivity|].
    intros a _. unfold is_unchanged. rewrite decide_filters. cbn [existing_get].
    destruct (passes_filters cutoff pf a); reflexivity. }
  repeat split; lia.
Qed.

(* ================================================================== *)
(** * The two tables after a run *)

Lemma process_session_consecutive (f : file) (project sid : string) :
  consecutive (snd (process_session f project sid)).
Proof.
  destruct init_inv as [Hs0 Hc0].
  pose proof (read_lines_inv (lines f) Hs0 Hc0) as Hinv.
  rewrite process_session_messages.
  destruct (read_lines Agg.init (lines f)) as [st|st]; apply Hinv.
Qed.

(** Removing session rows keeps their ids pairwise different. *)
Lemma kept_ids_apart (keep : Session.t -> bool) (rows : list Session.t) :
  NoDup (map Session.id rows) -> NoDup (map Session.id (filter keep rows)).
Proof.
  intros Hrows. induction rows as [|s rows IH]; [constructor|].
  cbn [map] in Hrows. apply NoDup_cons_iff in Hrows. destruct Hrows as [Hfresh Hrest].
  cbn [filter]. destruct (keep s); [|exact (IH Hrest)].
  cbn [map]. apply NoDup_cons_iff. split; [|exact (IH Hrest)].
  intros Hin. apply Hfresh. apply in_map_iff in Hin. destruct Hin as [r [Hid Hr]].
  apply filter_In in Hr. rewrite <- Hid. apply in_map. exact (proj1 Hr).
Qed.

Lemma NoDup_snoc (A : Type) (l : list A) (x : A) :
  NoDup l -> ~ In x l -> NoDup (l ++ [x]).
Proof.
  induction l as [|y l IH]; intros H Hn; simpl.
  - constructor; [intros []|constructor].
  - inversion H as [|z zs Hy Hd]; subst. constructor.
    + intros Hin. apply in_app_or in Hin. destruct Hin as [Hin|[->|[]]].
      * now apply Hy.
      * apply Hn. now left.
    + apply IH; [assumption|]. intros Hin. apply Hn. now right.
Qed.

Lemma store_session_consistent (d : db) (s : Session.t) (msgs : list Message.t) :
  consecutive msgs -> store_consistent d -> store_consistent (store_session d s msgs).
Proof.
  intros Hmsgs [Hkeys [Hrows Hnum]]. repeat split.
  - rewrite store_session_sessions, map_app. cbn [map].
    apply NoDup_snoc; [now apply kept_ids_apart|].
    intros Hin. apply in_map_iff in Hin. destruct Hin as [r [Hid Hr]].
    apply filter_In in Hr. destruct Hr as [_ Hr]. rewrite Hid, String.eqb_refl in Hr.
    discriminate.
  - intros r Hr. rewrite store_session_messages in Hr.
    rewrite store_session_sessions, map_app. apply in_or_app.
    apply in_app_or in Hr. destruct Hr as [Hr|Hr].
    + apply filter_In in Hr. destruct Hr as [Hr Hne]. left.
      specialize (Hrows r Hr). apply in_map_iff in Hrows.
      destruct Hrows as [s0 [Hid Hs0]]. apply in_map_iff. exists s0. split; [exact Hid|].
      apply filter_In. split; [exact Hs0|]. now rewrite Hid.
    + apply in_map_iff in Hr. destruct Hr as [m [<- _]]. right. now left.
  - intros sid. destruct (String.eqb_spec sid (Session.id s)) as [->|Hne].
    + now rewrite messages_of_store_same.
    + rewrite messages_of_store_other by exact Hne. apply Hnum.
Qed.

Lemma ingest_one_consistent (existing : list (string * Z)) (cutoff : option Z)
  (project_filter : option string) (acc : db * counts) (a : artifact) :
  store_consistent (fst acc) ->
  store_consistent (fst (ingest_one existing cutoff project_filter acc a)).
Proof.
  destruct acc as [d c]. intros H. unfold ingest_one.
  destruct (decide existing cutoff project_filter a) as [| |project sid] eqn:E;
    [exact H|exact H|].
  pose proof (process_session_consecutive (art_file a) project sid) as Hc.
  destruct (process_session (art_file a) project sid) as [session msgs].
  now apply store_session_consistent.
Qed.

(** X11. A run keeps the two tables consistent: one session row per id, no
    message row without its session row, and for every session id the
    stored rows numbered 0, 1, 2, ... in insertion order. In particular
    every store built by runs from the empty store has these properties. *)
Theorem ingest_keeps_store_consistent :
  forall d artifacts cutoff project_filter force,
    store_consistent d ->
    store_consistent (fst (ingest d artifacts cutoff project_filter force)).
Proof.
  intros d artifacts cutoff pf force. unfold ingest.
  generalize (mkCounts 0 0 0) as c. generalize (existing_of d force) as existing.
  intros existing. revert d.
  induction artifacts as [|a arts IH]; intros d c H; [exact H|].
  cbn [fold_left].
  pose proof (@ingest_one_consistent existing cutoff pf (d, c) a H) as H1.
  destruct (ingest_one existing cutoff pf (d, c) a) as [d1 c1].
  now apply IH.
Qed.

Lemma empty_db_consistent : store_consistent empty_db.
Proof.
  repeat split.
  - constructor.
  - intros r [].
Qed.

Lemma ingest_keeps_store_consistent_witness :
  store_consistent empty_db
  /\ store_consistent
       (fst (ingest empty_db [example_artifact 100 ten_lines; twin_artifact] None None false)).
Proof.
  split; [exact empty_db_consistent|].
  exact (ingest_keeps_store_consistent
           [example_artifact 100 ten_lines; twin_artifact] None None false
           empty_db_consistent).
Defined.

(** A second upsert under the same id removes what the first one stored. *)
Lemma store_session_overwrite (d : db) (s1 s2 : Session.t) (m1 m2 : list Message.t) :
  Session.id s1 = Session.id s2 ->
  store_session (store_session d s1 m1) s2 m2 = store_session d s2 m2.
Proof.
  intros Hid.
  assert (Hs : sessions (store_session (store_session d s1 m1) s2 m2)
               = sessions (store_session d s2 m2)).
  { rewrite !store_session_sessions, filter_app, Hid. cbn [filter].
    rewrite Hid, String.eqb_refl. cbn [negb]. rewrite app_nil_r, filter_filter.
    f_equal. apply filter_ext. intros r. now rewrite andb_diag. }
  assert (Hm : messages (store_session (store_session d s1 m1) s2 m2)
               = messages (store_session d s2 m2)).
  { rewrite !store_session_messages, filter_app, Hid.
    rewrite (filter_none _ (map (mkRow (Session.id s2)) m1)).
    - rewrite app_nil_r, filter_filter. f_equal. apply filter_ext.
      intros r. now rewrite andb_diag.
    - intros r Hr. apply in_map_iff in Hr. destruct Hr as [m [<- _]].
      cbn [row_session_id]. now rewrite String.eqb_refl. }
  destruct (store_session (store_session d s1 m1) s2 m2) as [ss ms].
  destruct (store_session d s2 m2) as [ss' ms'].
  cbn [sessions messages] in Hs, Hm. now subst.
Qed.

(** X12. The session id depends on the file name alone, not on the project
    directory: when two artifacts with the same file name are processed one
    after the other, the store is the one that the second artifact alone
    would give, and the run still counts both. *)
Theorem same_file_name_overwrites :
  forall d artifacts a1 a2 cutoff project_filter force p1 s1 p2 s2,
    fname a1 = fname a2 ->
    decide (existing_of d force) cutoff project_filter a1 = Process p1 s1 ->
    decide (existing_of d force) cutoff project_filter a2 = Process p2 s2 ->
    let both := ingest d (artifacts ++ [a1; a2]) cutoff project_filter force in
    let second := ingest d (artifacts ++ [a2]) cutoff project_filter force in
    fst both = fst second
    /\ ingested (snd both) + updated (snd both)
       = ingested (snd second) + updated (snd second) + 1
    /\ skipped (snd both) = skipped (snd second).
Proof.
  intros d artifacts a1 a2 cutoff pf force p1 s1 p2 s2 Hname H1 H2 both second.
  unfold both, second. rewrite !ingest_app.
  destruct (ingest d artifacts cutoff pf force) as [d0 c0].
  destruct (decide_process_inv _ _ _ _ H1) as [Hp1 [-> ->]].
  destruct (decide_process_inv _ _ _ _ H2) as [Hp2 [-> ->]].
  cbn [fold_left].
  pose proof (ingest_one_counts (existing_of d force) cutoff pf d0 c0 a1) as C1.
  pose proof (ingest_one_process (existing_of d force) cutoff pf d0 c0 a1 H1) as E1.
  destruct (ingest_one (existing_of d force) cutoff pf (d0, c0) a1) as [d1 c1].
  cbn [fst snd] in C1, E1.
  pose proof (ingest_one_counts (existing_of d force) cutoff pf d1 c1 a2) as C2.
  pose proof (ingest_one_process (existing_of d force) cutoff pf d1 c1 a2 H2) as E2.
  pose proof (ingest_one_counts (existing_of d force) cutoff pf d0 c0 a2) as C3.
  pose proof (ingest_one_process (existing_of d force) cutoff pf d0 c0 a2 H2) as E3.
  destruct (ingest_one (existing_of d force) cutoff pf (d1, c1) a2) as [d2 c2].
  destruct (ingest_one (existing_of d force) cutoff pf (d0, c0) a2) as [d3 c3].
  cbn [fst snd] in *.
  assert (U1 : is_unchanged (existing_of d force) cutoff pf a1 = false)
    by (unfold is_unchanged; now rewrite H1).
  assert (U2 : is_unchanged (existing_of d force) cutoff pf a2 = false)
    by (unfold is_unchanged; now rewrite H2).
  rewrite U1, Hp1 in C1. rewrite U2, Hp2 in C2, C3.
  unfold bool_count in *. cbn [andb negb] in *.
  split; [|lia].
  rewrite E2, E3, E1. apply store_session_overwrite.
  rewrite !process_session_id. now rewrite Hname.
Qed.

Lemma same_file_name_overwrites_witness :
  fname (example_artifact 100 ten_lines) = fname twin_artifact
  /\ fst (ingest empty_db [example_artifact 100 ten_lines; twin_artifact] None None false)
     = fst (ingest empty_db [twin_artifact] None None false).
Proof.
  split; [reflexivity|].
  assert (H1 : decide (existing_of empty_db false) None None (example_artifact 100 ten_lines)
               = Process "my-app" "abc") by (vm_compute; reflexivity).
  assert (H2 : decide (existing_of empty_db false) None None twin_artifact
               = Process "other-app" "abc") by (vm_compute; reflexivity).
  exact (proj1 (@same_file_name_overwrites empty_db [] (example_artifact 100 ten_lines)
                  twin_artifact None None false "my-app" "abc" "other-app" "abc"
                  eq_refl H1 H2)).
Defined.

(* ================================================================== *)
(** * A: a minimum chain length below 1 *)

Lemma long_enough_nonpositive (min_len : Z) (c : chain) :
  min_len <= 0 -> long_enough min_len c = true.
Proof. intros H. unfold long_enough. apply Z.leb_le. lia. Qed.

Lemma find_chains_nonpositive (retries : list (Z * string)) (min_chain : Z) :
  min_chain <= 0 ->
  find_chains retries min_chain
  = match retries with
    | [] => Raise
    | _ => Ok (gap_groups retries)
    end.
Proof.
  intros Hmin. unfold find_chains.
  assert (E : (Z.of_nat (List.length retries) <? min_chain) = false)
    by (apply Z.ltb_ge; lia).
  rewrite E. destruct retries as [|r0 rest]; [reflexivity|].
  rewrite chain_loop_groups, attach_start. cbn [app]. f_equal.
  apply filter_all. intros g _. now apply long_enough_nonpositive.
Qed.

Lemma retry_chain_entries_nonpositive (d : db) (min_chain : Z) (ss : list Session.t) :
  min_chain <= 0 ->
  (retry_chain_entries d min_chain ss = Raise
   <-> exists s, In s ss /\ session_retries d s = [])
  /\ (forall out,
        retry_chain_entries d min_chain ss = Ok out ->
        out = flat_map (fun s => map (fun c => (s, c)) (gap_groups (session_retries d s))) ss).
Proof.
  intros Hmin. induction ss as [|s ss [IHr IHo]].
  - split.
    + split; [discriminate|]. intros [s [[] _]].
    + intros out [= <-]. reflexivity.
  - cbn [retry_chain_entries flat_map]. rewrite (find_chains_nonpositive _ Hmin).
    destruct (session_retries d s) as [|r0 rest] eqn:E.
    + split.
      * split; [|reflexivity]. intros _. exists s. split; [now left|exact E].
      * discriminate.
    + destruct (retry_chain_entries d min_chain ss) as [out'|] eqn:E'.
      * split.
        -- split; [discriminate|]. intros [s' [[<-|Hin] Hs']].
           ++ rewrite E in Hs'. discriminate.
           ++ assert (Hr : Ok out' = @Raise (list (Session.t * chain)))
                by (apply IHr; now exists s').
              discriminate.
        -- intros out [= <-]. f_equal. now apply IHo.
      * split.
        -- split; [|reflexivity]. intros _.
           destruct (proj1 IHr eq_refl) as [s' [Hin Hs']]. exists s'. split; [now right|exact Hs'].
        -- discriminate.
Qed.

(** X13. With a minimum chain length of 0 or less, the retry-chain
    extractor raises exactly when one of the selected sessions has no
    assistant retry message (the first retry of an empty list is read);
    when it returns, it returns every gap group of every selected session. *)
Theorem retry_chains_nonpositive_minimum :
  forall d project min_chain,
    min_chain <= 0 ->
    (strategy_a_retry_chains d project min_chain = Raise
     <-> exists s, In s (high_struggle_sessions d project) /\ session_retries d s = [])
    /\ (forall out,
          strategy_a_retry_chains d project min_chain = Ok out ->
          out = flat_map (fun s => map (fun c => (s, c)) (gap_groups (session_retries d s)))
                  (high_struggle_sessions d project)).
Proof.
  intros d project min_chain Hmin. unfold strategy_a_retry_chains.
  now apply retry_chain_entries_nonpositive.
Qed.

Lemma retry_chains_nonpositive_minimum_witness :
  0 <= 0 /\ strategy_a_retry_chains store_pairs "my-app" 0 = Raise.
Proof.
  split; [lia|].
  apply (proj1 (@retry_chains_nonpositive_minimum store_pairs "my-app" 0 (Z.le_refl 0))).
  exists (example_session "s1" "my-app" "execution" 3 0 0).
  split; vm_compute; [left|]; reflexivity.
Defined.

(* ================================================================== *)
(** * C: corrections and their neighbours *)

Lemma numbered_bounds (msgs : list Message.t) (k : nat) (m : Message.t) :
  map Message.seq msgs = map Z.of_nat (List.seq k (List.length msgs)) ->
  In m msgs ->
  Z.of_nat k <= Message.seq m < Z.of_nat (k + List.length msgs).
Proof.
  intros H Hin. apply (in_map Message.seq) in Hin. rewrite H in Hin.
  apply in_map_iff in Hin. destruct Hin as [i [<- Hi]]. apply in_seq in Hi. lia.
Qed.

Lemma numbered_sorted (msgs : list Message.t) (k : nat) :
  map Message.seq msgs = map Z.of_nat (List.seq k (List.length msgs)) ->
  StronglySorted (fun a b => Message.seq a < Message.seq b) msgs.
Proof.
  revert k. induction msgs as [|m msgs IH]; intros k H; [constructor|].
  cbn [List.length List.seq map] in H. injection H as Hm Hrest.
  constructor; [now apply (IH (S k))|].
  apply Forall_forall. intros y Hy.
  pose proof (numbered_bounds msgs (S k) y Hrest Hy). lia.
Qed.

Lemma order_by_ascending (l : list Message.t) :
  StronglySorted (fun a b => Message.seq a < Message.seq b) l ->
  order_by (fun y x => Message.seq y <? Message.seq x) l = l.
Proof.
  induction 1 as [|x l Hs IH Hall]; [reflexivity|].
  cbn [order_by fold_right]. fold (order_by (fun y x => Message.seq y <? Message.seq x) l).
  rewrite IH. destruct l as [|y l']; [reflexivity|]. cbn [insert_sorted].
  inversion Hall as [|? ? Hxy _]; subst.
  assert (E : (Message.seq y <? Message.seq x) = false) by (apply Z.ltb_ge; lia).
  now rewrite E.
Qed.

(** On rows numbered 0, 1, 2, ... the [ORDER BY seq] changes nothing. *)
Lemma select_messages_numbered (d : db) (sid : string) (where_ : Message.t -> bool) :
  consecutive (messages_of d sid) ->
  select_messages d sid where_ = filter where_ (messages_of d sid).
Proof.
  intros H. unfold select_messages. apply order_by_ascending.
  apply sorted_filter. exact (numbered_sorted _ 0 H).
Qed.

Lemma filter_seq_numbered (msgs : list Message.t) (k : nat) (n : Z) :
  map Message.seq msgs = map Z.of_nat (List.seq k (List.length msgs)) ->
  filter (fun m => Message.seq m =? n) msgs
  = match (if n <? Z.of_nat k then None else nth_error msgs (Z.to_nat n - k)) with
    | Some m => [m]
    | None => []
    end.
Proof.
  revert k. induction msgs as [|m msgs IH]; intros k H.
  - cbn [filter]. destruct (n <? Z.of_nat k); [reflexivity|].
    now destruct (Z.to_nat n - k)%nat.
  - cbn [List.length List.seq map] in H. injection H as Hm Hrest.
    cbn [filter]. rewrite (IH (S k) Hrest), Hm.
    destruct (Z.eqb_spec (Z.of_nat k) n) as [<-|Hne].
    + assert (E1 : (Z.of_nat k <? Z.of_nat (S k)) = true) by (apply Z.ltb_lt; lia).
      rewrite E1, Z.ltb_irrefl, Nat2Z.id, Nat.sub_diag. reflexivity.
    + destruct (n <? Z.of_nat k) eqn:E.
      * apply Z.ltb_lt in E.
        assert (E1 : (n <? Z.of_nat (S k)) = true) by (apply Z.ltb_lt; lia).
        now rewrite E1.
      * apply Z.ltb_ge in E.
        assert (E1 : (n <? Z.of_nat (S k)) = false) by (apply Z.ltb_ge; lia).
        rewrite E1.
        replace (Z.to_nat n - k)%nat with (S (Z.to_nat n - S k)) by lia.
        reflexivity.
Qed.

Lemma left_join_numbered (d : db) (sid : string) (n : Z) :
  consecutive (messages_of d sid) ->
  left_join d sid n = [preview_at (messages_of d sid) n].
Proof.
  intros H. unfold left_join, preview_at.
  rewrite (filter_seq_numbered (messages_of d sid) 0 n H).
  change (Z.of_nat 0) with 0. rewrite Nat.sub_0_r.
  destruct (n <? 0); [reflexivity|].
  now destruct (nth_error (messages_of d sid) (Z.to_nat n)).
Qed.

(** X14. When the rows of a session are numbered 0, 1, 2, ..., as every
    run leaves them, the correction query returns exactly one entry per
    message flagged as a correction, in the order of the rows, with the
    previews of the rows just before and just after it; the previous one is
    missing exactly for the first row, the next one exactly for the last. *)
Theorem corrections_have_one_entry_each :
  forall d s,
    let msgs := messages_of d (Session.id s) in
    consecutive msgs ->
    session_corrections d s
    = map (fun m => (Message.seq m, Message.content_preview m,
                     preview_at msgs (Message.seq m - 1),
                     preview_at msgs (Message.seq m + 1)))
        (filter Message.is_correction msgs)
    /\ (forall m, In m msgs ->
          (preview_at msgs (Message.seq m - 1) = None <-> Message.seq m = 0)
          /\ (preview_at msgs (Message.seq m + 1) = None
              <-> Message.seq m + 1 = Z.of_nat (List.length msgs))).
Proof.
  intros d s msgs H. split.
  - unfold session_corrections. rewrite (@select_messages_numbered d (Session.id s) Message.is_correction H). fold msgs.
    induction (filter Message.is_correction msgs) as [|m l IH]; [reflexivity|].
    cbn [flat_map map]. rewrite IH.
    rewrite (@left_join_numbered d (Session.id s) (Message.seq m - 1) H).
    rewrite (@left_join_numbered d (Session.id s) (Message.seq m + 1) H). reflexivity.
  - intros m Hin. pose proof (numbered_bounds msgs 0 m H Hin) as Hb.
    cbn [Nat.add] in Hb. change (Z.of_nat 0) with 0 in Hb.
    unfold preview_at. split.
    + destruct (Message.seq m - 1 <? 0) eqn:E.
      * apply Z.ltb_lt in E. split; [lia|reflexivity].
      * apply Z.ltb_ge in E.
        destruct (nth_error msgs (Z.to_nat (Message.seq m - 1))) as [m'|] eqn:En.
        -- split; [discriminate|lia].
        -- apply nth_error_None in En. lia.
    + assert (E : (Message.seq m + 1 <? 0) = false) by (apply Z.ltb_ge; lia).
      rewrite E.
      destruct (nth_error msgs (Z.to_nat (Message.seq m + 1))) as [m'|] eqn:En.
      * assert (Hlt : (Z.to_nat (Message.seq m + 1) < List.length msgs)%nat).
        { apply nth_error_Some. rewrite En. discriminate. }
        split; [discriminate|lia].
      * apply nth_error_None in En. split; [lia|reflexivity].
Qed.

Lemma corrections_have_one_entry_each_witness :
  consecutive (messages_of store_corrected "claude-code:abc")
  /\ List.length
       (session_corrections store_corrected
          (fst (process_session (art_file (example_artifact 100 corrected_lines))
                  "my-app" "abc")))
     = 1%nat.
Proof.
  assert (H : consecutive (messages_of store_corrected "claude-code:abc"))
    by (vm_compute; reflexivity).
  split; [exact H|].
  rewrite (proj1 (corrections_have_one_entry_each store_corrected
                    (fst (process_session (art_file (example_artifact 100 corrected_lines))
                            "my-app" "abc")) H)).
  vm_compute. reflexivity.
Defined.

(* ================================================================== *)
(** * Session rows and their message rows *)

Lemma store_session_from_process (d : db) (f : file) (project sid : string) :
  from_process_session d ->
  from_process_session
    (store_session d (fst (process_session f project sid))
       (snd (process_session f project sid))).
Proof.
  intros H s Hs. rewrite store_session_sessions in Hs.
  apply in_app_or in Hs. destruct Hs as [Hs|[<-|[]]].
  - apply filter_In in Hs. destruct Hs as [Hs Hne].
    destruct (H s Hs) as [f' [p' [sid' E]]]. exists f', p', sid'.
    rewrite messages_of_store_other; [exact E|].
    intros Heq. rewrite Heq, String.eqb_refl in Hne. discriminate.
  - exists f, project, sid. rewrite messages_of_store_same.
    now destruct (process_session f project sid).
Qed.

Lemma ingest_one_from_process (existing : list (string * Z)) (cutoff : option Z)
  (project_filter : option string) (acc : db * counts) (a : artifact) :
  from_process_session (fst acc) ->
  from_process_session (fst (ingest_one existing cutoff project_filter acc a)).
Proof.
  destruct acc as [d c]. intros H.
  destruct (decide existing cutoff project_filter a) as [| |project sid] eqn:E.
  - unfold ingest_one. now rewrite E.
  - unfold ingest_one. now rewrite E.
  - rewrite (ingest_one_process existing cutoff project_filter d c a E).
    now apply store_session_from_process.
Qed.

Lemma ingest_from_process (d : db) (artifacts : list artifact) (cutoff : option Z)
  (project_filter : option string) (force : bool) :
  from_process_session d ->
  from_process_session (fst (ingest d artifacts cutoff project_filter force)).
Proof.
  unfold ingest.
  generalize (mkCounts 0 0 0) as c. generalize (existing_of d force) as existing.
  intros existing. revert d.
  induction artifacts as [|a arts IH]; intros d c H; [exact H|].
  cbn [fold_left].
  pose proof (@ingest_one_from_process existing cutoff project_filter (d, c) a H) as H1.
  destruct (ingest_one existing cutoff project_filter (d, c) a) as [d1 c1].
  now apply IH.
Qed.

(** X15. The two tables never disagree after a run: if every session row
    of the store, with the message rows of its id, is the result of
    [process_session] on one file, the same holds after the run. The
    message rows found under a session id are therefore always those of the
    reading that produced its session row. *)
Theorem ingest_keeps_rows_together :
  forall d artifacts cutoff project_filter force,
    from_process_session d ->
    from_process_session (fst (ingest d artifacts cutoff project_filter force)).
Proof.
  intros d artifacts cutoff pf force. apply ingest_from_process.
Qed.

Lemma empty_db_from_process : from_process_session empty_db.
Proof. intros s []. Qed.

Lemma ingest_keeps_rows_together_witness :
  from_process_session empty_db
  /\ from_process_session
       (fst (ingest empty_db [example_artifact 100 ten_lines; twin_artifact] None None false)).
Proof.
  split; [exact empty_db_from_process|].
  exact (ingest_keeps_rows_together
           [example_artifact 100 ten_lines; twin_artifact] None None false
           empty_db_from_process).
Defined.

(* ================================================================== *)
(** * Patterns with upper-case letters against lower-cased text *)

Lemma lower_char_not_upper (c : ascii) : PyStr.is_upper (PyStr.lower_char c) = false.
Proof.
  destruct c as [b0 b1 b2 b3 b4 b5 b6 b7].
  destruct b0, b1, b2, b3, b4, b5, b6, b7; vm_compute; reflexivity.
Qed.

Lemma lower_no_upper (s : string) : no_upper (list_ascii_of_string (PyStr.lower s)) = true.
Proof.
  induction s as [|c s IH]; [reflexivity|].
  cbn [PyStr.lower list_ascii_of_string no_upper forallb].
  fold (no_upper (list_ascii_of_string (PyStr.lower s))).
  now rewrite lower_char_not_upper, IH.
Qed.

Lemma upper_differs (c t : ascii) :
  PyStr.is_upper c = true -> PyStr.is_upper t = false -> Ascii.eqb c t = false.
Proof.
  intros Hc Ht. destruct (Ascii.eqb_spec c t) as [->|]; [congruence|reflexivity].
Qed.

(** The matcher hands its continuation only texts without upper-case
    letters when it starts on one. *)
Lemma run_continuation_fails (A : Type) (r : Regex.regex) :
  forall (prev : option ascii) (s : list ascii) (k : option ascii -> list ascii -> option A),
    no_upper s = true ->
    (forall p' s', no_upper s' = true -> k p' s' = None) ->
    Regex.run false r prev s k = None.
Proof.
  induction r as [| c | | items | | | r1 IH1 r2 IH2 | r1 IH1 r2 IH2 | r1 IH1];
    intros prev s k Hs Hk; cbn [Regex.run].
  - now apply Hk.
  - destruct s as [|t s']; [reflexivity|].
    cbn [no_upper forallb] in Hs. apply andb_prop in Hs. destruct Hs as [_ Hs].
    destruct (Regex.chr_eq false c t); [now apply Hk|reflexivity].
  - destruct s as [|t s']; [reflexivity|].
    cbn [no_upper forallb] in Hs. apply andb_prop in Hs. destruct Hs as [_ Hs].
    destruct (Ascii.eqb t "010"); [reflexivity|now apply Hk].
  - destruct s as [|t s']; [reflexivity|].
    cbn [no_upper forallb] in Hs. apply andb_prop in Hs. destruct Hs as [_ Hs].
    destruct (existsb (Regex.item_match false t) items); [now apply Hk|reflexivity].
  - destruct prev; [reflexivity|now apply Hk].
  - destruct (xorb _ _); [now apply Hk|reflexivity].
  - apply IH1; [exact Hs|]. intros p' s' Hs'. now apply IH2.
  - rewrite (IH1 prev s k Hs Hk), (IH2 prev s k Hs Hk). reflexivity.
  - generalize (List.length s) as n. intros n. revert prev s Hs.
    induction n as [|n IHn]; intros prev s Hs; [now apply Hk|].
    rewrite IH1; [cbn [Regex.or_else]; now apply Hk|exact Hs|].
    intros p' s' Hs'. destruct (List.length s' <? List.length s)%nat; [|reflexivity].
    now apply IHn.
Qed.

Lemma run_needs_upper (A : Type) (r : Regex.regex) :
  forall (prev : option ascii) (s : list ascii) (k : option ascii -> list ascii -> option A),
    needs_upper r = true ->
    no_upper s = true ->
    Regex.run false r prev s k = None.
Proof.
  induction r as [| c | | items | | | r1 IH1 r2 IH2 | r1 IH1 r2 IH2 | r1 IH1];
    intros prev s k Hr Hs; cbn [needs_upper] in Hr; try discriminate; cbn [Regex.run].
  - destruct s as [|t s']; [reflexivity|].
    cbn [no_upper forallb] in Hs. apply andb_prop in Hs. destruct Hs as [Ht _].
    apply negb_true_iff in Ht. unfold Regex.chr_eq. now rewrite (upper_differs c t Hr Ht).
  - destruct s as [|t s']; [reflexivity|].
    cbn [no_upper forallb] in Hs. apply andb_prop in Hs. destruct Hs as [Ht _].
    apply negb_true_iff in Ht.
    assert (E : existsb (Regex.item_match false t) items = false).
    { induction items as [|i items IHi]; [reflexivity|].
      cbn [forallb] in Hr. apply andb_prop in Hr. destruct Hr as [Hi Hr].
      cbn [existsb]. rewrite (IHi Hr), orb_false_r.
      destruct i as [c| |]; try discriminate.
      cbn [Regex.item_match]. unfold Regex.chr_eq. now apply upper_differs. }
    now rewrite E.
  - apply orb_prop in Hr. destruct Hr as [Hr|Hr].
    + now apply IH1.
    + apply run_continuation_fails; [exact Hs|]. intros p' s' Hs'. now apply IH2.
  - apply andb_prop in Hr. destruct Hr as [Hr1 Hr2].
    rewrite (IH1 prev s k Hr1 Hs), (IH2 prev s k Hr2 Hs). reflexivity.
Qed.

Lemma search_from_needs_upper (r : Regex.regex) (s : list ascii) (prev : option ascii) :
  needs_upper r = true -> no_upper s = true -> Regex.search_from false r prev s = false.
Proof.
  intros Hr. revert prev. induction s as [|c s IH]; intros prev Hs.
  - cbn [Regex.search_from]. unfold Regex.match_here. now rewrite run_needs_upper.
  - cbn [Regex.search_from]. unfold Regex.match_here. rewrite run_needs_upper by assumption.
    cbn [no_upper forallb] in Hs. apply andb_prop in Hs. now apply IH.
Qed.

Lemma upper_only_never_found (p text : string) :
  upper_only p = true -> Regex.re_search false p (PyStr.lower text) = false.
Proof.
  unfold upper_only, Regex.re_search.
  destruct (Regex.compile p) as [r|]; [|reflexivity].
  intros Hr. unfold Regex.search. apply search_from_needs_upper; [exact Hr|].
  apply lower_no_upper.
Qed.

(** X16. [check_patterns] lower-cases the text and searches it
    case-sensitively, so a pattern that can only match through an
    upper-case letter never matches: dropping such patterns from a table
    changes no result. Seven patterns of the evidence tables are of this
    kind ("I see the issue", "not what I", "I said\b", "I meant\b",
    "I see[\s!]", "I found", "now I understand"); the error table has none. *)
Theorem upper_case_patterns_never_match :
  (forall text patterns,
      check_patterns text patterns = check_patterns text (live_patterns patterns))
  /\ (forall text p, upper_only p = true -> check_patterns text [p] = false)
  /\ live_patterns ERROR_PATTERNS = ERROR_PATTERNS
  /\ live_patterns RETRY_PATTERNS
     = [ "let me try"; "let me check"; "let me fix"; "let me look";
         "that didn\'t work"; "try a different"; "try another";
         "instead,?\s+(let|I\'ll)"; "actually,?\s+(the|let|I)";
         "the issue is"; "the problem is" ]%string
  /\ live_patterns CORRECTION_PATTERNS
     = [ "^no[,.\s]"; "^wrong"; "^that\'s wrong"; "^actually[,\s]";
         "you can\'t"; "that\'s not"; "that won\'t work"; "that doesn\'t" ]%string
  /\ live_patterns DISCOVERY_PATTERNS
     = [ "the (issue|problem|root cause|reason) (is|was)"; "that\'s because";
         "the fix is"; "resolved"; "working now"; "successfully" ]%string.
Proof.
  split; [|split].
  - intros text patterns. unfold check_patterns, live_patterns.
    induction patterns as [|p ps IH]; [reflexivity|].
    cbn [existsb filter]. destruct (upper_only p) eqn:E; cbn [negb].
    + now rewrite (upper_only_never_found p text E), IH.
    + cbn [existsb]. now rewrite IH.
  - intros text p Hp. unfold check_patterns. cbn [existsb].
    now rewrite (upper_only_never_found p text Hp).
  - repeat split; vm_compute; reflexivity.
Qed.

Lemma upper_case_patterns_never_match_witness :
  upper_only "I found" = true /\ check_patterns "I found the bug" ["I found"] = false.
Proof.
  assert (H : upper_only "I found" = true) by (vm_compute; reflexivity).
  split; [exact H|].
  exact (proj1 (proj2 upper_case_patterns_never_match) "I found the bug" "I found" H).
Defined.

(* ================================================================== *)
(** * The domain of a session *)

Lemma count_from_nonneg (fuel : nat) (icase : bool) (r : Regex.regex)
  (prev : option ascii) (s : list ascii) :
  0 <= Regex.count_from fuel icase r prev s.
Proof.
  revert prev s. induction fuel as [|fuel IH]; intros prev s; cbn [Regex.count_from]; [lia|].
  destruct (Regex.match_here icase r prev s) as [rest|].
  - destruct (List.length s - List.length rest)%nat as [|u].
    + destruct s as [|c s']; [lia|]. specialize (IH (Some c) s'). lia.
    + specialize (IH (nth_error s u) rest). lia.
  - destruct s as [|c s']; [lia|]. apply IH.
Qed.

Lemma re_findall_count_nonneg (p text : string) : 0 <= Regex.re_findall_count p text.
Proof.
  unfold Regex.re_findall_count. destruct (Regex.compile p); [|lia].
  apply count_from_nonneg.
Qed.

Lemma preview_hits_nonneg (patterns : list string) (preview : string) :
  0 <= preview_hits patterns preview.
Proof.
  unfold preview_hits. destruct (String.eqb (PyStr.lower preview) ""); [lia|].
  induction patterns as [|p ps IH]; cbn [map fold_right]; [lia|].
  pose proof (re_findall_count_nonneg p (PyStr.lower preview)). lia.
Qed.

Lemma fold_left_hits (text : string) (patterns : list string) (total : Z) :
  fold_left (fun acc p => acc + Regex.re_findall_count p text) patterns total
  = total + fold_right Z.add 0 (map (fun p => Regex.re_findall_count p text) patterns).
Proof.
  revert total. induction patterns as [|p ps IH]; intros total; cbn [fold_left map fold_right].
  - lia.
  - rewrite IH. lia.
Qed.

(** The score of a label is the sum, over the previews, of the occurrences
    of its patterns. *)
Lemma domain_score_sum (patterns : list string) (previews : list string) :
  domain_score patterns previews
  = fold_right Z.add 0 (map (preview_hits patterns) previews).
Proof.
  unfold domain_score.
  assert (H : forall total,
             fold_left
               (fun total preview =>
                  let text := PyStr.lower preview in
                  if String.eqb text "" then total
                  else fold_left (fun acc p => acc + Regex.re_findall_count p text)
                         patterns total)
               previews total
             = total + fold_right Z.add 0 (map (preview_hits patterns) previews)).
  { induction previews as [|preview previews IH]; intros total;
      cbn [fold_left map fold_right]; [lia|].
    rewrite IH. unfold preview_hits at 2. cbv zeta.
    destruct (String.eqb (PyStr.lower preview) ""); [lia|].
    rewrite fold_left_hits. lia. }
  rewrite H. lia.
Qed.

Lemma domain_score_nonneg (patterns : list string) (previews : list string) :
  0 <= domain_score patterns previews.
Proof.
  rewrite domain_score_sum. induction previews as [|p ps IH]; cbn [map fold_right]; [lia|].
  pose proof (preview_hits_nonneg patterns p). lia.
Qed.

Lemma domain_score_permutation (patterns : list string) (l1 l2 : list string) :
  Permutation l1 l2 -> domain_score patterns l1 = domain_score patterns l2.
Proof.
  intros H. rewrite !domain_score_sum.
  induction H as [|x l l' _ IH|x y l|l l' l'' _ IH1 _ IH2]; cbn [map fold_right].
  - reflexivity.
  - now rewrite IH.
  - lia.
  - now rewrite IH1.
Qed.

Lemma domain_labels_not_general : ~ In "general"%string (map fst DOMAIN_PATTERNS).
Proof.
  intros H. vm_compute in H.
  repeat (destruct H as [H|H]; [discriminate H|]). exact H.
Qed.

Lemma domain_table_argmax (table : list (string * list string)) (previews : list string)
  (e0 : string * list string) (rest : list (string * list string)) :
  table = e0 :: rest ->
  exists pre label patterns post,
    table = pre ++ (label, patterns) :: post
    /\ max_by_value (fst e0, domain_score (snd e0) previews)
         (map (fun e => (fst e, domain_score (snd e) previews)) rest) = label
    /\ (forall e, In e pre -> domain_score (snd e) previews < domain_score patterns previews)
    /\ (forall e, In e post -> domain_score (snd e) previews <= domain_score patterns previews).
Proof.
  intros Ht.
  destruct (max_by_value_first
              (map (fun e => (fst e, domain_score (snd e) previews)) rest) [] []
              (fst e0, domain_score (snd e0) previews))
    as [pre [e [post [Heq [Hmax [Hpre Hpost]]]]]]; try (intros x []).
  cbn [app] in Heq.
  change ((fst e0, domain_score (snd e0) previews)
          :: map (fun e => (fst e, domain_score (snd e) previews)) rest)
    with (map (fun e => (fst e, domain_score (snd e) previews)) (e0 :: rest)) in Heq.
  rewrite <- Ht in Heq. apply map_eq_app in Heq.
  destruct Heq as [kpre [krest [Hk [Hkpre Hkrest]]]].
  symmetry in Hkrest. destruct krest as [|ke kpost]; [discriminate|].
  cbn [map] in Hkrest. injection Hkrest as He Hkpost.
  exists kpre, (fst ke), (snd ke), kpost. subst e. cbn [fst snd] in *.
  split; [rewrite Hk; now destruct ke|]. split; [exact Hmax|]. split.
  - intros x Hx. apply (Hpre (fst x, domain_score (snd x) previews)).
    rewrite <- Hkpre. apply in_map_iff. now exists x.
  - intros x Hx. apply (Hpost (fst x, domain_score (snd x) previews)).
    rewrite Hkpost. apply in_map_iff. now exists x.
Qed.

Lemma forallb_scores_zero (table : list (string * list string)) (previews : list string) :
  forallb (fun e => snd e =? 0)
    (map (fun e => (fst e, domain_score (snd e) previews)) table) = true
  <-> (forall e, In e table -> domain_score (snd e) previews = 0).
Proof.
  rewrite forallb_forall. split.
  - intros H e He. apply Z.eqb_eq.
    apply (H (fst e, domain_score (snd e) previews)). apply in_map_iff. now exists e.
  - intros H x Hx. apply in_map_iff in Hx. destruct Hx as [e [<- He]].
    cbn [snd]. apply Z.eqb_eq. now apply H.
Qed.

(** X17. [detect_domain] adds up, per label, the occurrences of the
    label's patterns over the lower-cased previews. It returns "general"
    exactly when no pattern of any label occurs (so also for a session
    without messages); otherwise the label it returns has a positive count
    that is strictly above the count of every earlier label of the table
    and not below that of any later one. The result does not depend on the
    order of the messages. *)
Theorem detect_domain_first_maximum :
  forall previews,
    (detect_domain previews = "general"%string
     <-> forall e, In e DOMAIN_PATTERNS -> domain_score (snd e) previews = 0)
    /\ (detect_domain previews <> "general"%string ->
        exists pre label patterns post,
          DOMAIN_PATTERNS = pre ++ (label, patterns) :: post
          /\ detect_domain previews = label
          /\ 0 < domain_score patterns previews
          /\ (forall e, In e pre ->
                domain_score (snd e) previews < domain_score patterns previews)
          /\ (forall e, In e post ->
                domain_score (snd e) previews <= domain_score patterns previews))
    /\ (forall patterns,
          domain_score patterns previews
          = fold_right Z.add 0 (map (preview_hits patterns) previews))
    /\ (forall previews', Permutation previews previews' ->
                          detect_domain previews' = detect_domain previews).
Proof.
  intros previews.
  assert (Hne : exists e0 rest, DOMAIN_PATTERNS = e0 :: rest)
    by (unfold DOMAIN_PATTERNS; eauto).
  destruct Hne as [e0 [rest Ht]].
  destruct (domain_table_argmax previews Ht) as [pre [label [patterns [post [Hs [Hm [Hp Hq]]]]]]].
  assert (Hlabel : label <> "general"%string).
  { intros ->. apply domain_labels_not_general. rewrite Hs, map_app.
    apply in_or_app. right. now left. }
  assert (Hcases :
            (forallb (fun e => snd e =? 0)
               (map (fun e => (fst e, domain_score (snd e) previews)) DOMAIN_PATTERNS) = true
             /\ detect_domain previews = "general"%string)
            \/ (forallb (fun e => snd e =? 0)
                  (map (fun e => (fst e, domain_score (snd e) previews)) DOMAIN_PATTERNS) = false
                /\ detect_domain previews = label)).
  { unfold detect_domain. cbv zeta.
    destruct (forallb (fun e => snd e =? 0)
                (map (fun e => (fst e, domain_score (snd e) previews)) DOMAIN_PATTERNS)) eqn:E.
    - left. now split.
    - right. split; [reflexivity|]. rewrite Ht. cbn [map]. exact Hm. }
  assert (Hpos : forallb (fun e => snd e =? 0)
                   (map (fun e => (fst e, domain_score (snd e) previews)) DOMAIN_PATTERNS) = false ->
                 0 < domain_score patterns previews).
  { intros E. pose proof (domain_score_nonneg patterns previews) as Hn.
    destruct (Z.eq_dec (domain_score patterns previews) 0) as [Hz|Hz]; [|lia].
    exfalso. assert (Hall : forallb (fun e => snd e =? 0)
                   (map (fun e => (fst e, domain_score (snd e) previews)) DOMAIN_PATTERNS) = true).
    { apply forallb_scores_zero. intros e He. rewrite Hs in He.
      pose proof (domain_score_nonneg (snd e) previews) as Hn'.
      apply in_app_or in He. destruct He as [He|[<-|He]].
      - specialize (Hp e He). lia.
      - exact Hz.
      - specialize (Hq e He). lia. }
    rewrite Hall in E. discriminate. }
  split; [|split; [|split]].
  - rewrite <- forallb_scores_zero. destruct Hcases as [[E Hd]|[E Hd]].
    + split; [intros _; exact E|intros _; exact Hd].
    + split; [intros Hg; rewrite Hd in Hg; contradiction|intros Hall; rewrite Hall in E; discriminate].
  - intros Hng. destruct Hcases as [[E Hd]|[E Hd]]; [contradiction|].
    exists pre, label, patterns, post. repeat split; try assumption. now apply Hpos.
  - intros pats. apply domain_score_sum.
  - intros previews' Hperm. unfold detect_domain. cbv zeta.
    assert (Hmap : map (fun e => (fst e, domain_score (snd e) previews')) DOMAIN_PATTERNS
                   = map (fun e => (fst e, domain_score (snd e) previews)) DOMAIN_PATTERNS).
    { apply map_ext. intros e. f_equal. symmetry. now apply domain_score_permutation. }
    now rewrite Hmap.
Qed.

Lemma detect_domain_first_maximum_witness :
  Permutation domain_previews (rev domain_previews)
  /\ detect_domain (rev domain_previews) = detect_domain domain_previews.
Proof.
  assert (H : Permutation domain_previews (rev domain_previews)) by apply Permutation_rev.
  split; [exact H|].
  exact (proj2 (proj2 (proj2 (detect_domain_first_maximum domain_previews))) _ H).
Defined.

(* ================================================================== *)
(** * The records that raise *)

Lemma join_parts_raises (parts : list json) :
  join_parts parts = Raise <-> forallb is_json_str parts = false.
Proof.
  induction parts as [|p parts IH]; cbn [join_parts forallb].
  - split; discriminate.
  - destruct p; cbn [is_json_str andb]; try (split; reflexivity).
    destruct (join_parts parts) as [ss|].
    + split; [discriminate|]. intros H. apply IH in H. discriminate.
    + split; [intros _; now apply IH|reflexivity].
Qed.

Lemma to_scalars_none (names : list json) :
  to_scalars names = None <-> forallb hashable names = false.
Proof.
  induction names as [|j names IH]; cbn [to_scalars forallb].
  - split; discriminate.
  - destruct j; cbn [to_scalar hashable andb]; try (split; reflexivity);
      destruct (to_scalars names) as [xs|];
      try (split; [discriminate|intros H; apply IH in H; discriminate]);
      (split; [intros _; now apply IH|reflexivity]).
Qed.

Lemma negb_false_is_true (b : bool) : b = false <-> negb b = true.
Proof. destruct b; split; intros H; try reflexivity; discriminate. Qed.

Lemma record_raises (st : Agg.t) (obj : list (string * json)) :
  (exists st', record_step st obj = Caught st') <-> raises_on (Json (JObj obj)) = true.
Proof.
  cbn [raises_on]. destruct (retained obj) eqn:Hret; cbn [andb].
  - destruct (get_text_content obj) as [text|] eqn:Htext.
    + rewrite (@record_step_closed st obj text Hret Htext).
      unfold record_tool_names. unfold get_text_content in Htext.
      unfold message_content in *.
      destruct (get_default obj "message" (JObj [])) as [| | | | |m]; try discriminate.
      destruct (get_default m "content" (JStr "")) as [| | |s|blocks|fields];
        try (destruct (is_assistant_record obj); cbn;
             (split; [intros [st' H]|intros H]; discriminate)).
      destruct (join_parts (text_parts blocks)) as [ss|] eqn:Hj; [|discriminate].
      assert (Hstr : forallb is_json_str (text_parts blocks) = true).
      { destruct (forallb is_json_str (text_parts blocks)) eqn:E; [reflexivity|].
        apply join_parts_raises in E. congruence. }
      rewrite Hstr. cbn [negb orb].
      destruct (is_assistant_record obj); cbn [andb].
      * destruct (to_scalars (extract_tool_names (JArr blocks))) as [names|] eqn:En.
        -- split; [intros [st' H]; discriminate|].
           intros H. apply negb_false_is_true, to_scalars_none in H. congruence.
        -- split; [intros _|intros _; eexists; reflexivity].
           now apply negb_false_is_true, to_scalars_none.
      * cbn [to_scalars]. split; [intros [st' H]|intros H]; discriminate.
    + rewrite (@record_step_text_raises st obj Hret Htext).
      split; [intros _|intros _; eexists; reflexivity].
      unfold get_text_content, message_content in Htext.
      destruct (get_default obj "message" (JObj [])) as [| | | | |m]; try reflexivity.
      destruct (get_default m "content" (JStr "")) as [| | |s|blocks|fields];
        try discriminate.
      destruct (join_parts (text_parts blocks)) as [ss|] eqn:Hj; [discriminate|].
      apply join_parts_raises in Hj. now rewrite Hj.
  - rewrite (@record_step_skip st obj Hret). split; [intros [st' H]|intros H]; discriminate.
Qed.

Lemma line_raises (st : Agg.t) (line : raw_line) :
  (exists st', line_step st line = Caught st') <-> raises_on line = true.
Proof.
  destruct line as [| | |j].
  - cbn. split; [reflexivity|intros _; eexists; reflexivity].
  - cbn. split; [intros [st' H]|intros H]; discriminate.
  - cbn. split; [intros [st' H]|intros H]; discriminate.
  - destruct j as [| | | | |obj];
      try (cbn; split; [reflexivity|intros _; eexists; reflexivity]).
    cbn [line_step]. apply record_raises.
Qed.

(** X18. Whether the loop of [process_session] leaves for the [except]
    clause on a line depends on the line alone, not on what was read
    before: it does so on a line that cannot be read, on a JSON value that
    is not an object, and on a user or assistant record whose [message] is
    not an object, whose content list has a text block with a non-string
    [text], or (assistant records only) a tool-call block with a list or an
    object for a name. A file is read to its end exactly when it has no
    such line. *)
Theorem exception_free_files :
  (forall st line,
      (exists st', line_step st line = Caught st') <-> raises_on line = true)
  /\ (forall st ls,
        (exists st', read_lines st ls = Next st') <-> existsb raises_on ls = false).
Proof.
  split; [apply line_raises|].
  intros st ls. revert st. induction ls as [|line ls IH]; intros st; cbn [read_lines existsb].
  - split; [reflexivity|intros _; eexists; reflexivity].
  - pose proof (line_raises st line) as Hl.
    destruct (line_step st line) as [st1|st1].
    + destruct (raises_on line); cbn [orb].
      * destruct (proj2 Hl eq_refl) as [st' H]. discriminate.
      * apply IH.
    + assert (Hr : raises_on line = true) by (apply Hl; eexists; reflexivity).
      rewrite Hr. cbn [orb]. split; [intros [st' H]|intros H]; discriminate.
Qed.

Example odd_lines_are_read :
  existsb raises_on odd_lines = false
  /\ map Message.content_preview
       (snd (process_session (mkFile "/p/odd.jsonl" 1 odd_lines) "p" "odd"))
     = [""; ""; "7"]%string.
Proof. vm_compute. split; reflexivity. Qed.

(* ================================================================== *)
(** * Project names *)

Lemma split_nonempty (sep : ascii) (s : string) : PyStr.split sep s <> [].
Proof.
  destruct s as [|c s]; cbn [PyStr.split]; [discriminate|].
  destruct (Ascii.eqb c sep); [discriminate|].
  destruct (PyStr.split sep s); discriminate.
Qed.

Lemma join_cons (sep p : string) (ps : list string) :
  ps <> [] -> PyStr.join sep (p :: ps) = (p ++ sep ++ PyStr.join sep ps)%string.
Proof. destruct ps; [contradiction|reflexivity]. Qed.

Lemma join_split (sep : ascii) (s : string) :
  PyStr.join (String sep "") (PyStr.split sep s) = s.
Proof.
  induction s as [|c s IH]; [reflexivity|]. cbn [PyStr.split].
  pose proof (split_nonempty sep s) as Hne.
  destruct (Ascii.eqb_spec c sep) as [->|Hc].
  - rewrite join_cons by exact Hne. cbn. now rewrite IH.
  - destruct (PyStr.split sep s) as [|w ws]; [contradiction|].
    destruct ws as [|x xs].
    + cbn in *. now rewrite IH.
    + rewrite join_cons by discriminate. rewrite join_cons in IH by discriminate.
      rewrite <- IH. reflexivity.
Qed.

Lemma split_parts_free (sep : ascii) (s : string) :
  Forall (fun p => sep_free sep p = true) (PyStr.split sep s).
Proof.
  induction s as [|c s IH]; cbn [PyStr.split].
  - repeat constructor.
  - destruct (Ascii.eqb c sep) eqn:E.
    + constructor; [reflexivity|exact IH].
    + destruct (PyStr.split sep s) as [|w ws].
      * constructor; [|constructor]. cbn. now rewrite E.
      * inversion IH as [|? ? Hw Hws]; subst. constructor; [|exact Hws].
        cbn. now rewrite E, Hw.
Qed.

Lemma split_app_free (sep : ascii) (p s : string) :
  sep_free sep p = true ->
  PyStr.split sep (p ++ s)
  = match PyStr.split sep s with
    | w :: ws => (p ++ w)%string :: ws
    | [] => [p]
    end.
Proof.
  induction p as [|c p IH]; intros Hp.
  - cbn [String.append]. pose proof (split_nonempty sep s) as Hne.
    destruct (PyStr.split sep s) as [|w ws]; [contradiction|reflexivity].
  - cbn [sep_free] in Hp. apply andb_prop in Hp. destruct Hp as [Hc Hp].
    apply negb_true_iff in Hc. cbn [String.append PyStr.split]. rewrite Hc, (IH Hp).
    pose proof (split_nonempty sep s) as Hne.
    destruct (PyStr.split sep s) as [|w ws]; [contradiction|reflexivity].
Qed.

Lemma append_empty_r (s : string) : (s ++ "")%string = s.
Proof. induction s as [|c s IH]; [reflexivity|]. cbn. now rewrite IH. Qed.

Lemma append_assoc (a b c : string) : ((a ++ b) ++ c)%string = (a ++ b ++ c)%string.
Proof. induction a as [|x a IH]; [reflexivity|]. cbn. now rewrite IH. Qed.

Lemma split_join (sep : ascii) (parts : list string) :
  parts <> [] ->
  Forall (fun p => sep_free sep p = true) parts ->
  PyStr.split sep (PyStr.join (String sep "") parts) = parts.
Proof.
  induction parts as [|p ps IH]; intros Hne Hall; [contradiction|].
  inversion Hall as [|? ? Hp Hps]; subst.
  destruct ps as [|q qs].
  - cbn [PyStr.join]. rewrite <- (append_empty_r p) at 1.
    rewrite (split_app_free sep p "" Hp). cbn [PyStr.split]. now rewrite append_empty_r.
  - rewrite join_cons by discriminate. rewrite (split_app_free sep p _ Hp).
    cbn [String.append PyStr.split]. rewrite Ascii.eqb_refl.
    rewrite IH by (try discriminate; exact Hps). now rewrite append_empty_r.
Qed.

Lemma join_app (sep : string) (l1 l2 : list string) :
  l1 <> [] -> l2 <> [] ->
  PyStr.join sep (l1 ++ l2) = (PyStr.join sep l1 ++ sep ++ PyStr.join sep l2)%string.
Proof.
  induction l1 as [|p l1 IH]; intros H1 H2; [contradiction|].
  destruct l1 as [|q l1].
  - cbn [app]. now rewrite join_cons.
  - change ((p :: q :: l1) ++ l2)%list with (p :: ((q :: l1) ++ l2))%list.
    rewrite join_cons by discriminate. rewrite IH by (try discriminate; exact H2).
    rewrite (@join_cons sep p (q :: l1)) by discriminate.
    now rewrite !append_assoc.
Qed.

Lemma Forall_skipn (A : Type) (P : A -> Prop) (n : nat) (l : list A) :
  Forall P l -> Forall P (skipn n l).
Proof.
  intros H. rewrite <- (firstn_skipn n l) in H. now apply Forall_app in H.
Qed.

Lemma split_app_sep (sep : ascii) (x y : string) :
  PyStr.split sep (x ++ String sep y) = (PyStr.split sep x ++ PyStr.split sep y)%list.
Proof.
  induction x as [|c x IH]; cbn [String.append PyStr.split].
  - now rewrite Ascii.eqb_refl.
  - rewrite IH. destruct (Ascii.eqb c sep); [reflexivity|].
    pose proof (split_nonempty sep x) as Hne.
    destruct (PyStr.split sep x) as [|w ws]; [contradiction|reflexivity].
Qed.

Lemma split_free (sep : ascii) (s : string) :
  sep_free sep s = true -> PyStr.split sep s = [s].
Proof.
  intros H. rewrite <- (append_empty_r s) at 1.
  rewrite (split_app_free sep s "" H). cbn [PyStr.split]. now rewrite append_empty_r.
Qed.

Lemma skipn_front (A : Type) (l1 l2 : list A) : skipn (List.length l1) (l1 ++ l2) = l2.
Proof. induction l1 as [|x l1 IH]; [reflexivity|exact IH]. Qed.

(** A name of four or more parts is cut to its last two. *)
Lemma decode_cut (front a b : string) :
  (2 <= List.length (PyStr.split "-" front))%nat ->
  sep_free "-" a = true -> sep_free "-" b = true ->
  decode_project_name (front ++ "-" ++ a ++ "-" ++ b) = (a ++ "-" ++ b)%string.
Proof.
  intros Hfront Ha Hb. unfold decode_project_name.
  assert (Hsplit : PyStr.split "-" (front ++ "-" ++ a ++ "-" ++ b)
                   = (PyStr.split "-" front ++ [a; b])%list).
  { change (front ++ "-" ++ a ++ "-" ++ b)%string
      with (front ++ String "-" (a ++ String "-" b))%string.
    rewrite !split_app_sep, (split_free "-" a Ha), (split_free "-" b Hb). reflexivity. }
  rewrite Hsplit, length_app. cbn [List.length].
  assert (E : (3 <? List.length (PyStr.split "-" front) + 2)%nat = true)
    by (apply Nat.ltb_lt; lia).
  rewrite E.
  replace (List.length (PyStr.split "-" front) + 2 - 2)%nat
    with (List.length (PyStr.split "-" front)) by lia.
  rewrite skipn_front. reflexivity.
Qed.

(** X19. [decode_project_name] leaves a directory name of at most three
    dash-separated parts as it is and cuts a name of four or more parts to
    its last two parts, joined by a dash. So the result has at most three
    parts, is an ending of the directory name, and decoding it again
    changes nothing. *)
Theorem decode_project_name_idempotent :
  forall dirname,
    decode_project_name (decode_project_name dirname) = decode_project_name dirname
    /\ (List.length (PyStr.split "-" (decode_project_name dirname)) <= 3)%nat
    /\ (exists front, dirname = (front ++ decode_project_name dirname)%string)
    /\ ((3 < List.length (PyStr.split "-" dirname))%nat ->
        List.length (PyStr.split "-" (decode_project_name dirname)) = 2%nat
        /\ PyStr.split "-" (decode_project_name dirname)
           = skipn (List.length (PyStr.split "-" dirname) - 2) (PyStr.split "-" dirname))
    /\ ((List.length (PyStr.split "-" dirname) <= 3)%nat ->
        decode_project_name dirname = dirname)
    /\ (forall front a b,
          (2 <= List.length (PyStr.split "-" front))%nat ->
          sep_free "-" a = true -> sep_free "-" b = true ->
          decode_project_name (front ++ "-" ++ a ++ "-" ++ b) = (a ++ "-" ++ b)%string).
Proof.
  intros dirname.
  set (parts := PyStr.split "-" dirname).
  set (n := List.length parts).
  assert (Hlong : (3 < n)%nat ->
                  decode_project_name dirname = PyStr.join "-" (skipn (n - 2) parts)
                  /\ PyStr.split "-" (PyStr.join "-" (skipn (n - 2) parts))
                     = skipn (n - 2) parts
                  /\ List.length (skipn (n - 2) parts) = 2%nat).
  { intros Hn. split; [|split].
    - unfold decode_project_name. fold parts. fold n.
      assert (E : (3 <? n)%nat = true) by now apply Nat.ltb_lt.
      now rewrite E.
    - apply split_join.
      + intros H. apply (f_equal (@List.length string)) in H.
        rewrite length_skipn in H. fold n in H. cbn in H. lia.
      + apply Forall_skipn. apply split_parts_free.
    - rewrite length_skipn. fold n. lia. }
  assert (Hshort : (n <= 3)%nat -> decode_project_name dirname = dirname).
  { intros Hn. unfold decode_project_name. fold parts. fold n.
    assert (E : (3 <? n)%nat = false) by now apply Nat.ltb_ge.
    now rewrite E. }
  destruct (Nat.ltb_spec 3 n) as [Hn|Hn].
  - destruct (Hlong Hn) as [Hd [Hs Hl]]. split; [|split; [|split; [|split; [|split]]]].
    + rewrite Hd. unfold decode_project_name at 1. rewrite Hs, Hl. reflexivity.
    + rewrite Hd, Hs, Hl. lia.
    + exists (PyStr.join "-" (firstn (n - 2) parts) ++ "-")%string.
      rewrite Hd, append_assoc.
      rewrite <- join_app.
      * rewrite firstn_skipn. unfold parts. symmetry. apply join_split.
      * intros H. apply (f_equal (@List.length string)) in H.
        rewrite length_firstn in H. fold n in H. cbn in H. lia.
      * intros H. rewrite H in Hl. discriminate.
    + intros _. rewrite Hd, Hs, Hl. split; reflexivity.
    + intros H. fold parts in H. fold n in H. lia.
    + intros front a b. apply decode_cut.
  - rewrite (Hshort Hn). split; [|split; [|split; [|split; [|split]]]].
    + exact (Hshort Hn).
    + exact Hn.
    + now exists ""%string.
    + intros H. fold parts in H. fold n in H. lia.
    + intros _. reflexivity.
    + intros front a b. apply decode_cut.
Qed.

Lemma decode_project_name_idempotent_witness :
  ((3 < List.length (PyStr.split "-" "-home-user-my-app"))%nat
   /\ PyStr.split "-" (decode_project_name "-home-user-my-app") = ["my"; "app"]%string)
  /\ ((List.length (PyStr.split "-" "my-cool-app") <= 3)%nat
      /\ decode_project_name "my-cool-app" = "my-cool-app"%string)
  /\ ((2 <= List.length (PyStr.split "-" "home-user"))%nat
      /\ decode_project_name ("home-user" ++ "-" ++ "my" ++ "-" ++ "app") = "my-app"%string).
Proof.
  assert (H : (3 < List.length (PyStr.split "-" "-home-user-my-app"))%nat)
    by (vm_compute; lia).
  assert (H3 : (List.length (PyStr.split "-" "my-cool-app") <= 3)%nat)
    by (vm_compute; lia).
  assert (H2 : (2 <= List.length (PyStr.split "-" "home-user"))%nat)
    by (vm_compute; lia).
  split; [|split].
  - split; [exact H|].
    rewrite (proj2 (proj1 (proj2 (proj2 (proj2
               (decode_project_name_idempotent "-home-user-my-app")))) H)).
    vm_compute. reflexivity.
  - split; [exact H3|].
    exact (proj1 (proj2 (proj2 (proj2 (proj2
             (decode_project_name_idempotent "my-cool-app"))))) H3).
  - split; [exact H2|].
    exact (proj2 (proj2 (proj2 (proj2 (proj2
             (decode_project_name_idempotent ""))))) "home-user"%string "my"%string
             "app"%string H2 eq_refl eq_refl).
Defined.

(* ================================================================== *)
(** * The extractors on a store built by the driver *)

Lemma stored_messages_properties (d : db) (s : Session.t) :
  from_process_session d ->
  In s (sessions d) ->
  consecutive (messages_of d (Session.id s))
  /\ Forall message_shape (messages_of d (Session.id s))
  /\ Forall flags_by_role (messages_of d (Session.id s)).
Proof.
  intros Hd Hs. destruct (Hd s Hs) as [f [project [sid E]]].
  assert (Hm : messages_of d (Session.id s) = snd (process_session f project sid))
    by now rewrite E.
  rewrite Hm. split; [apply process_session_consecutive|].
  rewrite process_session_messages. split.
  - apply read_lines_shape. constructor.
  - apply read_lines_flags. constructor.
Qed.

Lemma user_is_not_assistant (m : Message.t) :
  Message.role m = "user"%string -> String.eqb (Message.role m) "assistant" = false.
Proof. intros ->. reflexivity. Qed.

(** X20. On a store whose rows come from [process_session], as every run
    leaves it, several tests of the extractors never decide anything: the
    rows of a session are already in sequence order, so [ORDER BY seq]
    keeps them as they are; a message flagged as a retry, an error or a
    discovery is an assistant message, so the role test of the retry query
    is redundant; a correction is a user message; and a row with a
    positive tool call count is an assistant message with a non-empty list
    of tool names, so the extractor D skips none of the rows it selects. *)
Theorem extractors_on_ingested_stores :
  forall d s,
    from_process_session d ->
    In s (sessions d) ->
    let msgs := messages_of d (Session.id s) in
    (forall where_, select_messages d (Session.id s) where_ = filter where_ msgs)
    /\ session_retries d s = map seq_preview (filter Message.is_retry msgs)
    /\ (forall m, In m msgs ->
          (Message.is_retry m = true \/ Message.has_error m = true
           \/ Message.is_discovery m = true) ->
          Message.role m = "assistant"%string)
    /\ (forall m, In m msgs -> Message.is_correction m = true ->
                  Message.role m = "user"%string)
    /\ (forall m, In m msgs -> 0 < Message.tool_call_count m ->
                  Message.role m = "assistant"%string /\ tools_of m <> []).
Proof.
  intros d s Hd Hs msgs.
  destruct (stored_messages_properties s Hd Hs) as [Hcons [Hshape Hflags]].
  fold msgs in Hcons, Hshape, Hflags.
  rewrite Forall_forall in Hshape, Hflags.
  assert (Hsel : forall where_, select_messages d (Session.id s) where_ = filter where_ msgs).
  { intros where_. now apply select_messages_numbered. }
  split; [exact Hsel|]. split; [|split; [|split]].
  - unfold session_retries. rewrite Hsel. f_equal. apply filter_ext_in.
    intros m Hm. destruct (Hflags m Hm) as [[Hrole _]|[Hrole [_ [Hretry _]]]].
    + rewrite Hrole. cbn. now rewrite andb_true_r.
    + now rewrite Hretry.
  - intros m Hm Hflag. destruct (Hflags m Hm) as [[Hrole _]|[_ [He [Hr Hdc]]]];
      [exact Hrole|].
    destruct Hflag as [H|[H|H]]; congruence.
  - intros m Hm Hcorr. destruct (Hflags m Hm) as [[_ Hc]|[Hrole _]]; [congruence|exact Hrole].
  - intros m Hm Hpos. destruct (Hshape m Hm) as [Hrole [_ [Hcount [_ Huser]]]]. split.
    + destruct Hrole as [Hrole|Hrole]; [|exact Hrole]. specialize (Huser Hrole). lia.
    + intros Hnil. rewrite Hnil in Hcount. cbn in Hcount. lia.
Qed.

Lemma extractors_on_ingested_stores_witness :
  from_process_session store_struggle
  /\ In (fst (process_session (art_file (example_artifact 100 ten_lines)) "my-app" "abc"))
       (sessions store_struggle)
  /\ session_retries store_struggle
       (fst (process_session (art_file (example_artifact 100 ten_lines)) "my-app" "abc"))
     = map seq_preview
         (filter Message.is_retry (messages_of store_struggle "claude-code:abc")).
Proof.
  assert (H1 : from_process_session store_struggle)
    by (apply ingest_from_process, empty_db_from_process).
  assert (H2 : In (fst (process_session (art_file (example_artifact 100 ten_lines))
                          "my-app" "abc"))
                 (sessions store_struggle)) by (vm_compute; left; reflexivity).
  split; [exact H1|]. split; [exact H2|].
  exact (proj1 (proj2 (extractors_on_ingested_stores _ H1 H2))).
Defined.

(* ================================================================== *)
(** * A second run over the same artifacts *)

Lemma last_match_none_filter (A : Type) (p q : A -> bool) (l : list A) :
  last_match p l = None -> last_match p (filter q l) = None.
Proof.
  induction l as [|x l IH]; intros H; [reflexivity|]. cbn [last_match] in H.
  destruct (last_match p l) as [r|]; [discriminate|].
  destruct (p x) eqn:E; [discriminate|].
  cbn [filter]. destruct (q x); [|now apply IH].
  cbn [last_match]. now rewrite IH, E.
Qed.

Lemma last_match_filter (A : Type) (p q : A -> bool) (l : list A) (r : A) :
  last_match p l = Some r -> q r = true -> last_match p (filter q l) = Some r.
Proof.
  induction l as [|x l IH]; intros H Hq; [discriminate|]. cbn [last_match] in H.
  destruct (last_match p l) as [r'|] eqn:E.
  - injection H as ->. cbn [filter]. destruct (q x); [cbn [last_match]|]; now rewrite IH.
  - destruct (p x) eqn:Ep; [|discriminate]. injection H as ->.
    cbn [filter]. rewrite Hq. cbn [last_match].
    now rewrite (last_match_none_filter p q l E), Ep.
Qed.

Lemma last_match_snoc (A : Type) (p : A -> bool) (l : list A) (x : A) :
  last_match p (l ++ [x]) = if p x then Some x else last_match p l.
Proof.
  induction l as [|y l IH]; cbn [app last_match].
  - reflexivity.
  - rewrite IH. destruct (p x); [reflexivity|].
    now destruct (last_match p l).
Qed.

Lemma last_match_In (A : Type) (p : A -> bool) (l : list A) (r : A) :
  last_match p l = Some r -> In r l /\ p r = true.
Proof.
  induction l as [|x l IH]; intros H; [discriminate|]. cbn [last_match] in H.
  destruct (last_match p l) as [r'|].
  - injection H as ->. destruct (IH eq_refl) as [Hin Hp]. split; [now right|exact Hp].
  - destruct (p x) eqn:E; [|discriminate]. injection H as ->. split; [now left|exact E].
Qed.

Lemma existing_get_last_row (d : db) (path : string) :
  existing_get (existing_of d false) path
  = option_map Session.modified_at (last_row d path).
Proof.
  unfold existing_of, last_row. induction (sessions d) as [|s l IH]; [reflexivity|].
  cbn [filter last_match].
  destruct (String.eqb (Session.source s) "claude-code") eqn:Es; cbn [andb].
  - cbn [map existing_get]. rewrite IH.
    destruct (last_match _ l) as [r|]; [reflexivity|]. cbn [option_map].
    now destruct (String.eqb (Session.raw_path s) path).
  - rewrite IH. now destruct (last_match _ l).
Qed.

Lemma last_row_kept (d : db) (s : Session.t) (msgs : list Message.t) (path : string)
  (r : Session.t) :
  last_row d path = Some r ->
  Session.id r <> Session.id s ->
  Session.raw_path s <> path ->
  last_row (store_session d s msgs) path = Some r.
Proof.
  intros Hr Hid Hpath. unfold last_row in *.
  rewrite store_session_sessions, last_match_snoc.
  apply String.eqb_neq in Hpath. rewrite Hpath, andb_false_r.
  apply last_match_filter; [exact Hr|]. apply negb_true_iff. now apply String.eqb_neq.
Qed.

Lemma last_row_stored (d : db) (s : Session.t) (msgs : list Message.t) :
  Session.source s = "claude-code"%string ->
  last_row (store_session d s msgs) (Session.raw_path s) = Some s.
Proof.
  intros Hsrc. unfold last_row. rewrite store_session_sessions, last_match_snoc.
  rewrite Hsrc. cbn [andb String.eqb]. now rewrite !String.eqb_refl.
Qed.

Lemma NoDup_map_apart (A B : Type) (f : A -> B) (l1 l2 : list A) (b a : A) :
  NoDup (map f (l1 ++ b :: l2)) -> In a (l1 ++ l2) -> f a <> f b.
Proof.
  intros H Ha Heq. rewrite map_app in H. cbn [map] in H.
  apply NoDup_remove_2 in H. apply H. rewrite <- map_app, <- Heq. now apply in_map.
Qed.

Section SecondRun.
Variable d : db.
Variable cutoff : option Z.
Variable project_filter : option string.
Variable force : bool.
Variable artifacts : list artifact.
Hypothesis ids_apart : NoDup (map artifact_id artifacts).
Hypothesis paths_apart : NoDup (map art_path artifacts).
Hypothesis rows_by_path :
  forall a r, In a artifacts -> In r (sessions d) ->
              Session.raw_path r = art_path a -> Session.id r = artifact_id a.

Lemma unchanged_recorded (a : artifact) (stored : Z) :
  In a artifacts ->
  existing_get (existing_of d force) (art_path a) = Some stored ->
  stored = st_mtime (art_file a) ->
  exists r, last_row d (art_path a) = Some r
            /\ Session.modified_at r = st_mtime (art_file a)
            /\ Session.id r = artifact_id a.
Proof.
  intros Ha Hget ->. destruct force; [discriminate|].
  rewrite existing_get_last_row in Hget.
  destruct (last_row d (art_path a)) as [r|] eqn:Hr; [|discriminate].
  injection Hget as Hm. exists r. split; [reflexivity|]. split; [exact Hm|].
  destruct (last_match_In _ _ Hr) as [Hin Hp].
  apply andb_prop in Hp. destruct Hp as [_ Hp]. apply String.eqb_eq in Hp.
  now apply rows_by_path.
Qed.

Lemma process_keeps_records (todo done : list artifact) (dk : db) (b : artifact) :
  artifacts = (done ++ b :: todo)%list ->
  (forall a, In a done -> passes_filters cutoff project_filter a = true -> recorded dk a) ->
  (forall b' r, In b' (b :: todo) -> last_row d (art_path b') = Some r ->
                last_row dk (art_path b') = Some r) ->
  let ps := process_session (art_file b) (decode_project_name (projdir b))
              (PyStr.remove_all ".jsonl" (fname b)) in
  let dk' := store_session dk (fst ps) (snd ps) in
  (forall a, In a (done ++ [b]) -> passes_filters cutoff project_filter a = true ->
             recorded dk' a)
  /\ (forall b' r, In b' todo -> last_row d (art_path b') = Some r ->
                   last_row dk' (art_path b') = Some r).
Proof.
  intros Hsplit Hdone Htodo ps dk'.
  assert (Hids : forall a, In a (done ++ todo) -> artifact_id a <> artifact_id b).
  { intros a Ha. apply (@NoDup_map_apart _ _ artifact_id done todo b a); [|exact Ha].
    now rewrite <- Hsplit. }
  assert (Hpaths : forall a, In a (done ++ todo) -> art_path a <> art_path b).
  { intros a Ha. apply (@NoDup_map_apart _ _ art_path done todo b a); [|exact Ha].
    now rewrite <- Hsplit. }
  assert (Hid : Session.id (fst ps) = artifact_id b) by reflexivity.
  assert (Hpath : Session.raw_path (fst ps) = art_path b) by reflexivity.
  assert (Hsrc : Session.source (fst ps) = "claude-code"%string) by reflexivity.
  assert (Hmod : Session.modified_at (fst ps) = st_mtime (art_file b)) by reflexivity.
  split.
  - intros a Ha Hp. apply in_app_or in Ha. destruct Ha as [Ha|[<-|[]]].
    + destruct (Hdone a Ha Hp) as [r [Hr [Hm Hi]]].
      exists r. split; [|now split]. unfold dk'.
      apply last_row_kept; [exact Hr| |].
      * rewrite Hi, Hid. apply Hids. apply in_or_app. now left.
      * rewrite Hpath. intros Heq. apply (Hpaths a); [apply in_or_app; now left|].
        symmetry. exact Heq.
    + exists (fst ps). split; [|split; assumption].
      rewrite <- Hpath. unfold dk'. now apply last_row_stored.
  - intros b' r Hb' Hr. unfold dk'. apply last_row_kept.
    + apply Htodo; [now right|exact Hr].
    + destruct (last_match_In _ _ Hr) as [Hin Hp].
      apply andb_prop in Hp. destruct Hp as [_ Hp]. apply String.eqb_eq in Hp.
      assert (Hb'' : In b' artifacts)
        by (rewrite Hsplit; apply in_or_app; right; now right).
      rewrite (rows_by_path b' r Hb'' Hin Hp), Hid.
      apply Hids. apply in_or_app. now right.
    + rewrite Hpath. intros Heq. apply (Hpaths b'); [apply in_or_app; now right|].
      symmetry. exact Heq.
Qed.

Lemma first_run_records (todo done : list artifact) (dk : db) (c : counts) :
  artifacts = (done ++ todo)%list ->
  (forall a, In a done -> passes_filters cutoff project_filter a = true -> recorded dk a) ->
  (forall b r, In b todo -> last_row d (art_path b) = Some r ->
               last_row dk (art_path b) = Some r) ->
  forall a, In a artifacts -> passes_filters cutoff project_filter a = true ->
    recorded
      (fst (fold_left (ingest_one (existing_of d force) cutoff project_filter) todo (dk, c)))
      a.
Proof.
  revert done dk c. induction todo as [|b todo IH]; intros done dk c Hsplit Hdone Htodo.
  - intros a Ha Hp. rewrite Hsplit, app_nil_r in Ha. cbn [fold_left fst]. now apply Hdone.
  - cbn [fold_left].
    assert (Hb : In b artifacts) by (rewrite Hsplit; apply in_or_app; right; now left).
    assert (Hsplit' : artifacts = ((done ++ [b]) ++ todo)%list)
      by (rewrite <- app_assoc; exact Hsplit).
    destruct (@process_keeps_records todo done dk b Hsplit Hdone Htodo) as [Hrec Hrest].
    unfold ingest_one at 2. rewrite decide_filters.
    destruct (passes_filters cutoff project_filter b) eqn:Hpass.
    + fold (art_path b).
      destruct (existing_get (existing_of d force) (art_path b)) as [stored|] eqn:Hget.
      * destruct (Z.eqb_spec stored (st_mtime (art_file b))) as [Heq|Hne].
        -- apply (IH (done ++ [b])%list); [exact Hsplit'| |].
           ++ intros a Ha Hp. apply in_app_or in Ha. destruct Ha as [Ha|[<-|[]]].
              ** now apply Hdone.
              ** destruct (unchanged_recorded b Hb Hget Heq) as [r [Hr [Hm Hid]]].
                 exists r. split; [|now split]. apply Htodo; [now left|exact Hr].
           ++ intros b' r Hb' Hr. apply Htodo; [now right|exact Hr].
        -- destruct (process_session (art_file b) _ _) as [session msgs].
           now apply (IH (done ++ [b])%list).
      * destruct (process_session (art_file b) _ _) as [session msgs].
        now apply (IH (done ++ [b])%list).
    + apply (IH (done ++ [b])%list); [exact Hsplit'| |].
      * intros a Ha Hp. apply in_app_or in Ha. destruct Ha as [Ha|[<-|[]]].
        -- now apply Hdone.
        -- congruence.
      * intros b' r Hb' Hr. apply Htodo; [now right|exact Hr].
Qed.

End SecondRun.

Lemma all_unchanged_run (existing : list (string * Z)) (cutoff : option Z)
  (project_filter : option string) (arts : list artifact) (d : db) (c : counts) :
  (forall a, In a arts -> passes_filters cutoff project_filter a = true ->
             existing_get existing (art_path a) = Some (st_mtime (art_file a))) ->
  fold_left (ingest_one existing cutoff project_filter) arts (d, c)
  = (d, mkCounts (ingested c)
          (skipped c + count_of (passes_filters cutoff project_filter) arts)
          (updated c)).
Proof.
  revert c. induction arts as [|a arts IH]; intros c H.
  - cbn [fold_left]. unfold count_of. cbn. rewrite Z.add_0_r. now destruct c.
  - cbn [fold_left]. rewrite count_of_cons. unfold ingest_one at 2.
    rewrite decide_filters.
    destruct (passes_filters cutoff project_filter a) eqn:Hp.
    + fold (art_path a). rewrite (H a (or_introl eq_refl) Hp), Z.eqb_refl.
      rewrite IH by (intros a' Ha'; apply H; now right).
      cbn [ingested skipped updated bool_count]. f_equal. f_equal. lia.
    + rewrite IH by (intros a' Ha'; apply H; now right).
      cbn [bool_count]. f_equal.
Qed.

(** X21. A second run over the same artifacts changes nothing and skips
    every artifact that gets past the tests, provided the artifacts have
    pairwise different session ids and paths and the rows already stored
    under their paths carry their session ids. (Without the first
    condition the claim fails: two files of one name overwrite each
    other.) *)
Theorem second_run_changes_nothing :
  forall d artifacts cutoff project_filter force,
    NoDup (map artifact_id artifacts) ->
    NoDup (map art_path artifacts) ->
    (forall a r, In a artifacts -> In r (sessions d) ->
                 Session.raw_path r = art_path a -> Session.id r = artifact_id a) ->
    let d1 := fst (ingest d artifacts cutoff project_filter force) in
    ingest d1 artifacts cutoff project_filter false
    = (d1, mkCounts 0 (count_of (passes_filters cutoff project_filter) artifacts) 0).
Proof.
  intros d artifacts cutoff pf force Hids Hpaths Hrows d1.
  unfold ingest at 1. rewrite all_unchanged_run; [reflexivity|].
  intros a Ha Hp.
  destruct (@first_run_records d cutoff pf force artifacts Hids Hpaths Hrows
              artifacts [] d (mkCounts 0 0 0) eq_refl) with (a := a)
    as [r [Hr [Hm Hid]]]; try assumption.
  - intros a' [].
  - intros b r _ Hr. exact Hr.
  - fold (ingest d artifacts cutoff pf force) in Hr. fold d1 in Hr.
    rewrite existing_get_last_row, Hr. cbn [option_map]. now rewrite Hm.
Qed.

Lemma second_run_changes_nothing_witness :
  NoDup (map artifact_id [example_artifact 100 ten_lines; second_artifact])
  /\ NoDup (map art_path [example_artifact 100 ten_lines; second_artifact])
  /\ ingest (fst (ingest empty_db [example_artifact 100 ten_lines; second_artifact]
                    None None false))
       [example_artifact 100 ten_lines; second_artifact] None None false
     = (fst (ingest empty_db [example_artifact 100 ten_lines; second_artifact]
               None None false),
        mkCounts 0 (count_of (passes_filters None None)
                      [example_artifact 100 ten_lines; second_artifact]) 0).
Proof.
  assert (H1 : NoDup (map artifact_id [example_artifact 100 ten_lines; second_artifact])).
  { vm_compute. constructor; [intros [H|[]]; discriminate H|].
    constructor; [intros []|constructor]. }
  assert (H2 : NoDup (map art_path [example_artifact 100 ten_lines; second_artifact])).
  { vm_compute. constructor; [intros [H|[]]; discriminate H|].
    constructor; [intros []|constructor]. }
  split; [exact H1|]. split; [exact H2|].
  apply (@second_run_changes_nothing empty_db
           [example_artifact 100 ten_lines; second_artifact] None None false H1 H2).
  intros a r _ [].
Defined.

(* ================================================================== *)
(** * The exceptions that end a run *)





(** A line on which the loop is left appends no message. *)
Lemma line_step_caught_messages (st st' : Agg.t) (line : raw_line) :
  line_step st line = Caught st' -> Agg.messages st' = Agg.messages st.
Proof.
  intros E. destruct line as [| | |j]; cbn [line_step] in E;
    try (injection E as <-; reflexivity); try discriminate.
  destruct j as [| | | | |obj]; try (injection E as <-; reflexivity).
  destruct (retained obj) eqn:Hret.
  - destruct (get_text_content obj) as [text|] eqn:Ht.
    + rewrite (@record_step_closed st obj text Hret Ht) in E.
      destruct (to_scalars (record_tool_names obj)) as [names|]; [discriminate|].
      injection E as <-. reflexivity.
    + rewrite (@record_step_text_raises st obj Hret Ht) in E. now injection E as <-.
  - rewrite (@record_step_skip st obj Hret) in E. discriminate.
Qed.

(** One timestamp is bound for every message. *)
Lemma message_timestamps_length (ls : list raw_line) (st : Agg.t) :
  (List.length (Agg.messages (final_state (read_lines st ls)))
   = List.length (Agg.messages st) + List.length (message_timestamps st ls))%nat.
Proof.
  revert st. induction ls as [|line ls IH]; intros st.
  - cbn. lia.
  - cbn [read_lines message_timestamps].
    destruct (line_step st line) as [st1|st1] eqn:E.
    + rewrite IH, length_app.
      assert (Hstep : (List.length (Agg.messages st1)
                       = List.length (Agg.messages st)
                         + List.length (line_timestamp line))%nat).
      { destruct line as [| | |j]; cbn [line_step line_timestamp] in *;
          try (injection E as <-; cbn; lia); try discriminate.
        destruct j as [| | | | |obj]; try discriminate.
        destruct (retained obj) eqn:Hret.
        - destruct (get_text_content obj) as [text|] eqn:Ht.
          + rewrite (@record_step_closed st obj text Hret Ht) in E.
            destruct (to_scalars (record_tool_names obj)) as [names|]; [|discriminate].
            injection E as <-. unfold appended_state. cbn [Agg.messages].
            rewrite length_app. cbn. lia.
          + rewrite (@record_step_text_raises st obj Hret Ht) in E. discriminate.
        - rewrite (@record_step_skip st obj Hret) in E. injection E as <-. cbn. lia. }
      lia.
    + cbn [final_state]. rewrite (@line_step_caught_messages st st1 line E). cbn. lia.
Qed.







(* ================================================================== *)
(** * A: the retry chains of a stored session *)










(* ================================================================== *)
(** * An exception while a session file is read, and the run around it *)







